(** * Vote Count Bot: extraction engine and conversation state machine

    A shallow embedding of [VoteCount_bot(public).py]:
    - the text helpers of Python and of the [re] module that [extract_votes]
      and the handlers call, over text whose code points are below 256;
    - [extract_votes], with the fuzzy match against [DEFAULT_CANDIDATES];
    - the handlers of the [ConversationHandler] built in [main], as
      computations over the global [user_sessions] dictionary, with the
      replies sent and the external services contacted kept in a log. *)

From Stdlib Require Import Ascii String NArith ZArith Lia.
From Stdlib Require Import DecimalString DecimalN DecimalPos DecimalFacts.
From stdpp Require Import gmap strings list fin_maps.

Open Scope string_scope.

#[local] Arguments String.append !s1 s2 : simpl nomatch.

(** ** Characters

    A character is its code point; [ascii] gives the range 0..255. *)

Definition code (c : ascii) : N := N_of_ascii c.

Definition in_range (lo hi : N) (c : ascii) : bool :=
  ((lo <=? code c) && (code c <=? hi))%N.

(** [str.isspace] on one character, also the class [\s] of [re]. *)
Definition isspace (c : ascii) : bool :=
  in_range 9 13 c || in_range 28 32 c || (code c =? 133)%N || (code c =? 160)%N.

(** The line boundaries of [str.splitlines]. *)
Definition is_linebreak (c : ascii) : bool :=
  in_range 10 13 c || in_range 28 30 c || (code c =? 133)%N.

(** The class [\d] of [re]: the decimal digits. *)
Definition is_decimal (c : ascii) : bool := in_range 48 57 c.

(** [str.isdigit] on one character: the decimal digits and the superscript
    digits U+00B2, U+00B3 and U+00B9. *)
Definition isdigit_char (c : ascii) : bool :=
  is_decimal c || (code c =? 178)%N || (code c =? 179)%N || (code c =? 185)%N.

Definition is_letter (c : ascii) : bool := in_range 65 90 c || in_range 97 122 c.

(** The three character classes of the line pattern
    [([A-Za-z\.\-\s]+)[:\s]+([\d,]+)]. *)
Definition re_name (c : ascii) : bool :=
  is_letter c || (code c =? 46)%N || (code c =? 45)%N || isspace c.

Definition re_sep (c : ascii) : bool := (code c =? 58)%N || isspace c.

Definition re_num (c : ascii) : bool := is_decimal c || (code c =? 44)%N.

(** [str.lower] on one character. *)
Definition lower_char (c : ascii) : ascii :=
  if in_range 65 90 c || in_range 192 214 c || in_range 216 222 c
  then ascii_of_N (code c + 32) else c.

(** ** Strings *)

Fixpoint all_chars (p : ascii -> bool) (s : string) : bool :=
  match s with
  | EmptyString => true
  | String c s' => p c && all_chars p s'
  end.

Definition is_empty (s : string) : bool :=
  match s with EmptyString => true | _ => false end.

Fixpoint lower (s : string) : string :=
  match s with
  | EmptyString => EmptyString
  | String c s' => String (lower_char c) (lower s')
  end.

Fixpoint lstrip (s : string) : string :=
  match s with
  | EmptyString => EmptyString
  | String c s' => if isspace c then lstrip s' else s
  end.

Fixpoint rstrip (s : string) : string :=
  match s with
  | EmptyString => EmptyString
  | String c s' =>
      let r := rstrip s' in
      if isspace c && is_empty r then EmptyString else String c r
  end.

(** [str.strip()] *)
Definition strip (s : string) : string := rstrip (lstrip s).

(** [str.isdigit()] *)
Definition isdigit (s : string) : bool :=
  negb (is_empty s) && all_chars isdigit_char s.

Inductive PyExn : Type := KeyError | ValueError.

Definition Exc (A : Type) : Type := (PyExn + A)%type.

Fixpoint int_acc (acc : N) (s : string) : Exc N :=
  match s with
  | EmptyString => inr acc
  | String c s' =>
      if is_decimal c then int_acc (10 * acc + (code c - 48))%N s'
      else inl ValueError
  end.

(** The most digits of a string that [int] converts, and of a number that
    [str] and [format] print: [sys.int_info.default_max_str_digits]. *)
Definition max_str_digits : N := 4300.

Definition too_long (s : string) : bool :=
  (max_str_digits <? N.of_nat (String.length s))%N.

(** [int(s)], for the strings the program passes to it: those on which
    [isdigit] answered [True]. A superscript digit is refused, and so is a
    string of more than [max_str_digits] digits, leading zeros counted. *)
Definition int (s : string) : Exc N :=
  if is_empty s || too_long s then inl ValueError else int_acc 0 s.

(** [str.startswith] *)
Fixpoint startswith (s p : string) : bool :=
  match p, s with
  | EmptyString, _ => true
  | String a p', String b s' => Ascii.eqb a b && startswith s' p'
  | String _ _, EmptyString => false
  end.

Fixpoint remove_from (skip : nat) (old s : string) : string :=
  match s with
  | EmptyString => EmptyString
  | String c s' =>
      match skip with
      | S n => remove_from n old s'
      | O =>
          if startswith s old then remove_from (String.length old - 1) old s'
          else String c (remove_from 0 old s')
      end
  end.

(** [s.replace(old, "")] for a non-empty [old]: the occurrences of [old],
    found from the left and not overlapping, are dropped. *)
Definition remove_all (old s : string) : string := remove_from 0 old s.

(** [str.splitlines()] *)
Fixpoint splitlines (s : string) : list string :=
  match s with
  | EmptyString => []
  | String c s' =>
      if is_linebreak c then
        match s' with
        | String c2 s'' =>
            if (code c =? 13)%N && (code c2 =? 10)%N
            then EmptyString :: splitlines s''
            else EmptyString :: splitlines s'
        | EmptyString => [EmptyString]
        end
      else
        match splitlines s' with
        | [] => [String c EmptyString]
        | l :: ls => String c l :: ls
        end
  end.

(** [re.sub(r'\s+', ' ', s)]; [in_run] tells that the previous character
    was white space, already replaced. *)
Fixpoint sub_spaces (in_run : bool) (s : string) : string :=
  match s with
  | EmptyString => EmptyString
  | String c s' =>
      if isspace c then
        if in_run then sub_spaces true s' else String " " (sub_spaces true s')
      else String c (sub_spaces false s')
  end.

(** ** The line pattern

    A backtracking matcher for [cls+] followed by a continuation: the
    repetition is greedy and gives characters back one at a time when what
    follows fails, as [re] does. [acc] is what the repetition holds. *)

Fixpoint re_star {R : Type} (cls : ascii -> bool) (s acc : string)
    (k : string -> string -> option R) : option R :=
  match s with
  | String c s' =>
      if cls c then
        match re_star cls s' (acc ++ String c EmptyString) k with
        | Some r => Some r
        | None => k acc s
        end
      else k acc s
  | EmptyString => k acc EmptyString
  end.

Definition re_plus {R : Type} (cls : ascii -> bool) (s : string)
    (k : string -> string -> option R) : option R :=
  match s with
  | String c s' => if cls c then re_star cls s' (String c EmptyString) k else None
  | EmptyString => None
  end.

(** [re.match(r"([A-Za-z\.\-\s]+)[:\s]+([\d,]+)", s)]: groups 1 and 2. *)
Definition match_line (s : string) : option (string * string) :=
  re_plus re_name s (fun g1 r1 =>
  re_plus re_sep r1 (fun _ r2 =>
  re_plus re_num r2 (fun g2 _ => Some (g1, g2)))).

(** ** Edit distance

    [Levenshtein.distance] is the edit distance with unit costs. It is
    computed row by row, as the library does: [rows s t] lists the distance
    from [s] to every suffix of [t], the whole of [t] first. *)

Module Levenshtein.

Definition cost (a b : ascii) : nat := if Ascii.eqb a b then 0 else 1.

Fixpoint base_row (t : string) : list nat :=
  match t with
  | EmptyString => [0]
  | String _ t' => S (String.length t') :: base_row t'
  end.

Fixpoint step_row (a : ascii) (t : string) (prev : list nat) : list nat :=
  match t, prev with
  | String b t', up :: ((diag :: _) as prev') =>
      match step_row a t' prev' with
      | (nxt :: _) as row =>
          Nat.min (S up) (Nat.min (S nxt) (cost a b + diag)) :: row
      | [] => []
      end
  | EmptyString, up :: _ => [S up]
  | _, _ => []
  end.

Fixpoint rows (s t : string) : list nat :=
  match s with
  | EmptyString => base_row t
  | String a s' => step_row a t (rows s' t)
  end.

Definition distance (s t : string) : nat := hd 0 (rows s t).

(** The textbook recurrence, against which [distance] is checked below. *)
Fixpoint edits (s : string) : string -> nat :=
  fix edits_s (t : string) : nat :=
    match s, t with
    | EmptyString, _ => String.length t
    | _, EmptyString => String.length s
    | String a s', String b t' =>
        Nat.min (S (edits s' t))
          (Nat.min (S (edits_s t')) (cost a b + edits s' t'))
    end.

End Levenshtein.

(** ** The extraction engine *)

Definition DEFAULT_CANDIDATES : list string :=
  [ "Tobias"; "Chilungo"; "Chakwera"; "Nankhumwa"; "Bandawe"; "Banda";
    "Muluzi"; "Kaliya"; "Mutharika"; "Mwenifumbo"; "Kabambe"; "Chibambo";
    "Swira"; "Mbewe"; "Chilumpha"; "Chipojola"; "Dube" ].

Definition REGIONS : list string := [ "Northern"; "Central"; "Southern" ].

(** One turn of the loop [for candidate in DEFAULT_CANDIDATES]. The pair
    [(best_match, min_distance)] is [None] while it still is
    [(None, float("inf"))]. *)
Definition closer (raw_name : string) (best : option (string * nat))
    (candidate : string) : option (string * nat) :=
  let dist := Levenshtein.distance (lower raw_name) (lower candidate) in
  match best with
  | None => Some (candidate, dist)
  | Some (_, min_distance) =>
      if (dist <? min_distance)%nat then Some (candidate, dist) else best
  end.

Definition closest (catalog : list string) (raw_name : string)
  : option (string * nat) :=
  fold_left (closer raw_name) catalog None.

(** The body of [for line in lines], on the mapping [matched]. *)
Definition match_votes (matched : gmap string N) (line : string)
  : Exc (gmap string N) :=
  let clean_line := strip (sub_spaces false line) in
  match match_line clean_line with
  | Some (g1, g2) =>
      let raw_name := strip g1 in
      let vote_str := strip (remove_all "," g2) in
      if isdigit vote_str then
        match int vote_str with
        | inl e => inl e
        | inr vote_count =>
            match closest DEFAULT_CANDIDATES raw_name with
            | Some (best_match, min_distance) =>
                if (min_distance <=? 2)%nat
                then inr (<[best_match := vote_count]> matched)
                else inr matched
            | None => inr matched
            end
        end
      else inr matched
  | None => inr matched
  end.

(** A [for] loop whose body updates [acc] and may raise. *)
Fixpoint for_each {A B : Type} (body : B -> A -> Exc B) (acc : B)
    (items : list A) : Exc B :=
  match items with
  | [] => inr acc
  | x :: rest =>
      match body acc x with
      | inl e => inl e
      | inr acc' => for_each body acc' rest
      end
  end.

(** [[line.strip() for line in text.splitlines() if line.strip()]] *)
Definition lines_of (text : string) : list string :=
  filter (fun l => is_empty l = false) (strip <$> splitlines text).

Definition extract_votes (text : string) : Exc (gmap string N) :=
  for_each match_votes ∅ (lines_of text).

(** ** Sessions and the world the handlers run in *)

(** The dictionary stored in [user_sessions] for one user. The key
    ["candidate_to_edit"] is absent until a candidate is selected:
    [None] is the absent key. A dictionary of counts is a finite map: the
    order of its keys, which only the layout of the replies shows, is left
    out. *)
Record Session : Type := {
  candidates : gmap string N;
  region : option string;
  district : option string;
  votes_confirmed : bool;
  candidate_to_edit : option string;
}.

Definition set_candidates (v : gmap string N) (s : Session) : Session :=
  {| candidates := v; region := region s; district := district s;
     votes_confirmed := votes_confirmed s;
     candidate_to_edit := candidate_to_edit s |}.

Definition set_region (r : string) (s : Session) : Session :=
  {| candidates := candidates s; region := Some r; district := district s;
     votes_confirmed := votes_confirmed s;
     candidate_to_edit := candidate_to_edit s |}.

Definition set_district (d : string) (s : Session) : Session :=
  {| candidates := candidates s; region := region s; district := Some d;
     votes_confirmed := votes_confirmed s;
     candidate_to_edit := candidate_to_edit s |}.

Definition set_candidate_to_edit (c : option string) (s : Session) : Session :=
  {| candidates := candidates s; region := region s; district := district s;
     votes_confirmed := votes_confirmed s; candidate_to_edit := c |}.

(** The states of the conversation, and what a handler returns. *)
Inductive State : Type :=
  | CHOOSE_INPUT_MODE | WAIT_FOR_IMAGE | WAIT_FOR_TEXT | EDIT_MENU
  | BULK_EDIT_ALL | EDIT_SINGLE_CANDIDATE | ADD_CANDIDATE_NAME
  | REMOVE_CANDIDATE_NAME | SELECT_REGION | SELECT_DISTRICT
  | CONFIRM_OVERRIDE.

Inductive Return : Type :=
  | Goto (st : State)
  | END.                     (* ConversationHandler.END *)

(** What [send_to_google_sheet] posts. *)
Record Payload : Type := {
  p_region : string;
  p_district : string;
  p_timestamp : string;
  p_sender : string;
  p_votes : gmap string N;
}.

(** The texts sent to the user, one constructor for each message of the
    source, with the data the message and its keyboard are made from; the
    keyboard a message is sent with is [reply_markup], below. *)
Inductive Message : Type :=
  | Welcome                        (* Welcome to the Vote Count Bot! *)
  | SendPhoto                      (* Please send a photo of the vote count sheet. *)
  | PasteText                      (* Please paste the text containing vote counts. *)
  | Cancelled                      (* Operation cancelled. Use /start to begin again. *)
  | ChooseValidOption              (* Please choose a valid option. *)
  | PleaseSendPhoto                (* Please send a photo. *)
  | ProcessingImage                (* Processing image, please wait... *)
  | OcrFailed                      (* OCR failed to extract text. ... *)
  | NoVotesInImage                 (* Could not find votes in the text. ... *)
  | CouldNotParse                  (* Could not parse votes from text. ... *)
  | ParsedVotes (v : gmap string N)      (* Parsed votes: ... *)
  | BulkEditFormat                 (* Send all candidates and votes in the format: ... *)
  | SelectToEdit (v : gmap string N)     (* Select a candidate to edit: *)
  | SendNewName                    (* Send the new candidate's name: *)
  | SelectToRemove (v : gmap string N)   (* Select a candidate to remove: *)
  | ChooseRegion                   (* Choose the region for this vote count: *)
  | CurrentVotes (v : gmap string N)     (* Current votes: ... *)
  | SelectValidOption              (* Please select a valid option. *)
  | NoValidVotes                   (* No valid candidate votes found. ... *)
  | UpdatedVotes (v : gmap string N)     (* Updated votes: ... *)
  | SendNewCount (c : string)      (* Send new vote count for {candidate}: *)
  | SelectValidCandidate           (* Please select a valid candidate or option. *)
  | SelectValidCandidateMenu       (* the same text, with the edit menu (line 432) *)
  | NoCandidateSelected            (* No candidate selected. Returning to edit menu. *)
  | SendValidInteger               (* Please send a valid integer vote count. *)
  | UpdatedCandidate (c text : string)   (* Updated {candidate} to {text} votes. *)
  | InvalidOrExisting              (* Invalid or existing candidate name. Try again. *)
  | AddedCandidate (c : string)    (* Added candidate '{new_name}'. ... *)
  | RemovedCandidate (c : string)  (* Candidate '{candidate}' removed. *)
  | CandidateNotFound              (* Candidate not found. Returning to edit menu. *)
  | RegionSelected (r : string) (submitted : list string)
                                   (* Region '{region}' selected. Now choose a district: *)
  | PleaseSelectRegion             (* Please select a region. *)
  | OverrideQuestion (d : string)  (* Data already exists for district '{district}'. Override? *)
  | DistrictSelected (d : string)  (* District '{district}' selected. Submitting data... *)
  | SelectRegionAgain              (* Select the region for this vote count: *)
  | PleaseSelectDistrict (r : option string) (submitted : list string)
                                   (* Please select a district. *)
  | Overriding                     (* Overriding previous data. Submitting now... *)
  | ChooseAnotherDistrict (r : option string) (submitted : list string)
                                   (* Choose another district: *)
  | PleaseChooseOption             (* Please choose an option. *)
  | SessionExpired                 (* Session expired. Use /start to begin again. *)
  | IncompleteData                 (* Incomplete data. Please restart with /start. *)
  | Submitting                     (* Submitting data, please wait... *)
  | ResultsSubmitted (d : string) (v : gmap string N)
                                   (* Results Submitted For {district} ... *)
  | FailedToSubmit (why : string)  (* Failed to submit data: {message} Please try again. *)
  | NotUnderstood.                 (* Sorry, I didn't understand that. ... *)

(** What a handler does that is seen outside: a text sent to the user
    ([reply_text], [edit_message_text]) or a request to a service. *)
Inductive Effect : Type :=
  | Reply (m : Message)
  | OcrRequest                     (* requests.post to the OCR service *)
  | DistrictsRequest               (* requests.get ...get_submitted_districts *)
  | SheetRequest (p : Payload).    (* requests.post of the payload *)

(** The outcome of one HTTP exchange: [Failed] is the
    [RequestException] (for [get_submitted_districts], any exception). *)
Inductive Http (A : Type) : Type :=
  | Failed (error : string)
  | Answered (a : A).
Arguments Failed {A} error.
Arguments Answered {A} a.

(** The two keys read from the dictionary [send_to_google_sheet]
    returns: the truth value of ["success"] and ["message"]. *)
Record SheetResult : Type := {
  success : bool;
  message : option string;
}.

(** What lies outside the program while one handler runs: the answers of
    the three services, the sender's display name and the clock. *)
Record Env : Type := {
  ocr_http : Http (option string);
  districts_http : Http (list string);
  sheet_http : Http SheetResult;
  sender_name : string;
  clock : string;
}.

Definition send_to_google_sheet (env : Env) : SheetResult :=
  match sheet_http env with
  | Answered result => result
  | Failed e => {| success := false; message := Some e |}
  end.

(** [Answered None] is an answer without ["ParsedResults"]. *)
Definition ocr_image (env : Env) : option string :=
  match ocr_http env with
  | Answered (Some extracted_text) => Some extracted_text
  | Answered None => None
  | Failed _ => None
  end.

Definition get_submitted_districts (env : Env) : list string :=
  match districts_http env with
  | Answered districts => lower <$> districts
  | Failed _ => []
  end.

Record World : Type := {
  user_sessions : gmap Z Session;
  sent : list Effect;
}.

(** A handler: it may raise, and changes the world up to there. *)
Definition Handler (A : Type) : Type := World -> Exc A * World.

Definition raise {A : Type} (e : PyExn) : Handler A := fun w => (inl e, w).

#[global] Instance handler_ret : MRet Handler := fun A a w => (inr a, w).

#[global] Instance handler_bind : MBind Handler := fun A B k m w =>
  match m w with
  | (inr a, w') => k a w'
  | (inl e, w') => (inl e, w')
  end.

Definition emit (e : Effect) : Handler unit :=
  fun w => (inr tt, {| user_sessions := user_sessions w; sent := sent w ++ [e] |}).

Definition reply (m : Message) : Handler unit := emit (Reply m).

Definition lift {A : Type} (r : Exc A) : Handler A :=
  match r with inl e => raise e | inr a => mret a end.

(** [user_sessions.get(user_id)] *)
Definition sessions_get (user_id : Z) : Handler (option Session) :=
  fun w => (inr (user_sessions w !! user_id), w).

(** [user_sessions[user_id]] *)
Definition session_of (user_id : Z) : Handler Session :=
  fun w =>
    match user_sessions w !! user_id with
    | Some s => (inr s, w)
    | None => (inl KeyError, w)
    end.

(** [user_sessions[user_id] = s] *)
Definition sessions_set (user_id : Z) (s : Session) : Handler unit :=
  fun w => (inr tt, {| user_sessions := <[user_id := s]> (user_sessions w);
                       sent := sent w |}).

(** [user_sessions[user_id][key] = value], [f] being the assignment. *)
Definition session_update (user_id : Z) (f : Session -> Session) : Handler unit :=
  s ← session_of user_id; sessions_set user_id (f s).

(** [user_sessions.pop(user_id, None)] *)
Definition sessions_pop (user_id : Z) : Handler unit :=
  fun w => (inr tt, {| user_sessions := delete user_id (user_sessions w);
                       sent := sent w |}).

(** Truth value of an optional string: [None] and [""] are false. *)
Definition truthy (o : option string) : bool :=
  match o with
  | Some s => negb (is_empty s)
  | None => false
  end.

(** ** The handlers *)

Definition start (user_id : Z) : Handler Return :=
  sessions_set user_id
    {| candidates := list_to_map ((fun c => (c, 0%N)) <$> DEFAULT_CANDIDATES);
       region := None; district := None; votes_confirmed := false;
       candidate_to_edit := None |};;
  reply Welcome;;
  mret (Goto CHOOSE_INPUT_MODE).

Definition choose_input_mode_handler (user_id : Z) (data : string)
  : Handler Return :=
  if (data =? "mode_image")%string then
    reply SendPhoto;; mret (Goto WAIT_FOR_IMAGE)
  else if (data =? "mode_text")%string then
    reply PasteText;; mret (Goto WAIT_FOR_TEXT)
  else if (data =? "cancel")%string then
    sessions_pop user_id;; reply Cancelled;; mret END
  else
    reply ChooseValidOption;; mret (Goto CHOOSE_INPUT_MODE).

Definition receive_photo_handler (env : Env) (user_id : Z) (photo : bool)
  : Handler Return :=
  if negb photo then
    reply PleaseSendPhoto;; mret (Goto WAIT_FOR_IMAGE)
  else
    reply ProcessingImage;;
    emit OcrRequest;;
    let text := ocr_image env in
    if negb (truthy text) then
      reply OcrFailed;; mret (Goto WAIT_FOR_IMAGE)
    else
      votes ← lift (extract_votes (default EmptyString text));
      if bool_decide (votes = ∅) then
        reply NoVotesInImage;; mret (Goto WAIT_FOR_TEXT)
      else
        session_update user_id (set_candidates votes);;
        reply (ParsedVotes votes);;
        mret (Goto EDIT_MENU).

Definition receive_text_handler (user_id : Z) (text : string)
  : Handler Return :=
  votes ← lift (extract_votes text);
  if bool_decide (votes = ∅) then
    reply CouldNotParse;; mret (Goto WAIT_FOR_TEXT)
  else
    session_update user_id (set_candidates votes);;
    reply (ParsedVotes votes);;
    mret (Goto EDIT_MENU).

Definition edit_menu_handler (user_id : Z) (action : string)
  : Handler Return :=
  if (action =? "bulk_edit")%string then
    reply BulkEditFormat;; mret (Goto BULK_EDIT_ALL)
  else if (action =? "edit_individual")%string then
    s ← session_of user_id;
    reply (SelectToEdit (candidates s));;
    mret (Goto EDIT_SINGLE_CANDIDATE)
  else if (action =? "add_candidate")%string then
    reply SendNewName;; mret (Goto ADD_CANDIDATE_NAME)
  else if (action =? "remove_candidate")%string then
    s ← session_of user_id;
    reply (SelectToRemove (candidates s));;
    mret (Goto REMOVE_CANDIDATE_NAME)
  else if (action =? "submit_votes")%string then
    reply ChooseRegion;; mret (Goto SELECT_REGION)
  else if (action =? "back_edit_menu")%string then
    s ← session_of user_id;
    reply (CurrentVotes (candidates s));;
    mret (Goto EDIT_MENU)
  else if (action =? "cancel")%string then
    sessions_pop user_id;; reply Cancelled;; mret END
  else
    reply SelectValidOption;; mret (Goto EDIT_MENU).

(** [line.split(':', 1)]; [None] when [':' not in line]. *)
Fixpoint split_colon (line : string) : option (string * string) :=
  match line with
  | EmptyString => None
  | String c rest =>
      if (code c =? 58)%N then Some (EmptyString, rest)
      else
        match split_colon rest with
        | Some (name, val) => Some (String c name, val)
        | None => None
        end
  end.

(** The body of the loop of [bulk_edit_all_handler]. *)
Definition bulk_line (new_votes : gmap string N) (line : string)
  : Exc (gmap string N) :=
  match split_colon line with
  | None => inr new_votes
  | Some (name, val) =>
      let name := strip name in
      let val := strip val in
      if negb (isdigit val) then inr new_votes
      else
        match int val with
        | inl e => inl e
        | inr n => inr (<[name := n]> new_votes)
        end
  end.

Definition bulk_edit_all_handler (user_id : Z) (text : string)
  : Handler Return :=
  let text := strip text in
  new_votes ← lift (for_each bulk_line ∅ (splitlines text));
  if bool_decide (new_votes = ∅) then
    reply NoValidVotes;; mret (Goto BULK_EDIT_ALL)
  else
    (* dict.update: the new counts win over the stored ones *)
    session_update user_id (fun s => set_candidates (new_votes ∪ candidates s) s);;
    s ← session_of user_id;
    reply (UpdatedVotes (candidates s));;
    mret (Goto EDIT_MENU).

Definition edit_single_candidate_handler (user_id : Z) (data : string)
  : Handler Return :=
  if startswith data "edit_" then
    let candidate := remove_all "edit_" data in
    session_update user_id (set_candidate_to_edit (Some candidate));;
    reply (SendNewCount candidate);;
    mret (Goto EDIT_SINGLE_CANDIDATE)
  else if (data =? "back_edit_menu")%string then
    edit_menu_handler user_id data
  else if (data =? "cancel")%string then
    sessions_pop user_id;; reply Cancelled;; mret END
  else
    reply SelectValidCandidate;; mret (Goto EDIT_SINGLE_CANDIDATE).

Definition receive_single_candidate_vote (user_id : Z) (text : string)
  : Handler Return :=
  s ← session_of user_id;
  let candidate := candidate_to_edit s in
  if negb (truthy candidate) then
    reply NoCandidateSelected;; mret (Goto EDIT_MENU)
  else
    let candidate := default EmptyString candidate in
    let text := strip text in
    if negb (isdigit text) then
      reply SendValidInteger;; mret (Goto EDIT_SINGLE_CANDIDATE)
    else
      n ← lift (int text);
      session_update user_id
        (fun s => set_candidates (<[candidate := n]> (candidates s)) s);;
      session_update user_id (set_candidate_to_edit None);;
      reply (UpdatedCandidate candidate text);;
      mret (Goto EDIT_MENU).

Definition add_candidate_name_handler (user_id : Z) (text : string)
  : Handler Return :=
  let new_name := strip text in
  known ← (if is_empty new_name then mret true
           else s ← session_of user_id;
                mret (bool_decide (is_Some (candidates s !! new_name))));
  if (known : bool) then
    reply InvalidOrExisting;; mret (Goto ADD_CANDIDATE_NAME)
  else
    session_update user_id
      (fun s => set_candidates (<[new_name := 0%N]> (candidates s)) s);;
    reply (AddedCandidate new_name);;
    mret (Goto EDIT_MENU).

Definition remove_candidate_name_handler (user_id : Z) (data : string)
  : Handler Return :=
  if startswith data "remove_" then
    let candidate := remove_all "remove_" data in
    s ← session_of user_id;
    if bool_decide (is_Some (candidates s !! candidate)) then
      session_update user_id
        (fun s => set_candidates (delete candidate (candidates s)) s);;
      reply (RemovedCandidate candidate);;
      mret (Goto EDIT_MENU)
    else
      reply CandidateNotFound;; mret (Goto EDIT_MENU)
  else if (data =? "back_edit_menu")%string then
    edit_menu_handler user_id data
  else if (data =? "cancel")%string then
    sessions_pop user_id;; reply Cancelled;; mret END
  else
    reply SelectValidCandidateMenu;; mret (Goto REMOVE_CANDIDATE_NAME).

Definition select_region_handler (env : Env) (user_id : Z) (data : string)
  : Handler Return :=
  if startswith data "region_" then
    let region := remove_all "region_" data in
    session_update user_id (set_region region);;
    emit DistrictsRequest;;
    let submitted_districts := get_submitted_districts env in
    reply (RegionSelected region submitted_districts);;
    mret (Goto SELECT_DISTRICT)
  else if (data =? "cancel")%string then
    sessions_pop user_id;; reply Cancelled;; mret END
  else
    reply PleaseSelectRegion;; mret (Goto SELECT_REGION).

Definition submit_data (env : Env) (user_id : Z) : Handler Return :=
  data ← sessions_get user_id;
  match data with
  | None => reply SessionExpired;; mret END
  | Some data =>
      let votes := candidates data in
      if negb (truthy (region data) && truthy (district data)
               && negb (bool_decide (votes = ∅))) then
        reply IncompleteData;; mret END
      else
        let region := default EmptyString (region data) in
        let district := default EmptyString (district data) in
        let payload :=
          {| p_region := region; p_district := district;
             p_timestamp := clock env; p_sender := sender_name env;
             p_votes := votes |} in
        reply Submitting;;
        emit (SheetRequest payload);;
        let result := send_to_google_sheet env in
        (if success result then reply (ResultsSubmitted district votes)
         else reply (FailedToSubmit (default "Unknown error" (message result))));;
        sessions_pop user_id;;
        mret END
  end.

Definition select_district_handler (env : Env) (user_id : Z) (data : string)
  : Handler Return :=
  if startswith data "district_" then
    let district := remove_all "district_" data in
    session_update user_id (set_district district);;
    emit DistrictsRequest;;
    let submitted_districts := get_submitted_districts env in
    if bool_decide (lower district ∈ submitted_districts) then
      reply (OverrideQuestion district);; mret (Goto CONFIRM_OVERRIDE)
    else
      reply (DistrictSelected district);; submit_data env user_id
  else if (data =? "back_to_regions")%string then
    reply SelectRegionAgain;; mret (Goto SELECT_REGION)
  else if (data =? "cancel")%string then
    sessions_pop user_id;; reply Cancelled;; mret END
  else
    s ← session_of user_id;
    emit DistrictsRequest;;
    reply (PleaseSelectDistrict (region s) (get_submitted_districts env));;
    mret (Goto SELECT_DISTRICT).

Definition confirm_override_handler (env : Env) (user_id : Z) (data : string)
  : Handler Return :=
  if (data =? "override_yes")%string then
    reply Overriding;; submit_data env user_id
  else if (data =? "override_no")%string then
    emit DistrictsRequest;;
    let submitted_districts := get_submitted_districts env in
    s ← session_of user_id;
    reply (ChooseAnotherDistrict (region s) submitted_districts);;
    mret (Goto SELECT_DISTRICT)
  else
    reply PleaseChooseOption;; mret (Goto CONFIRM_OVERRIDE).

Definition cancel_handler (user_id : Z) : Handler Return :=
  sessions_pop user_id;; reply Cancelled;; mret END.

Definition fallback_handler (user_id : Z) : Handler Return :=
  reply NotUnderstood;; mret END.

(** ** The conversation built in [main] *)

(** The updates the handlers of [main] react to. A [Command] is a text
    message that starts with a bot command, [name] its name in lower
    case, as [CommandHandler] compares it. *)
Inductive Update : Type :=
  | Command (name : string)
  | TextMessage (text : string)
  | PhotoMessage
  | CallbackQuery (data : string).

(** The handlers listed for a state in [states]; the first whose filter
    accepts the update is taken. *)
Definition state_handler (env : Env) (st : State) (user_id : Z) (u : Update)
  : option (Handler Return) :=
  match st, u with
  | CHOOSE_INPUT_MODE, CallbackQuery data =>
      Some (choose_input_mode_handler user_id data)
  | WAIT_FOR_IMAGE, PhotoMessage =>
      Some (receive_photo_handler env user_id true)
  | WAIT_FOR_TEXT, TextMessage text =>
      Some (receive_text_handler user_id text)
  | EDIT_MENU, CallbackQuery data =>
      Some (edit_menu_handler user_id data)
  | BULK_EDIT_ALL, TextMessage text =>
      Some (bulk_edit_all_handler user_id text)
  | EDIT_SINGLE_CANDIDATE, CallbackQuery data =>
      Some (edit_single_candidate_handler user_id data)
  | EDIT_SINGLE_CANDIDATE, TextMessage text =>
      Some (receive_single_candidate_vote user_id text)
  | ADD_CANDIDATE_NAME, TextMessage text =>
      Some (add_candidate_name_handler user_id text)
  | REMOVE_CANDIDATE_NAME, CallbackQuery data =>
      Some (remove_candidate_name_handler user_id data)
  | SELECT_REGION, CallbackQuery data =>
      Some (select_region_handler env user_id data)
  | SELECT_DISTRICT, CallbackQuery data =>
      Some (select_district_handler env user_id data)
  | CONFIRM_OVERRIDE, CallbackQuery data =>
      Some (confirm_override_handler env user_id data)
  | _, _ => None
  end.

(** [fallbacks]: [/cancel], then any other command. *)
Definition fallback (user_id : Z) (u : Update) : option (Handler Return) :=
  match u with
  | Command name =>
      if (name =? "cancel")%string then Some (cancel_handler user_id)
      else Some (fallback_handler user_id)
  | _ => None
  end.

(** [entry_points]: [/start]. *)
Definition entry_point (user_id : Z) (u : Update) : option (Handler Return) :=
  match u with
  | Command name =>
      if (name =? "start")%string then Some (start user_id) else None
  | _ => None
  end.

(** The handler a [ConversationHandler] with [allow_reentry=True] runs for
    an update received in state [st]: the entry points first, then the
    handlers of the state, then the fallbacks; [None] when the update is
    left unhandled. *)
Definition dispatch (env : Env) (st : State) (user_id : Z) (u : Update)
  : option (Handler Return) :=
  match entry_point user_id u with
  | Some h => Some h
  | None =>
      match state_handler env st user_id u with
      | Some h => Some h
      | None => fallback user_id u
      end
  end.

(** One update handled in state [st]: what the handler returns and the
    world it leaves. *)
Definition handle (env : Env) (st : State) (user_id : Z) (u : Update)
    (w : World) : option (Exc Return * World) :=
  match dispatch env st user_id u with
  | Some h => Some (h w)
  | None => None
  end.

(** ** Definitions used to state the properties *)

(** The suffixes of [t], [t] itself first. *)
Fixpoint suffixes (t : string) : list string :=
  t :: match t with
       | EmptyString => []
       | String _ t' => suffixes t'
       end.

(** [best] is what a search for the nearest entry of [catalog] must end
    with: nothing for an empty catalog, else the first entry at the least
    distance from [raw_name], letter case ignored. *)
Definition first_nearest (raw_name : string) (catalog : list string)
    (best : option (string * nat)) : Prop :=
  match best with
  | None => catalog = []
  | Some (b, d) =>
      exists i : nat,
        catalog !! i = Some b /\
        d = Levenshtein.distance (lower raw_name) (lower b) /\
        (forall c, c ∈ catalog ->
           d <= Levenshtein.distance (lower raw_name) (lower c)) /\
        (forall (j : nat) c, j < i -> catalog !! j = Some c ->
           d < Levenshtein.distance (lower raw_name) (lower c))
  end.

Definition starts_outside (cls : ascii -> bool) (s : string) : bool :=
  match s with
  | EmptyString => true
  | String c _ => negb (cls c)
  end.

Definition starts_with (p : ascii -> bool) (s : string) : bool :=
  match s with
  | EmptyString => false
  | String c _ => p c
  end.

Fixpoint ends_with (p : ascii -> bool) (s : string) : bool :=
  match s with
  | EmptyString => false
  | String c s' =>
      match s' with
      | EmptyString => p c
      | String _ _ => ends_with p s'
      end
  end.

Fixpoint has_char (p : ascii -> bool) (s : string) : bool :=
  match s with
  | EmptyString => false
  | String c s' => p c || has_char p s'
  end.

Definition nonspace (c : ascii) : bool := negb (isspace c).

Definition no_linebreak (s : string) : bool :=
  all_chars (fun c => negb (is_linebreak c)) s.

(** Whether white space ends [x], or [b] for the empty string. *)
Fixpoint ends_space (b : bool) (x : string) : bool :=
  match x with
  | EmptyString => b
  | String c x' => ends_space (isspace c) x'
  end.

(** The number written by the decimal digits of [s], the other characters
    (the thousands separators) passed over. *)
Fixpoint digits_value (acc : N) (s : string) : N :=
  match s with
  | EmptyString => acc
  | String c s' =>
      if is_decimal c then digits_value (10 * acc + (code c - 48))%N s'
      else digits_value acc s'
  end.

Definition nl : string := String (ascii_of_N 10) EmptyString.

(** ["\n".join(lines)] *)
Fixpoint join_lines (lines : list string) : string :=
  match lines with
  | [] => EmptyString
  | l :: rest =>
      match rest with
      | [] => l
      | _ :: _ => l ++ nl ++ join_lines rest
      end
  end.

(** A well-formed line: a name, a separator and a number, with white
    space before and after at will. *)
Record Entry : Type := {
  e_lead : string;
  e_name : string;
  e_sep : string;
  e_num : string;
  e_trail : string;
}.

Definition entry_core (e : Entry) : string := e_name e ++ e_sep e ++ e_num e.

Definition entry_text (e : Entry) : string :=
  e_lead e ++ entry_core e ++ e_trail e.

(** The name is made of letters, periods, hyphens and white space, and
    starts and ends with none of the latter; the separator is made of
    colons and white space; the number is made of decimal digits and
    commas, with a digit at least; no line boundary inside. *)
Definition well_formed (e : Entry) : bool :=
  all_chars re_name (e_name e) && starts_with nonspace (e_name e)
  && ends_with nonspace (e_name e) && no_linebreak (e_name e)
  && all_chars re_sep (e_sep e) && negb (is_empty (e_sep e))
  && no_linebreak (e_sep e)
  && all_chars re_num (e_num e) && has_char is_decimal (e_num e)
  && all_chars isspace (e_lead e) && no_linebreak (e_lead e)
  && all_chars isspace (e_trail e) && no_linebreak (e_trail e).

(** The name as the engine reads it: white-space runs made one space. *)
Definition entry_name (e : Entry) : string := sub_spaces false (e_name e).

Definition entry_count (e : Entry) : N := digits_value 0 (e_num e).

(** Some entry of the catalog is within distance 2 of the name. *)
Definition near_catalog (e : Entry) : bool :=
  existsb
    (fun c =>
       (Levenshtein.distance (lower (entry_name e)) (lower c) <=? 2)%nat)
    DEFAULT_CANDIDATES.

(** The lines of an input: well-formed ones, and others. *)
Inductive Line : Type :=
  | Counted (e : Entry)
  | Other (l : string).

Definition line_text (l : Line) : string :=
  match l with
  | Counted e => entry_text e
  | Other l => l
  end.

(** The inputs of the property: every line is a well-formed one whose
    name is near the catalog, or a line without the shape of the pattern. *)
Definition admissible (l : Line) : bool :=
  match l with
  | Counted e => well_formed e && near_catalog e
  | Other l =>
      no_linebreak l
      && match match_line (strip (sub_spaces false (strip l))) with
         | None => true
         | Some _ => false
         end
  end.

(** The number of a well-formed line has no more digits than [int]
    converts. *)
Definition fitting (l : Line) : bool :=
  match l with
  | Counted e => negb (too_long (remove_all "," (e_num e)))
  | Other _ => true
  end.

(** The distance between two names, letter case ignored. *)
Definition name_distance (raw_name c : string) : nat :=
  Levenshtein.distance (lower raw_name) (lower c).

(** The least number of a list. *)
Definition least (l : list nat) : nat := fold_right Nat.min (hd 0 l) l.

(** The first catalog entry, in catalog order, at the least distance from
    [raw_name]: the entry the specification resolves the name to. *)
Definition nearest (raw_name : string) : string :=
  let d := least (name_distance raw_name <$> DEFAULT_CANDIDATES) in
  default EmptyString
    (find (fun c => (name_distance raw_name c =? d)%nat) DEFAULT_CANDIDATES).

(** What a line adds to the mapping, as the specification has it: a
    well-formed line adds its count under the nearest catalog entry, another
    line adds nothing. *)
Definition record_line (matched : gmap string N) (l : Line) : gmap string N :=
  match l with
  | Counted e => <[nearest (entry_name e) := entry_count e]> matched
  | Other _ => matched
  end.

(** The pair a line adds to the mapping, if it adds one: the catalog name
    it resolves to and its count. *)
Definition accepted (line : string) : option (string * N) :=
  match match_line (strip (sub_spaces false line)) with
  | Some (g1, g2) =>
      let vote_str := strip (remove_all "," g2) in
      if isdigit vote_str && negb (too_long vote_str) then
        match closest DEFAULT_CANDIDATES (strip g1) with
        | Some (best, d) =>
            if (d <=? 2)%nat then Some (best, digits_value 0 g2) else None
        | None => None
        end
      else None
  | None => None
  end.

(** Whether the line makes [int] raise: the pattern matches it and its
    number, the commas removed, has more than [max_str_digits] digits. *)
Definition oversized (line : string) : bool :=
  match match_line (strip (sub_spaces false line)) with
  | Some (_, g2) =>
      let vote_str := strip (remove_all "," g2) in
      isdigit vote_str && too_long vote_str
  | None => false
  end.

Definition record (matched : gmap string N) (pair : option (string * N))
  : gmap string N :=
  match pair with
  | Some (name, count) => <[name := count]> matched
  | None => matched
  end.

(** The tokens a menu handler has a branch for, the last [else] apart. A
    state whose handlers take texts or photos only has no branch for any
    token. *)
Definition recognized (st : State) (data : string) : bool :=
  match st with
  | CHOOSE_INPUT_MODE =>
      (data =? "mode_image")%string || (data =? "mode_text")%string
      || (data =? "cancel")%string
  | EDIT_MENU =>
      (data =? "bulk_edit")%string || (data =? "edit_individual")%string
      || (data =? "add_candidate")%string
      || (data =? "remove_candidate")%string
      || (data =? "submit_votes")%string
      || (data =? "back_edit_menu")%string || (data =? "cancel")%string
  | EDIT_SINGLE_CANDIDATE =>
      startswith data "edit_" || (data =? "back_edit_menu")%string
      || (data =? "cancel")%string
  | REMOVE_CANDIDATE_NAME =>
      startswith data "remove_" || (data =? "back_edit_menu")%string
      || (data =? "cancel")%string
  | SELECT_REGION => startswith data "region_" || (data =? "cancel")%string
  | SELECT_DISTRICT =>
      startswith data "district_" || (data =? "back_to_regions")%string
      || (data =? "cancel")%string
  | CONFIRM_OVERRIDE =>
      (data =? "override_yes")%string || (data =? "override_no")%string
  | WAIT_FOR_IMAGE | WAIT_FOR_TEXT | BULK_EDIT_ALL | ADD_CANDIDATE_NAME =>
      false
  end.

(** An update of a shape that is not valid in state [st]: a menu token
    the handlers of the state have no branch for, or, in the state where the
    count of a candidate is awaited, a text that is not a string of
    digits. *)
Definition invalid_update (st : State) (u : Update) : bool :=
  match u with
  | CallbackQuery data => negb (recognized st data)
  | TextMessage text =>
      match st with
      | EDIT_SINGLE_CANDIDATE => negb (isdigit (strip text))
      | _ => false
      end
  | _ => false
  end.

(** The states whose handlers take menu tokens. *)
Definition has_menu (st : State) : bool :=
  match st with
  | WAIT_FOR_IMAGE | WAIT_FOR_TEXT | BULK_EDIT_ALL | ADD_CANDIDATE_NAME =>
      false
  | _ => true
  end.

(** [c * n] *)
Fixpoint repeat_char (c : ascii) (n : nat) : string :=
  match n with
  | O => EmptyString
  | S n' => String c (repeat_char c n')
  end.

(** The precondition of the submission. *)
Definition complete (s : Session) : bool :=
  truthy (region s) && truthy (district s)
  && negb (bool_decide (candidates s = ∅)).

(** The outcome the specification gives for a failure of an external
    call: the conversation has ended and the session is gone. *)
Definition aborted (user_id : Z) (r : Exc Return * World) : Prop :=
  r.1 = inr END /\ user_sessions r.2 !! user_id = None.

(** ** The rendering of a tally *)

Definition escape_chars : string := "_*[]()~`>#+-=|{}.!".

(** [c in s] for one character. *)
Fixpoint has_ascii (c : ascii) (s : string) : bool :=
  match s with
  | EmptyString => false
  | String x s' => Ascii.eqb c x || has_ascii c s'
  end.

(** [re.sub(f"([{re.escape(escape_chars)}])", r"\\\1", text)]: a backslash
    is put before every character of [escape_chars]. *)
Fixpoint escape_markdown_v2 (text : string) : string :=
  match text with
  | EmptyString => EmptyString
  | String c rest =>
      if has_ascii c escape_chars
      then String "\" (String c (escape_markdown_v2 rest))
      else String c (escape_markdown_v2 rest)
  end.

(** [str(n)], for the numbers of at most [max_str_digits] digits, beyond
    which [str] and [format] raise as [int] does: a count of the program is
    0 or was read by [int]. *)
Definition str (n : N) : string := NilEmpty.string_of_uint (N.to_uint n).

(** The grouping of [format(n, ",")]: a comma after a digit that a
    positive multiple of three digits follow. *)
Fixpoint group_thousands (digits : string) : string :=
  match digits with
  | EmptyString => EmptyString
  | String c rest =>
      let k := String.length rest in
      if (0 <? k)%nat && (k mod 3 =? 0)%nat
      then String c (String "," (group_thousands rest))
      else String c (group_thousands rest)
  end.

(** [f"{n:,}"] *)
Definition format_count (n : N) : string := group_thousands (str n).

Fixpoint insort (x : string) (l : list string) : list string :=
  match l with
  | [] => [x]
  | y :: l' => if String.leb x y then x :: l else y :: insort x l'
  end.

(** [sorted(l)] for strings: by code points. *)
Definition sorted (l : list string) : list string := foldr insort [] l.

Definition format_vote_results (votes : gmap string N) : string :=
  join_lines
    ((fun candidate =>
        escape_markdown_v2
          (candidate ++ ": " ++ format_count (default 0%N (votes !! candidate))))
       <$> sorted (map_to_list votes).*1).

(** ** The keyboards

    A label is text with pictograms; the pictograms of the source lie
    outside the code points of the text above and are kept as icons. *)

Inductive Icon : Type :=
  | CameraIcon | WritingIcon | CrossIcon | PencilIcon | PlusIcon | BinIcon
  | CheckIcon | BackIcon.

Inductive Piece : Type :=
  | Words (s : string)
  | Pic (i : Icon).

(** An [InlineKeyboardButton]. *)
Record Button : Type := {
  label : list Piece;
  callback_data : string;
}.

Definition build_keyboard (button_rows : list (list (list Piece * string)))
  : list (list Button) :=
  (fun row : list (list Piece * string) =>
     (fun b => {| label := fst b; callback_data := snd b |}) <$> row)
    <$> button_rows.

Definition cancel_button : list Piece * string :=
  ([Pic CrossIcon; Words " Cancel"], "cancel").

Definition build_input_mode_keyboard : list (list Button) :=
  build_keyboard
    [ [ ([Pic CameraIcon; Words " Upload Image"], "mode_image");
        ([Pic WritingIcon; Words " Paste Text"], "mode_text") ];
      [ cancel_button ] ].

Definition build_edit_menu_keyboard : list (list Button) :=
  build_keyboard
    [ [ ([Pic PencilIcon; Words " Bulk Edit All Votes"], "bulk_edit") ];
      [ ([Pic PencilIcon; Words " Edit Individual Vote"], "edit_individual") ];
      [ ([Pic PlusIcon; Words " Add Candidate"], "add_candidate") ];
      [ ([Pic BinIcon; Words " Remove Candidate"], "remove_candidate") ];
      [ ([Pic CheckIcon; Words " Submit Votes"], "submit_votes") ];
      [ cancel_button ] ].

Definition build_regions_keyboard : list (list Button) :=
  build_keyboard
    (((fun region => [ ([Words region], "region_" ++ region) ]) <$> REGIONS)
       ++ [ [ cancel_button ] ]).

Definition districts_map : list (string * list string) :=
  [ ("Northern",
     [ "Chitipa"; "Karonga"; "Likoma"; "Mzimba"; "Nkhata Bay"; "Rumphi" ]);
    ("Central",
     [ "Dedza"; "Dowa"; "Kasungu"; "Lilongwe"; "Mchinji"; "Nkhotakota";
       "Ntcheu"; "Ntchisi"; "Salima" ]);
    ("Southern",
     [ "Balaka"; "Blantyre"; "Chikwawa"; "Chiradzulu"; "Machinga";
       "Mangochi"; "Mulanje"; "Mwanza"; "Nsanje"; "Thyolo"; "Phalombe";
       "Zomba"; "Neno" ]) ].

(** [d.get(key, [])] on a dictionary written out as its items. *)
Fixpoint dict_get (d : list (string * list string)) (key : string)
  : list string :=
  match d with
  | [] => []
  | (k, v) :: d' => if (key =? k)%string then v else dict_get d' key
  end.

(** The row of one district: its name, with a check mark after it when
    the district is among the submitted ones. *)
Definition district_row (submitted_districts : list string) (dist : string)
  : list (list Piece * string) :=
  [ ( (if bool_decide (lower dist ∈ submitted_districts)
       then [Words dist; Words " "; Pic CheckIcon]
       else [Words dist]),
      "district_" ++ dist ) ].

Definition build_districts_keyboard (region : string)
    (submitted_districts : list string) : list (list Button) :=
  build_keyboard
    ((district_row submitted_districts <$> dict_get districts_map region)
       ++ [ [ ([Pic BackIcon; Words " Back to Regions"], "back_to_regions") ];
            [ cancel_button ] ]).

(** The keyboard built in [edit_menu_handler] for the choice of a
    candidate, [prefix] being ["edit_"] or ["remove_"]; the rows follow
    the keys of the tally. *)
Definition candidates_keyboard (prefix : string) (votes : gmap string N)
  : list (list Button) :=
  build_keyboard
    (((fun c => [ ([Words c], prefix ++ c) ]) <$> (map_to_list votes).*1)
       ++ [ [ ([Pic BackIcon; Words " Back to Edit Menu"], "back_edit_menu") ];
            [ cancel_button ] ]).

(** The keyboard of the override question, in [select_district_handler]. *)
Definition override_keyboard : list (list Button) :=
  [ [ {| label := [Pic CheckIcon; Words " Yes, override"];
         callback_data := "override_yes" |} ];
    [ {| label := [Pic BackIcon; Words " No, go back"];
         callback_data := "override_no" |} ] ].

(** The keyboard sent with a message, none when the message is sent
    without [reply_markup]. [districts_map.get(None, [])] is the empty
    list. *)
Definition reply_markup (m : Message) : list (list Button) :=
  match m with
  | Welcome => build_input_mode_keyboard
  | ParsedVotes _ | CurrentVotes _ | UpdatedVotes _ | UpdatedCandidate _ _
  | AddedCandidate _ | RemovedCandidate _ | CandidateNotFound
  | SelectValidCandidateMenu => build_edit_menu_keyboard
  | SelectToEdit votes => candidates_keyboard "edit_" votes
  | SelectToRemove votes => candidates_keyboard "remove_" votes
  | ChooseRegion | PleaseSelectRegion | SelectRegionAgain =>
      build_regions_keyboard
  | RegionSelected region submitted_districts =>
      build_districts_keyboard region submitted_districts
  | PleaseSelectDistrict region submitted_districts
  | ChooseAnotherDistrict region submitted_districts =>
      match region with
      | Some region => build_districts_keyboard region submitted_districts
      | None =>
          build_keyboard
            [ [ ([Pic BackIcon; Words " Back to Regions"], "back_to_regions") ];
              [ cancel_button ] ]
      end
  | OverrideQuestion _ => override_keyboard
  | _ => []
  end.

(** The state whose handlers have the branches for the keyboard of [m],
    when [m] is sent with a keyboard. *)
Definition keyboard_state (m : Message) : option State :=
  match m with
  | Welcome => Some CHOOSE_INPUT_MODE
  | ParsedVotes _ | CurrentVotes _ | UpdatedVotes _ | UpdatedCandidate _ _
  | AddedCandidate _ | RemovedCandidate _ | CandidateNotFound
  | SelectValidCandidateMenu => Some EDIT_MENU
  | SelectToEdit _ => Some EDIT_SINGLE_CANDIDATE
  | SelectToRemove _ => Some REMOVE_CANDIDATE_NAME
  | ChooseRegion | PleaseSelectRegion | SelectRegionAgain => Some SELECT_REGION
  | RegionSelected _ _ | PleaseSelectDistrict _ _ | ChooseAnotherDistrict _ _ =>
      Some SELECT_DISTRICT
  | OverrideQuestion _ => Some CONFIRM_OVERRIDE
  | _ => None
  end.

(** ** More definitions used to state the properties *)

(** Removes the backslash put before a character of [escape_chars]. *)
Fixpoint unescape (s : string) : string :=
  match s with
  | EmptyString => EmptyString
  | String c rest =>
      match rest with
      | EmptyString => String c EmptyString
      | String d rest' =>
          if Ascii.eqb c "\" && has_ascii d escape_chars
          then String d (unescape rest')
          else String c (unescape rest)
      end
  end.

(** [old in s] *)
Fixpoint contains (old s : string) : bool :=
  startswith s old
  || match s with
     | EmptyString => false
     | String _ s' => contains old s'
     end.

(** The tokens a keyboard offers. *)
Definition tokens (keyboard : list (list Button)) : list string :=
  callback_data <$> concat keyboard.

Definition is_check (p : Piece) : bool :=
  match p with
  | Pic CheckIcon => true
  | _ => false
  end.

(** Whether the button of the district carries the check mark. *)
Definition marked (keyboard : list (list Button)) (dist : string) : bool :=
  existsb
    (fun b =>
       (callback_data b =? "district_" ++ dist)%string
       && existsb is_check (label b))
    (concat keyboard).

(** A line of a bulk edit: a name, a colon and a count, or a line that the
    loop passes over. *)
Record BulkEntry : Type := {
  b_name : string;
  b_gap : string;
  b_val : string;
}.

Inductive BulkLine : Type :=
  | Pair (e : BulkEntry)
  | Skipped (l : string).

Definition bulk_text (l : BulkLine) : string :=
  match l with
  | Pair e => b_name e ++ ":" ++ b_gap e ++ b_val e
  | Skipped l => l
  end.

Definition is_colon (c : ascii) : bool := (code c =? 58)%N.

(** A pair has a name without colon that starts with no white space, white
    space at will after the colon and a count of decimal digits, not more
    than [int] converts; a line
    passed over has no colon, or no string of digits after its first colon,
    and starts and ends with no white space. No line boundary inside. *)
Definition bulk_ok (l : BulkLine) : bool :=
  match l with
  | Pair e =>
      starts_with nonspace (b_name e) && no_linebreak (b_name e)
      && negb (has_char is_colon (b_name e))
      && all_chars isspace (b_gap e) && no_linebreak (b_gap e)
      && all_chars is_decimal (b_val e) && negb (is_empty (b_val e))
      && negb (too_long (b_val e))
  | Skipped l =>
      starts_with nonspace l && ends_with nonspace l && no_linebreak l
      && match split_colon l with
         | None => true
         | Some (_, val) => negb (isdigit (strip val))
         end
  end.

Definition bulk_record (new_votes : gmap string N) (l : BulkLine)
  : gmap string N :=
  match l with
  | Pair e => <[strip (b_name e) := digits_value 0 (b_val e)]> new_votes
  | Skipped _ => new_votes
  end.

(** The sessions of the users other than [user_id] are the same in [w']
    as in [w]. *)
Definition same_elsewhere (user_id : Z) (w w' : World) : Prop :=
  forall other : Z, other ≠ user_id ->
    user_sessions w' !! other = user_sessions w !! other.

Definition valid_payload (p : Payload) : Prop :=
  p_region p ≠ EmptyString /\ p_district p ≠ EmptyString /\ p_votes p ≠ ∅.

Definition valid_effect (e : Effect) : Prop :=
  match e with
  | SheetRequest p => valid_payload p
  | _ => True
  end.

(** [w'] comes from [w] by sending more, every payload posted valid. *)
Definition posts_valid (w w' : World) : Prop :=
  exists new, sent w' = (sent w ++ new)%list /\ Forall valid_effect new.

(** The handler [m] relates the world it starts in to the one it leaves
    by [I], whether it returns or raises. *)
Definition keeps {A : Type} (I : World -> World -> Prop) (m : Handler A)
  : Prop :=
  forall w, I w (m w).2.

(** The payloads posted to the sheet, in the order of the requests. *)
Definition posted (effects : list Effect) : list Payload :=
  omap (fun e => match e with SheetRequest p => Some p | _ => None end)
       effects.

(** The counts of a tally can be printed: none has more digits than
    [str] and [format] print. *)
Definition printable (votes : gmap string N) : Prop :=
  forall c n, votes !! c = Some n -> too_long (str n) = false.

Definition printable_sessions (w : World) : Prop :=
  forall user_id s, user_sessions w !! user_id = Some s ->
    printable (candidates s).

(** If the counts of [w] can be printed, those of [w'] can. *)
Definition stays_printable (w w' : World) : Prop :=
  printable_sessions w -> printable_sessions w'.

(** * Properties *)

Ltac run :=
  cbv [mbind handler_bind mret handler_ret reply emit raise lift
       sessions_get session_of sessions_set session_update sessions_pop];
  cbn [user_sessions sent].

(** ** Facts about the text helpers *)

Ltac split_tokens H :=
  apply negb_true_iff in H;
  repeat (apply orb_false_iff in H; destruct H as [H ?]).

Ltac use_tokens :=
  repeat match goal with
         | E : _ = false |- _ => rewrite E
         end.

(** Closes [a = b] for closed terms by evaluating [a]. *)
Ltac by_vm :=
  lazymatch goal with
  | |- @eq ?T ?a ?b => exact (@eq_refl T b <: a = b)
  end.

Ltac by_cases_on_char c :=
  destruct c as [[] [] [] [] [] [] [] []]; vm_compute; intros;
  first [ congruence | left; reflexivity | right; reflexivity
        | right; split; reflexivity ].

Lemma decimal_is_num c : is_decimal c = true -> re_num c = true.
Proof. unfold re_num. intros ->. reflexivity. Qed.

Lemma num_not_space c : re_num c = true -> isspace c = false.
Proof. by_cases_on_char c. Qed.

Lemma num_not_sep c : re_num c = true -> re_sep c = false.
Proof. by_cases_on_char c. Qed.

Lemma num_not_name c : re_num c = true -> re_name c = false.
Proof. by_cases_on_char c. Qed.

Lemma space_is_name c : isspace c = true -> re_name c = true.
Proof. unfold re_name. intros ->. repeat rewrite orb_true_r. reflexivity. Qed.

Lemma space_is_sep c : isspace c = true -> re_sep c = true.
Proof. unfold re_sep. intros ->. apply orb_true_r. Qed.

Lemma sep_name_or_colon c :
  re_sep c = true -> isspace c = true \/ (code c = 58%N /\ re_name c = false).
Proof. by_cases_on_char c. Qed.

Lemma decimal_is_digit c : is_decimal c = true -> isdigit_char c = true.
Proof. unfold isdigit_char. intros ->. reflexivity. Qed.

Lemma num_decimal_or_comma c :
  re_num c = true -> is_decimal c = true \/ c = ","%char.
Proof. by_cases_on_char c. Qed.

Lemma sapp_nil_r (s : string) : s ++ "" = s.
Proof. induction s as [|c s IH]; simpl; [reflexivity | rewrite IH; reflexivity]. Qed.

Lemma sapp_assoc (a b c : string) : (a ++ b) ++ c = a ++ (b ++ c).
Proof. induction a as [|x a IH]; simpl; [reflexivity | rewrite IH; reflexivity]. Qed.

Lemma all_chars_app p (a b : string) :
  all_chars p (a ++ b) = all_chars p a && all_chars p b.
Proof.
  induction a as [|x a IH]; simpl; [reflexivity|].
  rewrite IH. apply andb_assoc.
Qed.

Lemma all_chars_impl (p q : ascii -> bool) (s : string) :
  (forall c, p c = true -> q c = true) ->
  all_chars p s = true -> all_chars q s = true.
Proof.
  intros Hpq. induction s as [|c s IH]; simpl; [reflexivity|].
  intros [Hc Hs]%andb_true_iff. rewrite (Hpq c Hc). simpl. auto.
Qed.

(** *** The distance is the textbook edit distance *)

Module LevenshteinFacts.
Import Levenshtein.

Lemma edits_nil_l t : edits "" t = String.length t.
Proof. destruct t; reflexivity. Qed.

Lemma edits_nil_r s : edits s "" = String.length s.
Proof. destruct s; reflexivity. Qed.

Lemma edits_cons a s b t :
  edits (String a s) (String b t) =
  Nat.min (S (edits s (String b t)))
    (Nat.min (S (edits (String a s) t)) (cost a b + edits s t)).
Proof. reflexivity. Qed.

Lemma base_row_spec t : base_row t = map (edits "") (suffixes t).
Proof.
  induction t as [|b t IH]; [reflexivity|].
  cbn [base_row suffixes map]. rewrite IH, edits_nil_l. reflexivity.
Qed.

Lemma step_row_spec a s t :
  step_row a t (map (edits s) (suffixes t)) =
  map (edits (String a s)) (suffixes t).
Proof.
  induction t as [|b t IH].
  - cbn. rewrite !edits_nil_r. reflexivity.
  - cbn [suffixes map]. cbn [step_row].
    destruct t as [|b' t']; cbn [suffixes map] in *.
    + cbn. rewrite !edits_nil_r. reflexivity.
    + rewrite IH. rewrite (edits_cons a s b). reflexivity.
Qed.

Lemma rows_spec s t : rows s t = map (edits s) (suffixes t).
Proof.
  induction s as [|a s IH]; cbn [rows].
  - apply base_row_spec.
  - rewrite IH. apply step_row_spec.
Qed.

Lemma distance_edits s t : distance s t = edits s t.
Proof. unfold distance. rewrite rows_spec. destruct t; reflexivity. Qed.

End LevenshteinFacts.

(** *** The loop over the catalog *)

Section Closest.
Variable raw_name : string.

Lemma closest_snoc catalog c :
  closest (catalog ++ [c]) raw_name =
  closer raw_name (closest catalog raw_name) c.
Proof. unfold closest. rewrite fold_left_app. reflexivity. Qed.

Lemma closest_first_nearest catalog :
  first_nearest raw_name catalog (closest catalog raw_name).
Proof.
  induction catalog as [|c catalog IH] using rev_ind; [reflexivity|].
  rewrite closest_snoc.
  destruct (closest catalog raw_name) as [[b d]|];
    cbn [first_nearest closer] in IH |- *.
  - destruct IH as (i & Hi & Hd & Hmin & Hfirst).
    destruct (Levenshtein.distance (lower raw_name) (lower c) <? d)%nat eqn:E;
      [apply Nat.ltb_lt in E | apply Nat.ltb_ge in E].
    + exists (length catalog). repeat split.
      * rewrite lookup_app_r by lia. rewrite Nat.sub_diag. reflexivity.
      * intros c' [Hc'|Hc']%elem_of_app.
        -- specialize (Hmin c' Hc'). lia.
        -- apply list_elem_of_singleton in Hc'. subst c'. lia.
      * intros j c' Hj Hc'. rewrite lookup_app_l in Hc' by lia.
        assert (c' ∈ catalog) as Hin
          by (eapply list_elem_of_lookup_2; eauto).
        specialize (Hmin c' Hin). lia.
    + exists i. repeat split.
      * apply lookup_app_l_Some. assumption.
      * assumption.
      * intros c' [Hc'|Hc']%elem_of_app.
        -- auto.
        -- apply list_elem_of_singleton in Hc'. subst c'. lia.
      * intros j c' Hj Hc'.
        assert (j < length catalog).
        { apply lookup_lt_Some in Hi. lia. }
        rewrite lookup_app_l in Hc' by assumption. eauto.
  - subst catalog. exists 0. repeat split.
    + intros c' Hc'. apply list_elem_of_singleton in Hc'. subst c'. lia.
    + intros j c' Hj. lia.
Qed.

(** An entry within distance 2 makes the loop end within distance 2. *)
Lemma closest_near catalog c :
  c ∈ catalog ->
  Levenshtein.distance (lower raw_name) (lower c) <= 2 ->
  exists b d, closest catalog raw_name = Some (b, d) /\ d <= 2.
Proof.
  intros Hc Hd. pose proof (closest_first_nearest catalog) as H.
  destruct (closest catalog raw_name) as [[b d]|]; cbn in H.
  - destruct H as (i & _ & _ & Hmin & _). exists b, d.
    split; [reflexivity|]. specialize (Hmin c Hc). lia.
  - subst catalog. apply elem_of_nil in Hc. contradiction.
Qed.
End Closest.

Lemma fold_min_le d l :
  fold_right Nat.min d l <= d /\ forall x, x ∈ l -> fold_right Nat.min d l <= x.
Proof.
  induction l as [|y l [IHd IHl]]; cbn [fold_right].
  - split; [lia|]. intros x Hx. apply elem_of_nil in Hx. contradiction.
  - split; [lia|]. intros x [->|Hx]%elem_of_cons; [lia|].
    specialize (IHl x Hx). lia.
Qed.

Lemma fold_min_in d l :
  fold_right Nat.min d l = d \/ fold_right Nat.min d l ∈ l.
Proof.
  induction l as [|y l IH]; cbn [fold_right]; [left; reflexivity|].
  destruct (Nat.min_spec y (fold_right Nat.min d l)) as [[_ ->]|[_ ->]].
  - right. left.
  - destruct IH as [->|IH]; [left; reflexivity | right; right; exact IH].
Qed.

Lemma least_le l x : x ∈ l -> least l <= x.
Proof. intros Hx. apply (fold_min_le (hd 0 l) l), Hx. Qed.

Lemma least_in l : l ≠ [] -> least l ∈ l.
Proof.
  intros Hl. unfold least. destruct (fold_min_in (hd 0 l) l) as [->|H];
    [|exact H].
  destruct l as [|x l]; [contradiction | left].
Qed.

Lemma find_first {A : Type} (P : A -> bool) (l : list A) (i : nat) (b : A) :
  l !! i = Some b -> P b = true ->
  (forall (j : nat) c, j < i -> l !! j = Some c -> P c = false) ->
  find P l = Some b.
Proof.
  revert i. induction l as [|x l IH]; intros i Hi Hb Hbefore;
    [discriminate|].
  cbn [find]. destruct i as [|i].
  - injection Hi as ->. rewrite Hb. reflexivity.
  - rewrite (Hbefore 0 x) by (lia || reflexivity).
    apply (IH i); [exact Hi | exact Hb|].
    intros j c Hj Hc. apply (Hbefore (S j) c); [lia | exact Hc].
Qed.

(** The entry the loop ends with is the one the specification names. *)
Lemma first_nearest_least raw_name catalog b d :
  first_nearest raw_name catalog (Some (b, d)) ->
  d = least (name_distance raw_name <$> catalog) /\
  find (fun c => (name_distance raw_name c =? d)%nat) catalog = Some b.
Proof.
  intros (i & Hi & Hd & Hmin & Hfirst).
  change (d = name_distance raw_name b) in Hd.
  change (forall c, c ∈ catalog -> d <= name_distance raw_name c) in Hmin.
  change (forall (j : nat) c, j < i -> catalog !! j = Some c ->
            d < name_distance raw_name c) in Hfirst.
  split.
  - apply Nat.le_antisymm.
    + assert (least (name_distance raw_name <$> catalog)
              ∈ name_distance raw_name <$> catalog) as Hin.
      { apply least_in. destruct catalog; [discriminate Hi | discriminate]. }
      apply list_elem_of_fmap in Hin as (c & -> & Hc). apply Hmin, Hc.
    + rewrite Hd. apply least_le, list_elem_of_fmap. exists b.
      split; [reflexivity|]. eapply list_elem_of_lookup_2, Hi.
  - apply (find_first _ _ i); [exact Hi | apply Nat.eqb_eq; auto|].
    intros j c Hj Hc. apply Nat.eqb_neq. specialize (Hfirst j c Hj Hc). lia.
Qed.

Lemma nearest_closest raw_name b d :
  closest DEFAULT_CANDIDATES raw_name = Some (b, d) -> nearest raw_name = b.
Proof.
  intros H. pose proof (closest_first_nearest raw_name DEFAULT_CANDIDATES) as Hf.
  rewrite H in Hf. apply first_nearest_least in Hf as [Hd Hfind].
  unfold nearest. cbv zeta. rewrite <- Hd, Hfind. reflexivity.
Qed.


(** *** Stripping and white-space runs *)

Lemma lstrip_id s : starts_with nonspace s = true -> lstrip s = s.
Proof.
  destruct s as [|c s]; [reflexivity|]. unfold nonspace. simpl.
  intros H. apply negb_true_iff in H. rewrite H. reflexivity.
Qed.

Lemma ends_with_nonempty p s : ends_with p s = true -> is_empty s = false.
Proof. destruct s; [discriminate | reflexivity]. Qed.

Lemma rstrip_id s : ends_with nonspace s = true -> rstrip s = s.
Proof.
  induction s as [|c s IH]; [reflexivity|].
  cbn [ends_with rstrip]. destruct s as [|c' s'].
  - unfold nonspace. intros H. apply negb_true_iff in H. simpl. rewrite H.
    reflexivity.
  - intros H. rewrite (IH H). simpl. rewrite andb_false_r. reflexivity.
Qed.

Lemma rstrip_spaces w : all_chars isspace w = true -> rstrip w = "".
Proof.
  induction w as [|c w IH]; [reflexivity|]. simpl.
  intros [Hc Hw]%andb_true_iff. rewrite (IH Hw), Hc. reflexivity.
Qed.

Lemma lstrip_app_spaces w a :
  all_chars isspace w = true -> lstrip (w ++ a) = lstrip a.
Proof.
  induction w as [|c w IH]; [reflexivity|]. cbn [all_chars String.append lstrip].
  intros [Hc Hw]%andb_true_iff. rewrite Hc. auto.
Qed.

Lemma rstrip_app_spaces a w :
  all_chars isspace w = true -> rstrip (a ++ w) = rstrip a.
Proof.
  intros Hw. induction a as [|c a IH]; simpl.
  - apply rstrip_spaces, Hw.
  - rewrite IH. reflexivity.
Qed.

Lemma starts_with_app p a b :
  starts_with p a = true -> starts_with p (a ++ b) = true.
Proof. destruct a; [discriminate | auto]. Qed.

Lemma ends_with_app p a b :
  is_empty b = false -> ends_with p (a ++ b) = ends_with p b.
Proof.
  intros Hb. induction a as [|c a IH]; [reflexivity|].
  cbn [String.append ends_with]. destruct (a ++ b) eqn:E.
  - destruct a; [|discriminate]. simpl in E. subst b. discriminate.
  - exact IH.
Qed.

Lemma ends_with_all p s :
  all_chars p s = true -> is_empty s = false -> ends_with p s = true.
Proof.
  induction s as [|c s IH]; [discriminate|].
  cbn [all_chars ends_with]. intros [Hc Hs]%andb_true_iff _.
  destruct s; [exact Hc | apply IH; [exact Hs | reflexivity]].
Qed.

(** A string that starts and ends with no white space is its own strip,
    also when white space is added after it. *)
Lemma strip_app_spaces a w :
  starts_with nonspace a = true -> ends_with nonspace a = true ->
  all_chars isspace w = true -> strip (a ++ w) = a.
Proof.
  intros Hs He Hw. unfold strip.
  rewrite lstrip_id by (apply starts_with_app, Hs).
  rewrite rstrip_app_spaces by exact Hw. apply rstrip_id, He.
Qed.

Lemma strip_id a :
  starts_with nonspace a = true -> ends_with nonspace a = true -> strip a = a.
Proof.
  intros Hs He. rewrite <- (sapp_nil_r a) at 1.
  apply strip_app_spaces; auto.
Qed.

Lemma strip_nonspace s : all_chars nonspace s = true -> strip s = s.
Proof.
  intros H. destruct s as [|c s]; [reflexivity|].
  apply strip_id.
  - simpl in H. apply andb_true_iff in H. apply H.
  - apply ends_with_all; [exact H | reflexivity].
Qed.

Lemma sub_spaces_app b x y :
  sub_spaces b (x ++ y) = sub_spaces b x ++ sub_spaces (ends_space b x) y.
Proof.
  revert b. induction x as [|c x IH]; intros b; [reflexivity|].
  cbn [String.append sub_spaces ends_space].
  destruct (isspace c); [destruct b|]; rewrite IH; reflexivity.
Qed.

Lemma sub_spaces_nonspace b s :
  all_chars nonspace s = true -> sub_spaces b s = s.
Proof.
  revert b. induction s as [|c s IH]; intros b; [reflexivity|].
  cbn [all_chars sub_spaces]. unfold nonspace at 1.
  intros [Hc Hs]%andb_true_iff. apply negb_true_iff in Hc. rewrite Hc.
  rewrite IH by exact Hs. reflexivity.
Qed.

Lemma ends_space_nonspace b x :
  ends_with nonspace x = true -> ends_space b x = false.
Proof.
  revert b. induction x as [|c x IH]; intros b; [discriminate|].
  cbn [ends_with ends_space]. destruct x as [|c' x'].
  - unfold nonspace. intros H. apply negb_true_iff in H. exact H.
  - intros H. apply IH, H.
Qed.

Lemma sub_spaces_all (p : ascii -> bool) b s :
  p " "%char = true ->
  all_chars p s = true -> all_chars p (sub_spaces b s) = true.
Proof.
  intros Hsp. revert b. induction s as [|c s IH]; intros b; [reflexivity|].
  cbn [all_chars sub_spaces]. intros [Hc Hs]%andb_true_iff.
  destruct (isspace c); [destruct b|]; cbn [all_chars];
    rewrite ?Hsp, ?Hc, IH by exact Hs; reflexivity.
Qed.

Lemma sub_spaces_starts s :
  starts_with nonspace s = true -> starts_with nonspace (sub_spaces false s) = true.
Proof.
  destruct s as [|c s]; [discriminate|]. unfold nonspace. simpl.
  intros H. pose proof H as H'. apply negb_true_iff in H'. rewrite H'.
  simpl. exact H.
Qed.

Lemma sub_spaces_ends b s :
  ends_with nonspace s = true -> ends_with nonspace (sub_spaces b s) = true.
Proof.
  revert b. induction s as [|c s IH]; intros b; [discriminate|].
  cbn [ends_with]. destruct s as [|c' s'].
  - unfold nonspace. intros H. pose proof H as H'.
    apply negb_true_iff in H'. simpl. rewrite H'. exact H.
  - intros H. cbn [sub_spaces].
    assert (forall x b', ends_with nonspace (String x (sub_spaces b' (String c' s'))) = true) as Hcons.
    { intros x b'. specialize (IH b' H).
      pose proof (ends_with_nonempty _ _ IH) as Hne.
      cbn [ends_with].
      destruct (sub_spaces b' (String c' s')); [discriminate | exact IH]. }
    destruct (isspace c); [destruct b|].
    + exact (IH true H).
    + exact (Hcons " "%char true).
    + exact (Hcons c false).
Qed.

Lemma sub_spaces_nonempty c s : is_empty (sub_spaces false (String c s)) = false.
Proof. simpl. destruct (isspace c); reflexivity. Qed.

(** *** The backtracking matcher *)

Lemma re_star_sound {R : Type} cls s acc k (r : R) :
  re_star cls s acc k = Some r ->
  exists run rest,
    s = run ++ rest /\ all_chars cls run = true /\ k (acc ++ run) rest = Some r.
Proof.
  revert acc. induction s as [|c s IH]; intros acc; cbn [re_star].
  - intros H. exists "", "". rewrite (sapp_nil_r acc). repeat split; first [assumption | reflexivity].
  - destruct (cls c) eqn:Hc.
    + destruct (re_star cls s (acc ++ String c "") k) as [r'|] eqn:E.
      * intros [= ->]. destruct (IH _ E) as (run & rest & -> & Hrun & Hk).
        exists (String c run), rest. rewrite sapp_assoc in Hk.
        cbn [all_chars]. rewrite Hc, Hrun. repeat split; first [assumption | reflexivity].
      * intros H. exists "", (String c s). rewrite (sapp_nil_r acc).
        repeat split; first [assumption | reflexivity].
    + intros H. exists "", (String c s). rewrite (sapp_nil_r acc).
      repeat split; first [assumption | reflexivity].
Qed.

Lemma re_plus_sound {R : Type} cls s k (r : R) :
  re_plus cls s k = Some r ->
  exists run rest,
    s = run ++ rest /\ all_chars cls run = true /\ is_empty run = false /\
    k run rest = Some r.
Proof.
  unfold re_plus. destruct s as [|c s]; [discriminate|].
  destruct (cls c) eqn:Hc; [|discriminate].
  intros (run & rest & -> & Hrun & Hk)%re_star_sound.
  exists (String c run), rest. cbn [all_chars]. rewrite Hc, Hrun.
  repeat split; first [assumption | reflexivity].
Qed.

(** What a match of the line pattern tells about its groups. *)
Lemma match_line_sound s g1 g2 :
  match_line s = Some (g1, g2) ->
  all_chars re_name g1 = true /\ is_empty g1 = false /\
  all_chars re_num g2 = true /\ is_empty g2 = false.
Proof.
  unfold match_line.
  intros (r1 & t1 & _ & Hr1 & Hn1 & H)%re_plus_sound.
  apply re_plus_sound in H as (r2 & t2 & _ & _ & _ & H).
  apply re_plus_sound in H as (r3 & t3 & _ & Hr3 & Hn3 & H).
  injection H as <- <-. repeat split; first [assumption | reflexivity].
Qed.

(** The repetition stops where the class stops. *)
Lemma re_star_stop {R : Type} cls rest acc (k : string -> string -> option R) :
  starts_outside cls rest = true -> re_star cls rest acc k = k acc rest.
Proof.
  destruct rest as [|c rest]; [reflexivity|]. cbn [starts_outside re_star].
  intros H. apply negb_true_iff in H. rewrite H. reflexivity.
Qed.

(** It takes the whole run when what follows accepts that. *)
Lemma re_star_max {R : Type} cls run rest acc k (r : R) :
  all_chars cls run = true -> starts_outside cls rest = true ->
  k (acc ++ run) rest = Some r ->
  re_star cls (run ++ rest) acc k = Some r.
Proof.
  revert acc. induction run as [|c run IH]; intros acc Hrun Hrest Hk.
  - rewrite sapp_nil_r in Hk. cbn [String.append].
    rewrite re_star_stop by exact Hrest. exact Hk.
  - cbn [all_chars] in Hrun. apply andb_true_iff in Hrun as [Hc Hrun].
    cbn [String.append re_star]. rewrite Hc.
    rewrite (IH (acc ++ String c "") Hrun Hrest); [reflexivity|].
    rewrite sapp_assoc. exact Hk.
Qed.

(** It gives the last character back when what follows refuses the whole
    run and accepts the run less its last character. *)
Lemma re_star_back {R : Type} cls run c rest acc k (r : R) :
  all_chars cls run = true -> cls c = true ->
  starts_outside cls rest = true ->
  k (acc ++ run ++ String c "") rest = None ->
  k (acc ++ run) (String c rest) = Some r ->
  re_star cls (run ++ String c rest) acc k = Some r.
Proof.
  revert acc. induction run as [|a run IH]; intros acc Hrun Hc Hrest Hno Hk.
  - cbn [String.append] in *. rewrite sapp_nil_r in Hk.
    cbn [re_star]. rewrite Hc. rewrite re_star_stop by exact Hrest.
    rewrite Hno. exact Hk.
  - cbn [all_chars] in Hrun. apply andb_true_iff in Hrun as [Ha Hrun].
    cbn [String.append re_star]. rewrite Ha.
    rewrite (IH (acc ++ String a "") Hrun Hc Hrest); [reflexivity| |].
    + rewrite sapp_assoc. exact Hno.
    + rewrite sapp_assoc. exact Hk.
Qed.

Lemma snoc_cases (s : string) :
  is_empty s = false -> exists w c, s = w ++ String c "".
Proof.
  induction s as [|a s IH]; [discriminate|]. intros _.
  destruct s as [|b s'].
  - exists "", a. reflexivity.
  - destruct (IH eq_refl) as (w & c & E). exists (String a w), c.
    rewrite E. reflexivity.
Qed.

(** A separator holds a colon after some white space, or white space only. *)
Lemma sep_cases sp :
  all_chars re_sep sp = true ->
  (exists w sp', sp = w ++ String ":" sp' /\ all_chars isspace w = true /\
                 all_chars re_sep sp' = true)
  \/ all_chars isspace sp = true.
Proof.
  induction sp as [|c sp IH]; [right; reflexivity|].
  cbn [all_chars]. intros [Hc Hsp]%andb_true_iff.
  destruct (sep_name_or_colon c Hc) as [Hs|[Hcode _]].
  - destruct (IH Hsp) as [(w & sp' & -> & Hw & Hsp')|Hall].
    + left. exists (String c w), sp'. cbn [all_chars]. rewrite Hs, Hw.
      repeat split; first [assumption | reflexivity].
    + right. cbn [all_chars]. rewrite Hs, Hall. reflexivity.
  - left. exists "", sp. assert (c = ":"%char) as ->.
    { rewrite <- (ascii_N_embedding c). unfold code in Hcode.
      rewrite Hcode. reflexivity. }
    repeat split; first [assumption | reflexivity].
Qed.

(** A repetition takes a whole run that what follows accepts. *)
Lemma re_plus_max {R : Type} cls run rest k (r : R) :
  all_chars cls run = true -> is_empty run = false ->
  starts_outside cls rest = true ->
  k run rest = Some r -> re_plus cls (run ++ rest) k = Some r.
Proof.
  destruct run as [|c run]; [discriminate|]. cbn [all_chars].
  intros [Hc Hrun]%andb_true_iff _ Hrest Hk.
  cbn [String.append re_plus]. rewrite Hc. apply re_star_max; assumption.
Qed.

Lemma re_plus_outside {R : Type} cls s (k : string -> string -> option R) :
  starts_outside cls s = true -> re_plus cls s k = None.
Proof.
  destruct s as [|c s]; [reflexivity|]. cbn [starts_outside re_plus].
  intros H. apply negb_true_iff in H. rewrite H. reflexivity.
Qed.

Lemma starts_outside_num g rest (cls : ascii -> bool) :
  (forall c, re_num c = true -> cls c = false) ->
  all_chars re_num g = true -> is_empty g = false ->
  starts_outside cls (g ++ rest) = true.
Proof.
  intros Hcls. destruct g as [|d g]; [discriminate|].
  cbn [all_chars String.append starts_outside].
  intros [Hd _]%andb_true_iff _. rewrite (Hcls d Hd). reflexivity.
Qed.

(** The groups of a line made of a name, a separator and a number: the
    name group is the name, with white space of the separator after it at
    most; the number group is the number. *)
Lemma match_line_entry a sp g2 rest :
  all_chars re_name a = true -> is_empty a = false ->
  all_chars re_sep sp = true -> is_empty sp = false ->
  all_chars re_num g2 = true -> is_empty g2 = false ->
  starts_outside re_num rest = true ->
  exists w, all_chars isspace w = true /\
    match_line (a ++ sp ++ g2 ++ rest) = Some (a ++ w, g2).
Proof.
  intros Ha Hane Hsp Hspne Hg Hgne Hrest.
  assert (forall g1 : string, re_plus re_num (g2 ++ rest)
            (fun g _ : string => Some (g1, g)) = Some (g1, g2)) as Hnum.
  { intros g1. apply re_plus_max; auto. }
  assert (starts_outside re_sep (g2 ++ rest) = true) as Hout_sep
    by (apply starts_outside_num; auto using num_not_sep).
  assert (starts_outside re_name (g2 ++ rest) = true) as Hout_name
    by (apply starts_outside_num; auto using num_not_name).
  destruct (sep_cases sp Hsp) as [(w & sp' & -> & Hw & Hsp')|Hall].
  - exists w. split; [exact Hw|].
    replace (a ++ (w ++ String ":" sp') ++ g2 ++ rest)
      with ((a ++ w) ++ (String ":" sp' ++ (g2 ++ rest)))
      by (rewrite !sapp_assoc; reflexivity).
    unfold match_line. apply re_plus_max.
    + rewrite all_chars_app, Ha.
      apply (all_chars_impl _ _ _ space_is_name Hw).
    + destruct a; [discriminate | reflexivity].
    + reflexivity.
    + apply re_plus_max.
      * cbn [all_chars]. rewrite Hsp'. reflexivity.
      * reflexivity.
      * exact Hout_sep.
      * apply Hnum.
  - destruct (snoc_cases sp Hspne) as (w & x & ->).
    rewrite all_chars_app in Hall. apply andb_true_iff in Hall as [Hw Hx].
    cbn [all_chars] in Hx. rewrite andb_true_r in Hx.
    exists w. split; [exact Hw|].
    destruct a as [|c a]; [discriminate|].
    cbn [all_chars] in Ha. apply andb_true_iff in Ha as [Hc Ha].
    replace (String c a ++ (w ++ String x "") ++ g2 ++ rest)
      with (String c ((a ++ w) ++ String x (g2 ++ rest)))
      by (cbn [String.append]; rewrite !sapp_assoc; reflexivity).
    unfold match_line. cbn [re_plus]. rewrite Hc.
    apply re_star_back.
    + rewrite all_chars_app, Ha.
      apply (all_chars_impl _ _ _ space_is_name Hw).
    + apply space_is_name, Hx.
    + exact Hout_name.
    + apply re_plus_outside, Hout_sep.
    + change (String x (g2 ++ rest)) with (String x "" ++ (g2 ++ rest)).
      apply re_plus_max.
      * cbn [all_chars]. rewrite (space_is_sep x Hx). reflexivity.
      * reflexivity.
      * exact Hout_sep.
      * apply Hnum.
Qed.

(** *** Numbers *)

Lemma remove_commas_cons c s :
  remove_all "," (String c s) =
  if Ascii.eqb "," c then remove_all "," s else String c (remove_all "," s).
Proof.
  unfold remove_all. cbn [remove_from startswith].
  destruct s; cbn [startswith]; rewrite andb_true_r; reflexivity.
Qed.

Lemma comma_not_decimal : is_decimal ","%char = false.
Proof. reflexivity. Qed.

Lemma decimal_not_comma c : is_decimal c = true -> Ascii.eqb "," c = false.
Proof.
  intros H. destruct (Ascii.eqb_spec "," c) as [<-|]; [|reflexivity].
  discriminate.
Qed.

Lemma remove_commas_decimal s :
  all_chars re_num s = true ->
  all_chars is_decimal (remove_all "," s) = true.
Proof.
  induction s as [|c s IH]; [reflexivity|]. cbn [all_chars].
  intros [Hc Hs]%andb_true_iff. rewrite remove_commas_cons.
  destruct (num_decimal_or_comma c Hc) as [Hd| ->].
  - rewrite (decimal_not_comma c Hd). cbn [all_chars]. rewrite Hd. auto.
  - cbn. auto.
Qed.

Lemma remove_commas_nonempty s :
  has_char is_decimal s = true -> is_empty (remove_all "," s) = false.
Proof.
  induction s as [|c s IH]; [discriminate|]. cbn [has_char].
  rewrite remove_commas_cons. destruct (is_decimal c) eqn:Hd.
  - rewrite (decimal_not_comma c Hd). reflexivity.
  - cbn [orb]. intros H. destruct (Ascii.eqb "," c); [auto | reflexivity].
Qed.

Lemma int_acc_commas acc s :
  all_chars re_num s = true ->
  int_acc acc (remove_all "," s) = inr (digits_value acc s).
Proof.
  revert acc. induction s as [|c s IH]; intros acc; [reflexivity|].
  cbn [all_chars]. intros [Hc Hs]%andb_true_iff.
  rewrite remove_commas_cons. cbn [digits_value].
  destruct (num_decimal_or_comma c Hc) as [Hd| ->].
  - rewrite (decimal_not_comma c Hd). cbn [int_acc]. rewrite Hd. auto.
  - cbn [Ascii.eqb Bool.eqb]. rewrite comma_not_decimal. auto.
Qed.

Lemma decimal_nonspace c : is_decimal c = true -> nonspace c = true.
Proof.
  intros H. unfold nonspace.
  rewrite (num_not_space c (decimal_is_num c H)). reflexivity.
Qed.

(** The count string of a number group: the digits, read in base ten
    when they are not too many. *)
Lemma vote_str_int g2 :
  all_chars re_num g2 = true ->
  let vote_str := strip (remove_all "," g2) in
  vote_str = remove_all "," g2 /\
  (isdigit vote_str = true ->
   int vote_str = if too_long vote_str then inl ValueError
                  else inr (digits_value 0 g2)) /\
  (has_char is_decimal g2 = true -> isdigit vote_str = true).
Proof.
  intros Hg vote_str.
  assert (vote_str = remove_all "," g2) as E.
  { apply strip_nonspace.
    apply (all_chars_impl _ _ _ decimal_nonspace), remove_commas_decimal, Hg. }
  split; [exact E|]. rewrite E. split.
  - unfold isdigit, int. intros [Hne _]%andb_true_iff.
    apply negb_true_iff in Hne. rewrite Hne. cbn [orb].
    destruct (too_long (remove_all "," g2)); [reflexivity|].
    apply int_acc_commas, Hg.
  - intros Hd. unfold isdigit. rewrite (remove_commas_nonempty _ Hd).
    apply (all_chars_impl _ _ _ decimal_is_digit), remove_commas_decimal, Hg.
Qed.

(** *** What a line does to the extraction *)

(** A line makes the extraction fail when its number is too long for
    [int], and else adds its pair, if it has one, to the mapping. *)
Lemma match_votes_outcome matched line :
  match_votes matched line
  = if oversized line then inl ValueError
    else inr (record matched (accepted line)).
Proof.
  unfold match_votes, accepted, oversized.
  destruct (match_line (strip (sub_spaces false line))) as [[g1 g2]|] eqn:E;
    [|reflexivity].
  apply match_line_sound in E as (_ & _ & Hg & _).
  destruct (vote_str_int g2 Hg) as (_ & Hint & _).
  cbv zeta.
  destruct (isdigit (strip (remove_all "," g2))) eqn:Hd; [|reflexivity].
  rewrite (Hint eq_refl). cbn [andb].
  destruct (too_long (strip (remove_all "," g2))); [reflexivity|].
  cbn [negb].
  destruct (closest DEFAULT_CANDIDATES (strip g1)) as [[best d]|]; [|reflexivity].
  destruct (d <=? 2)%nat; reflexivity.
Qed.

Lemma for_each_match_votes matched lines :
  for_each match_votes matched lines
  = if existsb oversized lines then inl ValueError
    else inr (fold_left (fun m l => record m (accepted l)) lines matched).
Proof.
  revert matched. induction lines as [|l lines IH]; intros matched;
    [reflexivity|].
  cbn [for_each fold_left existsb]. rewrite match_votes_outcome.
  destruct (oversized l); [reflexivity | apply IH].
Qed.

Lemma extract_votes_outcome text :
  extract_votes text
  = if existsb oversized (lines_of text) then inl ValueError
    else inr (fold_left (fun m l => record m (accepted l)) (lines_of text) ∅).
Proof. apply for_each_match_votes. Qed.

Lemma extract_votes_accepted text :
  existsb oversized (lines_of text) = false ->
  extract_votes text =
  inr (fold_left (fun m l => record m (accepted l)) (lines_of text) ∅).
Proof. intros H. rewrite extract_votes_outcome, H. reflexivity. Qed.

(** *** Lines *)

Lemma splitlines_line l rest :
  no_linebreak l = true -> splitlines (l ++ nl ++ rest) = l :: splitlines rest.
Proof.
  unfold no_linebreak. induction l as [|c l IH].
  - intros _. cbn. destruct rest; reflexivity.
  - cbn [all_chars]. intros [Hc Hl]%andb_true_iff.
    apply negb_true_iff in Hc.
    cbn [String.append splitlines]. rewrite Hc, (IH Hl). reflexivity.
Qed.

Lemma splitlines_single l :
  no_linebreak l = true -> is_empty l = false -> splitlines l = [l].
Proof.
  unfold no_linebreak. induction l as [|c l IH]; [discriminate|].
  cbn [all_chars]. intros [Hc Hl]%andb_true_iff _.
  apply negb_true_iff in Hc. cbn [splitlines]. rewrite Hc.
  destruct l as [|c' l']; [reflexivity|].
  rewrite (IH Hl eq_refl). reflexivity.
Qed.

Lemma lines_of_join lines :
  Forall (fun l => no_linebreak l = true) lines ->
  lines_of (join_lines lines) =
  filter (fun l => is_empty l = false) (strip <$> lines).
Proof.
  unfold lines_of. induction 1 as [|l lines Hl Hlines IH]; [reflexivity|].
  destruct lines as [|l2 lines].
  - cbn [join_lines]. destruct l as [|c l]; [reflexivity|].
    rewrite splitlines_single by auto. reflexivity.
  - change (join_lines (l :: l2 :: lines))
      with (l ++ nl ++ join_lines (l2 :: lines)).
    rewrite splitlines_line by exact Hl.
    rewrite (fmap_cons strip l (splitlines _)), filter_cons, IH.
    rewrite (fmap_cons strip l (l2 :: lines)), filter_cons. reflexivity.
Qed.

Lemma num_not_linebreak c : re_num c = true -> negb (is_linebreak c) = true.
Proof. by_cases_on_char c. Qed.

Lemma has_char_nonempty p s : has_char p s = true -> is_empty s = false.
Proof. destruct s; [discriminate | reflexivity]. Qed.

Lemma starts_with_nonempty p s : starts_with p s = true -> is_empty s = false.
Proof. destruct s; [discriminate | reflexivity]. Qed.

Lemma app_nonempty_r a b : is_empty b = false -> is_empty (a ++ b) = false.
Proof. destruct a; [auto | reflexivity]. Qed.

Lemma num_nonspace c : re_num c = true -> nonspace c = true.
Proof. intros H. unfold nonspace. rewrite (num_not_space c H). reflexivity. Qed.

(** *** A well-formed line is accepted *)

Section WellFormed.
Variable e : Entry.
Hypothesis Hwf : well_formed e = true.

Lemma well_formed_parts :
  (all_chars re_name (e_name e) = true /\ starts_with nonspace (e_name e) = true
   /\ ends_with nonspace (e_name e) = true /\ no_linebreak (e_name e) = true)
  /\ (all_chars re_sep (e_sep e) = true /\ is_empty (e_sep e) = false
      /\ no_linebreak (e_sep e) = true)
  /\ (all_chars re_num (e_num e) = true /\ has_char is_decimal (e_num e) = true)
  /\ (all_chars isspace (e_lead e) = true /\ no_linebreak (e_lead e) = true
      /\ all_chars isspace (e_trail e) = true /\ no_linebreak (e_trail e) = true).
Proof.
  unfold well_formed in Hwf. repeat (apply andb_true_iff in Hwf as [Hwf ?]).
  rewrite negb_true_iff in *. repeat split; assumption.
Qed.

Lemma entry_core_starts : starts_with nonspace (entry_core e) = true.
Proof.
  destruct well_formed_parts as ((_ & Hs & _ & _) & _).
  unfold entry_core. apply starts_with_app, Hs.
Qed.

Lemma entry_core_ends : ends_with nonspace (entry_core e) = true.
Proof.
  destruct well_formed_parts as (_ & _ & (Hnum & Hdec) & _).
  pose proof (has_char_nonempty _ _ Hdec) as Hne.
  unfold entry_core. rewrite !ends_with_app by auto using app_nonempty_r.
  apply ends_with_all; [|exact Hne].
  apply (all_chars_impl _ _ _ num_nonspace Hnum).
Qed.

(** Stripping the line leaves the name, the separator and the number. *)
Lemma entry_text_strip : strip (entry_text e) = entry_core e.
Proof.
  destruct well_formed_parts as (_ & _ & _ & Hlead & _ & Htrail & _).
  unfold entry_text, strip. rewrite lstrip_app_spaces by exact Hlead.
  apply strip_app_spaces;
    [apply entry_core_starts | apply entry_core_ends | exact Htrail].
Qed.

Lemma entry_core_nonempty : is_empty (entry_core e) = false.
Proof. exact (ends_with_nonempty _ _ entry_core_ends). Qed.

Lemma entry_text_no_linebreak : no_linebreak (entry_text e) = true.
Proof.
  destruct well_formed_parts
    as ((_ & _ & _ & Hn) & (_ & _ & Hs) & (Hnum & _) & _ & Hl & _ & Ht).
  unfold entry_text, entry_core, no_linebreak in *.
  rewrite !all_chars_app, Hl, Hn, Hs, Ht.
  rewrite (all_chars_impl _ _ _ num_not_linebreak Hnum). reflexivity.
Qed.

(** The line with its white-space runs replaced, and stripped. *)
Lemma entry_core_clean :
  strip (sub_spaces false (entry_core e)) =
  entry_name e ++ sub_spaces false (e_sep e) ++ e_num e.
Proof.
  destruct well_formed_parts as ((_ & Hs & He & _) & _ & (Hnum & Hdec) & _).
  unfold entry_core, entry_name.
  rewrite sub_spaces_app, (ends_space_nonspace _ _ He).
  rewrite sub_spaces_app.
  rewrite (sub_spaces_nonspace _ (e_num e))
    by apply (all_chars_impl _ _ _ num_nonspace Hnum).
  pose proof (has_char_nonempty _ _ Hdec) as Hne.
  apply strip_id.
  - apply starts_with_app, sub_spaces_starts, Hs.
  - rewrite !ends_with_app by auto using app_nonempty_r.
    apply ends_with_all; [|exact Hne].
    apply (all_chars_impl _ _ _ num_nonspace Hnum).
Qed.

Lemma entry_groups :
  exists w, all_chars isspace w = true /\
    match_line (strip (sub_spaces false (entry_core e))) =
      Some (entry_name e ++ w, e_num e).
Proof.
  destruct well_formed_parts
    as ((Hn & Hs & He & _) & (Hsep & Hsepne & _) & (Hnum & Hdec) & _).
  rewrite entry_core_clean.
  destruct (match_line_entry (entry_name e) (sub_spaces false (e_sep e))
              (e_num e) "") as (w & Hw & Hm).
  - apply sub_spaces_all; [reflexivity | exact Hn].
  - apply (starts_with_nonempty nonspace), sub_spaces_starts, Hs.
  - apply sub_spaces_all; [reflexivity | exact Hsep].
  - destruct (e_sep e); [discriminate | apply sub_spaces_nonempty].
  - exact Hnum.
  - exact (has_char_nonempty _ _ Hdec).
  - reflexivity.
  - rewrite sapp_nil_r in Hm. exists w. split; assumption.
Qed.

Lemma entry_not_oversized :
  too_long (remove_all "," (e_num e)) = false ->
  oversized (entry_core e) = false.
Proof.
  intros Hfit. destruct well_formed_parts as (_ & _ & (Hnum & _) & _).
  destruct entry_groups as (w & _ & Hmatch).
  unfold oversized. rewrite Hmatch.
  destruct (vote_str_int _ Hnum) as (-> & _ & _).
  rewrite Hfit. apply andb_false_r.
Qed.

Lemma accepted_entry :
  near_catalog e = true ->
  too_long (remove_all "," (e_num e)) = false ->
  accepted (entry_core e) = Some (nearest (entry_name e), entry_count e).
Proof.
  intros (c & Hc & Hdist)%existsb_exists Hfit.
  apply list_elem_of_In in Hc. apply Nat.leb_le in Hdist.
  destruct (closest_near _ _ _ Hc Hdist) as (best & d & Hbest & Hd).
  rewrite (nearest_closest _ _ _ Hbest).
  destruct well_formed_parts as ((_ & Hs & He & _) & _ & (Hnum & Hdec) & _).
  destruct entry_groups as (w & Hw & Hmatch).
  unfold accepted. rewrite Hmatch.
  destruct (vote_str_int _ Hnum) as (Estr & _ & Hdigit).
  cbv zeta. rewrite (Hdigit Hdec), Estr, Hfit. cbn [andb negb].
  rewrite strip_app_spaces;
    [| apply sub_spaces_starts, Hs | apply sub_spaces_ends, He | exact Hw].
  fold (entry_name e). rewrite Hbest.
  apply Nat.leb_le in Hd. rewrite Hd. reflexivity.
Qed.

End WellFormed.

(** *** The extraction engine on whole inputs *)

Lemma admissible_no_linebreak l :
  admissible l = true -> no_linebreak (line_text l) = true.
Proof.
  destruct l as [e|l]; cbn [admissible line_text].
  - intros [Hwf _]%andb_true_iff. apply entry_text_no_linebreak, Hwf.
  - intros [H _]%andb_true_iff. exact H.
Qed.

Lemma fold_admissible lines matched :
  forallb admissible lines = true ->
  forallb fitting lines = true ->
  fold_left (fun m l => record m (accepted l))
    (filter (fun l => is_empty l = false) (strip <$> (line_text <$> lines)))
    matched
  = fold_left record_line lines matched.
Proof.
  revert matched. induction lines as [|l lines IH]; intros matched;
    [reflexivity|].
  cbn [forallb]. intros [Hl Hlines]%andb_true_iff [Hf Hfit]%andb_true_iff.
  rewrite !fmap_cons, filter_cons. cbn [fold_left].
  rewrite <- (IH _ Hlines Hfit).
  destruct l as [e|l]; cbn [admissible fitting line_text record_line] in *.
  - apply andb_true_iff in Hl as [Hwf Hnear]. apply negb_true_iff in Hf.
    rewrite (entry_text_strip e Hwf).
    rewrite decide_True by apply (entry_core_nonempty e Hwf).
    cbn [fold_left]. rewrite (accepted_entry e Hwf Hnear Hf). reflexivity.
  - apply andb_true_iff in Hl as [_ Hno].
    destruct (decide (is_empty (strip l) = false)); [|reflexivity].
    cbn [fold_left]. unfold accepted.
    destruct (match_line (strip (sub_spaces false (strip l))));
      [discriminate | reflexivity].
Qed.

Lemma admissible_not_oversized lines :
  forallb admissible lines = true ->
  forallb fitting lines = true ->
  existsb oversized
    (filter (fun l => is_empty l = false) (strip <$> (line_text <$> lines)))
  = false.
Proof.
  induction lines as [|l lines IH]; [reflexivity|].
  cbn [forallb]. intros [Hl Hlines]%andb_true_iff [Hf Hfit]%andb_true_iff.
  rewrite !fmap_cons, filter_cons.
  assert (oversized (strip (line_text l)) = false) as Hover.
  { destruct l as [e|l]; cbn [admissible fitting line_text] in *.
    - apply andb_true_iff in Hl as [Hwf _]. apply negb_true_iff in Hf.
      rewrite (entry_text_strip e Hwf). apply (entry_not_oversized e Hwf Hf).
    - apply andb_true_iff in Hl as [_ Hno]. unfold oversized.
      destruct (match_line (strip (sub_spaces false (strip l))));
        [discriminate | reflexivity]. }
  destruct (decide (is_empty (strip (line_text l)) = false));
    [|apply IH; assumption].
  cbn [existsb]. rewrite Hover. apply IH; assumption.
Qed.

(** On lines that are well formed and near the catalog, or without the
    shape of the pattern, and whose numbers [int] converts, the extraction
    returns what the lines record. *)
Lemma extract_votes_admissible (lines : list Line) :
  forallb admissible lines = true ->
  forallb fitting lines = true ->
  extract_votes (join_lines (line_text <$> lines))
    = inr (fold_left record_line lines ∅).
Proof.
  intros Hlines Hfit.
  assert (lines_of (join_lines (line_text <$> lines))
          = filter (fun l => is_empty l = false)
                   (strip <$> (line_text <$> lines))) as Hl.
  { apply lines_of_join, Forall_fmap, Forall_forall. intros l Hl.
    apply admissible_no_linebreak.
    rewrite forallb_forall in Hlines. apply Hlines, list_elem_of_In, Hl. }
  rewrite extract_votes_accepted; rewrite Hl.
  - apply f_equal, fold_admissible; assumption.
  - apply admissible_not_oversized; assumption.
Qed.

Lemma record_lookup_other matched pair (name : string) :
  fst <$> pair ≠ Some name -> record matched pair !! name = matched !! name.
Proof.
  destruct pair as [[n v]|]; cbn; [|reflexivity].
  intros H. apply lookup_insert_ne. congruence.
Qed.

Lemma fold_record_lookup_other lines matched (name : string) :
  (forall l, l ∈ lines -> fst <$> accepted l ≠ Some name) ->
  fold_left (fun m l => record m (accepted l)) lines matched !! name
  = matched !! name.
Proof.
  revert matched. induction lines as [|l lines IH]; intros matched H;
    [reflexivity|].
  cbn [fold_left]. rewrite IH.
  - apply record_lookup_other, H. left.
  - intros l' Hl'. apply H. right. exact Hl'.
Qed.

(** X20: for every line that the pattern matches, the engine computes the
    edit distance (the textbook one, [edits]), letter case ignored, from the
    name to every catalog entry and takes the first entry, in catalog
    order, at the least distance. When the number is a string of digits
    too long for [int], the line raises [ValueError]; else the count is
    recorded under that entry only if the least distance is at most 2 (and
    the number holds a digit), and the mapping is left as it was if not. *)
Theorem match_votes_first_nearest (matched : gmap string N)
    (line g1 g2 : string) :
  match_line (strip (sub_spaces false line)) = Some (g1, g2) ->
  exists best d,
    closest DEFAULT_CANDIDATES (strip g1) = Some (best, d) /\
    first_nearest (strip g1) DEFAULT_CANDIDATES (Some (best, d)) /\
    d = Levenshtein.edits (lower (strip g1)) (lower best) /\
    match_votes matched line =
      let vote_str := strip (remove_all "," g2) in
      if isdigit vote_str && too_long vote_str then inl ValueError
      else inr (if isdigit vote_str && (d <=? 2)%nat
                then <[best := digits_value 0 g2]> matched
                else matched).
Proof.
  intros Hmatch.
  pose proof (closest_first_nearest (strip g1) DEFAULT_CANDIDATES) as Hfirst.
  destruct (closest DEFAULT_CANDIDATES (strip g1)) as [[best d]|] eqn:Hbest;
    [|discriminate Hfirst].
  exists best, d. split; [reflexivity|]. split; [exact Hfirst|].
  split.
  { destruct Hfirst as (_ & _ & -> & _).
    apply LevenshteinFacts.distance_edits. }
  rewrite match_votes_outcome. unfold accepted, oversized.
  rewrite Hmatch, Hbest. cbv zeta.
  destruct (isdigit (strip (remove_all "," g2))); [|reflexivity].
  destruct (too_long (strip (remove_all "," g2))); [reflexivity|].
  destruct (d <=? 2)%nat; reflexivity.
Qed.

Lemma match_votes_first_nearest_witness :
  match_line (strip (sub_spaces false "Chakweraa: 500"))
    = Some ("Chakweraa", "500") /\
  exists best d,
    closest DEFAULT_CANDIDATES (strip "Chakweraa") = Some (best, d) /\
    first_nearest (strip "Chakweraa") DEFAULT_CANDIDATES (Some (best, d)) /\
    d = Levenshtein.edits (lower (strip "Chakweraa")) (lower best) /\
    match_votes ∅ "Chakweraa: 500" =
      let vote_str := strip (remove_all "," "500") in
      if isdigit vote_str && too_long vote_str then inl ValueError
      else inr (if isdigit vote_str && (d <=? 2)%nat
                then <[best := digits_value 0 "500"]> ∅
                else ∅).
Proof.
  split; [reflexivity|].
  apply (match_votes_first_nearest ∅ "Chakweraa: 500" "Chakweraa" "500").
  reflexivity.
Defined.

(** Scenario B: a typo of one character still resolves to the entry. *)
Example scenario_B :
  extract_votes "Chakweraa: 500" = inr (<["Chakwera" := 500%N]> ∅).
Proof. by_vm. Qed.

(** Scenario C: no entry within distance 2, the line adds nothing. *)
Example scenario_C : extract_votes "Xyzzyplorp: 500" = inr ∅.
Proof. by_vm. Qed.

(** C2: a line whose name parses and lies farther than 2 from every
    catalog entry, with a number of 4301 digits: the line is not passed
    over, [int] raises [ValueError] before the names are compared. With a
    number of three digits the same name is passed over (scenario C). *)
Theorem far_name_long_number_raises :
  let line := "Xyzzyplorp: " ++ repeat_char "1" 4301 in
  match_line (strip (sub_spaces false line))
    = Some ("Xyzzyplorp", repeat_char "1" 4301)
  /\ (exists best d,
        closest DEFAULT_CANDIDATES "Xyzzyplorp" = Some (best, d)
        /\ 2 < d)
  /\ match_votes ∅ line = inl ValueError.
Proof.
  intros line.
  assert (match_line (strip (sub_spaces false line))
          = Some ("Xyzzyplorp", repeat_char "1" 4301)) as Hmatch by by_vm.
  split; [exact Hmatch|]. split.
  - exists "Chilungo", 9. split; [by_vm | lia].
  - rewrite match_votes_outcome.
    assert (oversized line = true) as -> by by_vm. reflexivity.
Qed.

(** X21: on an input made of well-formed lines (a name, a separator and
    a number of at most 4300 digits, white space around them at will) whose
    names are within distance 2 of the catalog, and of lines without the
    shape of the pattern, the engine returns the mapping that holds, for
    each well-formed line, its number (thousands separators passed over)
    under the catalog entry its name resolves to, and nothing for the other
    lines; so the input of scenario A gives Chakwera 12345 and Mutharika
    9000. *)
Theorem extract_votes_well_formed (lines : list Line) :
  forallb admissible lines = true ->
  forallb fitting lines = true ->
  extract_votes (join_lines (line_text <$> lines))
    = inr (fold_left record_line lines ∅)
  /\ extract_votes
       ("Chakwera: 12,345" ++ nl ++ "Mutharika 9000" ++ nl ++ "???")
     = inr (<["Chakwera" := 12345%N]> (<["Mutharika" := 9000%N]> ∅)).
Proof.
  intros Hlines Hfit. split.
  - apply extract_votes_admissible; assumption.
  - by_vm.
Qed.

Lemma extract_votes_well_formed_witness :
  let lines :=
    [ Counted {| e_lead := ""; e_name := "Chakwera"; e_sep := ": ";
                 e_num := "12,345"; e_trail := "" |};
      Counted {| e_lead := "  "; e_name := "Mutharika"; e_sep := " ";
                 e_num := "9000"; e_trail := " " |};
      Other "???" ] in
  forallb admissible lines = true /\
  extract_votes (join_lines (line_text <$> lines))
    = inr (fold_left record_line lines ∅).
Proof.
  intros lines. split; [reflexivity|].
  apply (extract_votes_well_formed lines); reflexivity.
Defined.

(** C3: a well-formed line, its name in the catalog, with a number of
    4301 digits: the engine returns no mapping, [int] raises
    [ValueError]. *)
Theorem well_formed_long_number_raises :
  let e := {| e_lead := ""; e_name := "Banda"; e_sep := ": ";
              e_num := repeat_char "1" 4301; e_trail := "" |} in
  admissible (Counted e) = true
  /\ line_text (Counted e) = "Banda: " ++ repeat_char "1" 4301
  /\ extract_votes (join_lines (line_text <$> [Counted e])) = inl ValueError.
Proof.
  intros e. split; [by_vm|]. split; [reflexivity|].
  rewrite extract_votes_outcome.
  assert (existsb oversized (lines_of (join_lines (line_text <$> [Counted e])))
          = true) as -> by by_vm.
  reflexivity.
Qed.

(** X22: when two accepted lines of an input resolve to the same catalog
    name, no line after the later of them does and no line carries a
    number too long for [int], the mapping returned holds the count of the
    later line under that name. *)
Theorem later_line_overwrites (text : string) (pre mid post : list string)
    (l1 l2 name : string) (v1 v2 : N) :
  lines_of text = (pre ++ l1 :: mid ++ l2 :: post)%list ->
  existsb oversized (lines_of text) = false ->
  accepted l1 = Some (name, v1) ->
  accepted l2 = Some (name, v2) ->
  (forall l, l ∈ post -> fst <$> accepted l ≠ Some name) ->
  exists m, extract_votes text = inr m /\ m !! name = Some v2.
Proof.
  intros Hlines Hfit _ H2 Hpost. eexists.
  split; [apply extract_votes_accepted, Hfit|].
  rewrite Hlines.
  replace (pre ++ l1 :: mid ++ l2 :: post)%list
    with ((pre ++ l1 :: mid) ++ l2 :: post)%list
    by (rewrite <- app_assoc; reflexivity).
  rewrite fold_left_app. cbn [fold_left].
  rewrite fold_record_lookup_other by exact Hpost.
  rewrite H2. apply lookup_insert_eq.
Qed.

Lemma later_line_overwrites_witness :
  exists m, extract_votes ("Banda: 1" ++ nl ++ "Banda: 2") = inr m /\
            m !! "Banda" = Some 2%N.
Proof.
  apply (later_line_overwrites ("Banda: 1" ++ nl ++ "Banda: 2")
           [] [] [] "Banda: 1" "Banda: 2" "Banda" 1%N 2%N).
  - reflexivity.
  - reflexivity.
  - reflexivity.
  - reflexivity.
  - intros l Hl. apply elem_of_nil in Hl. contradiction.
Defined.

(** C9: two accepted lines for the same name, then a line with a far
    name and a number of 4301 digits: no mapping is returned, the
    extraction raises [ValueError]. *)
Theorem overwrite_then_long_number_raises :
  let text := "Banda: 1" ++ nl ++ "Banda: 2" ++ nl
              ++ "Xyzzyplorp: " ++ repeat_char "1" 4301 in
  lines_of text
    = [ "Banda: 1"; "Banda: 2"; "Xyzzyplorp: " ++ repeat_char "1" 4301 ]
  /\ accepted "Banda: 1" = Some ("Banda", 1%N)
  /\ accepted "Banda: 2" = Some ("Banda", 2%N)
  /\ extract_votes text = inl ValueError.
Proof.
  intros text.
  assert (lines_of text
          = [ "Banda: 1"; "Banda: 2";
              "Xyzzyplorp: " ++ repeat_char "1" 4301 ]) as Hlines by by_vm.
  split; [exact Hlines|]. split; [by_vm|]. split; [by_vm|].
  rewrite extract_votes_outcome, Hlines.
  assert (existsb oversized
            [ "Banda: 1"; "Banda: 2";
              "Xyzzyplorp: " ++ repeat_char "1" 4301 ] = true) as -> by by_vm.
  reflexivity.
Qed.

(** ** The conversation *)

(** C6: in every state the command /cancel reaches [cancel_handler], which
    removes the session of the user and ends the conversation, so that a
    lookup of the user afterwards finds nothing; the token "cancel" does the
    same in the six states whose menu has the button. *)
Theorem cancel_removes_session (env : Env) (st : State) (user_id : Z)
    (w : World) :
  let w' := {| user_sessions := delete user_id (user_sessions w);
               sent := sent w ++ [Reply Cancelled] |} in
  handle env st user_id (Command "cancel") w = Some (inr END, w')
  /\ user_sessions w' !! user_id = None
  /\ Forall
       (fun st' =>
          handle env st' user_id (CallbackQuery "cancel") w
            = Some (inr END, w'))
       [ CHOOSE_INPUT_MODE; EDIT_MENU; EDIT_SINGLE_CANDIDATE;
         REMOVE_CANDIDATE_NAME; SELECT_REGION; SELECT_DISTRICT ].
Proof.
  intros w'. split; [destruct st; reflexivity|].
  split; [apply lookup_delete_eq|].
  repeat constructor.
Qed.

(** C1, as it is stated, fails: in the state where the count of a
    candidate is awaited, a text that is no number, sent before a candidate
    is selected, is answered by the return to the edit menu: the handler
    does not return the state it was called in. *)
Lemma text_before_selection_leaves_state :
  let s := {| candidates := {[ "Banda" := 3%N ]}; region := None;
              district := None; votes_confirmed := false;
              candidate_to_edit := None |} in
  let w := {| user_sessions := {[ 7%Z := s ]}; sent := [] |} in
  let env := {| ocr_http := Failed ""; districts_http := Failed "";
                sheet_http := Failed ""; sender_name := ""; clock := "" |} in
  invalid_update EDIT_SINGLE_CANDIDATE (TextMessage "many") = true
  /\ handle env EDIT_SINGLE_CANDIDATE 7 (TextMessage "many") w
     = Some (inr (Goto EDIT_MENU),
             {| user_sessions := {[ 7%Z := s ]};
                sent := [Reply NoCandidateSelected] |})
  /\ Goto EDIT_MENU ≠ Goto EDIT_SINGLE_CANDIDATE.
Proof.
  intros s w env. split; [reflexivity|]. split; [reflexivity | discriminate].
Qed.

(** C1, amended: in every state, an update of an invalid shape (a menu
    token the handlers of the state have no branch for, or a text that is
    not a string of digits where the count of a candidate is awaited)
    leaves the stored sessions, so the fields of the user's session, as
    they were. The handler returns the state it was called in, but for a
    text sent before a candidate is selected, which leads back to the edit
    menu. In the four states whose handlers take texts or photos only, no
    handler takes a token: nothing runs. *)
Theorem invalid_update_keeps_fields (env : Env) (st : State) (user_id : Z)
    (u : Update) (s : Session) (w : World) :
  user_sessions w !! user_id = Some s ->
  invalid_update st u = true ->
  match handle env st user_id u w with
  | Some (r, w') =>
      user_sessions w' = user_sessions w
      /\ user_sessions w' !! user_id = Some s
      /\ r = inr (Goto (match u with
                        | TextMessage _ =>
                            if truthy (candidate_to_edit s) then st
                            else EDIT_MENU
                        | _ => st
                        end))
  | None => has_menu st = false /\ exists data, u = CallbackQuery data
  end.
Proof.
  intros Hs Hinv. destruct u as [name|text| |data]; cbn [invalid_update] in Hinv;
    try discriminate.
  - destruct st; try discriminate. apply negb_true_iff in Hinv.
    unfold handle, dispatch. cbn [entry_point state_handler].
    unfold receive_single_candidate_vote. run. rewrite Hs.
    destruct (truthy (candidate_to_edit s)); cbn [negb]; [rewrite Hinv|];
      (split; [reflexivity|]; split; [exact Hs | reflexivity]).
  - destruct st; cbn [recognized] in Hinv; try discriminate;
      try (split; [reflexivity | eexists; reflexivity]);
      split_tokens Hinv;
      unfold handle, dispatch; cbn [entry_point state_handler];
      unfold choose_input_mode_handler, edit_menu_handler,
        edit_single_candidate_handler, remove_candidate_name_handler,
        select_region_handler, select_district_handler,
        confirm_override_handler;
      use_tokens; run; rewrite ?Hs;
      (split; [reflexivity|];
       split; [first [exact Hs | reflexivity] | reflexivity]).
Qed.

Lemma invalid_update_keeps_fields_witness :
  let s := {| candidates := {[ "Banda" := 3%N ]}; region := None;
              district := None; votes_confirmed := false;
              candidate_to_edit := Some "Banda" |} in
  let w := {| user_sessions := {[ 7%Z := s ]}; sent := [] |} in
  match
    handle
      {| ocr_http := Failed ""; districts_http := Failed "";
         sheet_http := Failed ""; sender_name := ""; clock := "" |}
      EDIT_SINGLE_CANDIDATE 7 (TextMessage "many") w
  with
  | Some (r, w') =>
      user_sessions w' = user_sessions w
      /\ user_sessions w' !! 7%Z = Some s
      /\ r = inr (Goto EDIT_SINGLE_CANDIDATE)
  | None => has_menu EDIT_SINGLE_CANDIDATE = false
            /\ exists data, TextMessage "many" = CallbackQuery data
  end.
Proof.
  intros s w.
  apply (invalid_update_keeps_fields _ EDIT_SINGLE_CANDIDATE 7
           (TextMessage "many") s w).
  - reflexivity.
  - reflexivity.
Defined.

Lemma start_tally_lookup (name : string) :
  (list_to_map ((fun c => (c, 0%N)) <$> DEFAULT_CANDIDATES) : gmap string N)
    !! name
  = if bool_decide (name ∈ DEFAULT_CANDIDATES) then Some 0%N else None.
Proof.
  generalize DEFAULT_CANDIDATES. intros catalog.
  induction catalog as [|c catalog IH]; [reflexivity|].
  rewrite fmap_cons, list_to_map_cons, lookup_insert.
  destruct (decide (c = name)) as [->|Hne].
  - rewrite bool_decide_eq_true_2 by left. reflexivity.
  - rewrite IH. apply (f_equal (fun b : bool => if b then Some 0%N else None)).
    apply bool_decide_ext. rewrite elem_of_cons. intuition congruence.
Qed.

(** C10: in whatever state and whether the user has a session or not,
    /start stores for the user a session whose tally is the catalog
    candidates, each at 0, and nothing else; and when the extraction gives
    a mapping that is not empty, the text handler (in the text state) and
    the photo handler (in the image state) store that mapping as the tally
    of the session in place of the former one, of which no entry is
    kept. *)
Theorem tally_started_then_replaced (env : Env) (st : State) (user_id : Z)
    (w : World) :
  (exists s0,
     handle env st user_id (Command "start") w =
       Some (inr (Goto CHOOSE_INPUT_MODE),
             {| user_sessions := <[user_id := s0]> (user_sessions w);
                sent := sent w ++ [Reply Welcome] |})
     /\ forall name,
          candidates s0 !! name =
          if bool_decide (name ∈ DEFAULT_CANDIDATES) then Some 0%N else None)
  /\ forall (s : Session) (text : string) (votes : gmap string N),
       user_sessions w !! user_id = Some s ->
       extract_votes text = inr votes ->
       votes ≠ ∅ ->
       handle env WAIT_FOR_TEXT user_id (TextMessage text) w =
         Some (inr (Goto EDIT_MENU),
               {| user_sessions :=
                    <[user_id := set_candidates votes s]> (user_sessions w);
                  sent := sent w ++ [Reply (ParsedVotes votes)] |})
       /\ (ocr_image env = Some text ->
           is_empty text = false ->
           handle env WAIT_FOR_IMAGE user_id PhotoMessage w =
             Some (inr (Goto EDIT_MENU),
                   {| user_sessions :=
                        <[user_id := set_candidates votes s]> (user_sessions w);
                      sent := sent w ++ [Reply ProcessingImage; OcrRequest;
                                         Reply (ParsedVotes votes)] |}))
       /\ forall name, candidates (set_candidates votes s) !! name = votes !! name.
Proof.
  split.
  - eexists. split; [destruct st; reflexivity|].
    intros name. apply start_tally_lookup.
  - intros s text votes Hs Hvotes Hne. split; [|split].
    + unfold handle, dispatch. cbn [entry_point state_handler]. f_equal.
      unfold receive_text_handler. rewrite Hvotes. run.
      rewrite bool_decide_eq_false_2 by exact Hne. run. rewrite Hs.
      reflexivity.
    + intros Hocr Htext.
      unfold handle, dispatch. cbn [entry_point state_handler]. f_equal.
      unfold receive_photo_handler. rewrite Hocr. cbn [negb truthy default].
      rewrite Htext. cbn [negb id]. rewrite Hvotes. run.
      rewrite bool_decide_eq_false_2 by exact Hne. run. rewrite Hs.
      cbn [user_sessions sent]. rewrite <- !app_assoc. reflexivity.
    + reflexivity.
Qed.

Lemma tally_started_then_replaced_witness :
  let s := {| candidates := {[ "Dube" := 0%N; "Swira" := 4%N ]};
              region := None; district := None; votes_confirmed := false;
              candidate_to_edit := None |} in
  let w := {| user_sessions := {[ 7%Z := s ]}; sent := [] |} in
  let env := {| ocr_http := Answered (Some "Banda: 7");
                districts_http := Failed ""; sheet_http := Failed "";
                sender_name := ""; clock := "" |} in
  let votes : gmap string N := {[ "Banda" := 7%N ]} in
  handle env WAIT_FOR_TEXT 7 (TextMessage "Banda: 7") w =
    Some (inr (Goto EDIT_MENU),
          {| user_sessions := <[7%Z := set_candidates votes s]> (user_sessions w);
             sent := sent w ++ [Reply (ParsedVotes votes)] |}).
Proof.
  intros s w env votes.
  refine (proj1 (proj2 (tally_started_then_replaced env WAIT_FOR_TEXT 7 w)
                   s "Banda: 7" votes _ _ _)).
  - reflexivity.
  - by_vm.
  - apply insert_non_empty.
Defined.

(** /start for a user who has no session yet. *)
Example start_without_session :
  exists s0,
    handle {| ocr_http := Failed ""; districts_http := Failed "";
              sheet_http := Failed ""; sender_name := ""; clock := "" |}
      CHOOSE_INPUT_MODE 7 (Command "start")
      {| user_sessions := ∅; sent := [] |}
    = Some (inr (Goto CHOOSE_INPUT_MODE),
            {| user_sessions := {[ 7%Z := s0 ]}; sent := [Reply Welcome] |})
    /\ candidates s0 !! "Banda" = Some 0%N.
Proof. eexists. split; [reflexivity | by_vm]. Qed.

(** Scenario D: the bulk edit takes the names as they are written and
    passes over a line without a colon. *)
Example scenario_D :
  let s := {| candidates := {[ "Banda" := 1%N; "Swira" := 4%N ]};
              region := None; district := None; votes_confirmed := false;
              candidate_to_edit := None |} in
  let w := {| user_sessions := {[ 7%Z := s ]}; sent := [] |} in
  let updated : gmap string N :=
    {[ "Banda" := 10%N; "Dube" := 20%N; "Swira" := 4%N ]} in
  bulk_edit_all_handler 7 ("Banda: 10" ++ nl ++ "Badline" ++ nl ++ "Dube:20") w
  = (inr (Goto EDIT_MENU),
     {| user_sessions := {[ 7%Z := set_candidates updated s ]};
        sent := [Reply (UpdatedVotes updated)] |}).
Proof.
  intros s w updated. by_vm.
Qed.

(** A text of superscript digits passes [isdigit] and is refused by [int]:
    the handler raises before it writes anything. *)
Example superscript_count_raises :
  let s := {| candidates := {[ "Banda" := 3%N ]}; region := None;
              district := None; votes_confirmed := false;
              candidate_to_edit := Some "Banda" |} in
  let w := {| user_sessions := {[ 7%Z := s ]}; sent := [] |} in
  receive_single_candidate_vote 7 (String (ascii_of_N 178) "") w
  = (inl ValueError, w).
Proof. reflexivity. Qed.

(** Before a candidate is selected, a text sent in the state
    [EDIT_SINGLE_CANDIDATE] leads back to the edit menu. *)
Lemma text_before_selection env user_id text w s :
  user_sessions w !! user_id = Some s ->
  truthy (candidate_to_edit s) = false ->
  handle env EDIT_SINGLE_CANDIDATE user_id (TextMessage text) w =
    Some (inr (Goto EDIT_MENU),
          {| user_sessions := user_sessions w;
             sent := sent w ++ [Reply NoCandidateSelected] |}).
Proof.
  intros Hs Ht. unfold handle, dispatch. cbn [entry_point state_handler].
  unfold receive_single_candidate_vote. run. rewrite Hs, Ht. reflexivity.
Qed.

(** Any command but /start and /cancel ends the conversation and leaves
    the sessions as they are. *)
Lemma other_command_keeps_sessions env st user_id name w :
  (name =? "start")%string = false -> (name =? "cancel")%string = false ->
  handle env st user_id (Command name) w =
    Some (inr END, {| user_sessions := user_sessions w;
                      sent := sent w ++ [Reply NotUnderstood] |}).
Proof.
  intros Hstart Hcancel. unfold handle, dispatch, entry_point, fallback.
  rewrite Hstart. destruct st; cbn [state_handler]; rewrite Hcancel;
    reflexivity.
Qed.

(** *** Submission *)

Lemma submit_data_incomplete env user_id w s :
  user_sessions w !! user_id = Some s -> complete s = false ->
  submit_data env user_id w =
    (inr END, {| user_sessions := user_sessions w;
                 sent := sent w ++ [Reply IncompleteData] |}).
Proof.
  intros Hs Hc. unfold submit_data. run. rewrite Hs.
  unfold complete in Hc. rewrite Hc. reflexivity.
Qed.

Lemma submit_data_missing env user_id w :
  user_sessions w !! user_id = None ->
  submit_data env user_id w =
    (inr END, {| user_sessions := user_sessions w;
                 sent := sent w ++ [Reply SessionExpired] |}).
Proof. intros Hs. unfold submit_data. run. rewrite Hs. reflexivity. Qed.

Lemma submit_data_complete env user_id w s :
  user_sessions w !! user_id = Some s -> complete s = true ->
  submit_data env user_id w =
    (inr END,
     {| user_sessions := delete user_id (user_sessions w);
        sent := sent w ++
          [ Reply Submitting;
            SheetRequest
              {| p_region := default "" (region s);
                 p_district := default "" (district s);
                 p_timestamp := clock env; p_sender := sender_name env;
                 p_votes := candidates s |};
            Reply (if success (send_to_google_sheet env)
                   then ResultsSubmitted (default "" (district s)) (candidates s)
                   else FailedToSubmit
                          (default "Unknown error"
                             (message (send_to_google_sheet env)))) ] |}).
Proof.
  intros Hs Hc. unfold submit_data. run. rewrite Hs.
  unfold complete in Hc. rewrite Hc. cbn [negb].
  destruct (success (send_to_google_sheet env));
    cbn [user_sessions sent]; rewrite <- !app_assoc; reflexivity.
Qed.

(** C4: a submission reached with an empty tally answers that the data is
    incomplete and posts nothing to the sheet, but the session of the user
    stays in [user_sessions]: the early [return] comes before the [pop]
    that the other ends of [submit_data] run. *)
Theorem incomplete_submission_keeps_session :
  let s := {| candidates := ∅; region := Some "Central"; district := None;
              votes_confirmed := false; candidate_to_edit := None |} in
  let env := {| ocr_http := Failed ""; districts_http := Answered [];
                sheet_http := Answered {| success := true; message := None |};
                sender_name := "Amina"; clock := "2025-09-16 18:00:00" |} in
  handle env SELECT_DISTRICT 7 (CallbackQuery "district_Dowa")
    {| user_sessions := {[ 7%Z := s ]}; sent := [] |}
  = Some (inr END,
          {| user_sessions := {[ 7%Z := set_district "Dowa" s ]};
             sent := [ DistrictsRequest; Reply (DistrictSelected "Dowa");
                       Reply IncompleteData ] |})
  /\ ({[ 7%Z := set_district "Dowa" s ]} : gmap Z Session) !! 7%Z
     = Some (set_district "Dowa" s).
Proof.
  intros s env. split; [|apply lookup_singleton_eq].
  unfold handle, dispatch. cbn [entry_point state_handler].
  unfold select_district_handler. cbn [startswith Ascii.eqb Bool.eqb andb].
  run. rewrite lookup_singleton_eq. cbn [user_sessions sent].
  rewrite insert_singleton_eq.
  cbn [get_submitted_districts districts_http env fmap list_fmap].
  rewrite bool_decide_eq_false_2 by apply not_elem_of_nil.
  pose proof (submit_data_incomplete env 7
    {| user_sessions := {[ 7%Z := set_district "Dowa" s ]};
       sent := [DistrictsRequest; Reply (DistrictSelected "Dowa")] |}
    (set_district "Dowa" s) (lookup_singleton_eq _ _) eq_refl) as H.
  cbn [user_sessions sent app] in H |- *.
  change (remove_all "district_" "district_Dowa") with "Dowa".
  rewrite H. reflexivity.
Qed.

(** C7: only [submit_data] looks the session up with [get] and reports that
    it expired; a handler that indexes [user_sessions] raises [KeyError]
    when the user has no session, as the edit menu does when asked for the
    list of candidates. *)
Theorem missing_session_raises (env : Env) :
  let w := {| user_sessions := ∅; sent := [] |} in
  handle env EDIT_MENU 7 (CallbackQuery "edit_individual") w
    = Some (inl KeyError, w)
  /\ handle env CONFIRM_OVERRIDE 7 (CallbackQuery "override_yes") w
     = Some (inr END,
             {| user_sessions := ∅;
                sent := [Reply Overriding; Reply SessionExpired] |}).
Proof. split; reflexivity. Qed.

(** C8: a command other than /start and /cancel ends the conversation
    through [fallback_handler], which leaves [user_sessions] as it is: the
    session of the user is still stored afterwards. *)
Theorem fallback_keeps_session (env : Env) (st : State) (s : Session) :
  let w := {| user_sessions := {[ 7%Z := s ]}; sent := [] |} in
  handle env st 7 (Command "help") w
    = Some (inr END, {| user_sessions := {[ 7%Z := s ]};
                        sent := [Reply NotUnderstood] |})
  /\ ({[ 7%Z := s ]} : gmap Z Session) !! 7%Z = Some s.
Proof.
  intros w. split; [destruct st; reflexivity | apply lookup_singleton_eq].
Qed.

(** *** Failures of the external services *)




(** * Further properties of the code *)

(** ** The extraction engine on any text *)

Lemma accepted_in_catalog line name count :
  accepted line = Some (name, count) -> name ∈ DEFAULT_CANDIDATES.
Proof.
  unfold accepted.
  destruct (match_line (strip (sub_spaces false line))) as [[g1 g2]|];
    [|discriminate].
  cbv zeta.
  destruct (isdigit (strip (remove_all "," g2))
            && negb (too_long (strip (remove_all "," g2)))); [|discriminate].
  pose proof (closest_first_nearest (strip g1) DEFAULT_CANDIDATES) as Hf.
  destruct (closest DEFAULT_CANDIDATES (strip g1)) as [[best d]|];
    [|discriminate].
  destruct (d <=? 2)%nat; [|discriminate].
  intros [= <- _]. destruct Hf as (i & Hi & _).
  eapply list_elem_of_lookup_2, Hi.
Qed.

Lemma fold_record_keys lines matched (name : string) :
  is_Some (fold_left (fun m l => record m (accepted l)) lines matched !! name) ->
  is_Some (matched !! name) \/ name ∈ DEFAULT_CANDIDATES.
Proof.
  revert matched. induction lines as [|l lines IH]; intros matched;
    [left; assumption|].
  cbn [fold_left]. intros H. destruct (IH _ H) as [Hm|Hc]; [|right; exact Hc].
  destruct (accepted l) as [[n v]|] eqn:E; cbn [record] in Hm;
    [|left; exact Hm].
  destruct (decide (n = name)) as [<-|Hne].
  - right. eapply accepted_in_catalog, E.
  - rewrite lookup_insert_ne in Hm by exact Hne. left. exact Hm.
Qed.

Lemma existsb_false_Forall {A : Type} (f : A -> bool) (l : list A) :
  existsb f l = false <-> Forall (fun x => f x = false) l.
Proof.
  induction l as [|x l IH]; cbn [existsb].
  - split; [constructor | reflexivity].
  - rewrite orb_false_iff, IH. split.
    + intros [Hx Hl]. constructor; assumption.
    + intros H. inversion H; subst. split; assumption.
Qed.

(** X1: whatever the text, [extract_votes] raises [ValueError], and
    this exactly when a line that the pattern matches carries a number of
    more than 4300 digits, or returns a mapping whose keys are all entries
    of [DEFAULT_CANDIDATES]. *)
Theorem extract_votes_keys_in_catalog (text : string) :
  match extract_votes text with
  | inl e =>
      e = ValueError
      /\ Exists (fun l => oversized l = true) (lines_of text)
  | inr m =>
      Forall (fun l => oversized l = false) (lines_of text)
      /\ forall name, is_Some (m !! name) -> name ∈ DEFAULT_CANDIDATES
  end.
Proof.
  rewrite extract_votes_outcome.
  destruct (existsb oversized (lines_of text)) eqn:E.
  - split; [reflexivity|]. apply existsb_exists in E as (l & Hl & Ho).
    apply Exists_exists. exists l. split; [apply list_elem_of_In, Hl | exact Ho].
  - split; [apply existsb_false_Forall, E|].
    intros name H. apply fold_record_keys in H as [H|H]; [|exact H].
    rewrite lookup_empty in H. destruct H as [? H]. discriminate H.
Qed.

Lemma record_nonempty_stays lines matched :
  matched ≠ ∅ ->
  fold_left (fun m l => record m (accepted l)) lines matched ≠ ∅.
Proof.
  revert matched. induction lines as [|l lines IH]; intros matched Hm;
    [exact Hm|].
  cbn [fold_left]. apply IH. destruct (accepted l) as [[n v]|]; cbn [record];
    [apply insert_non_empty | exact Hm].
Qed.

(** X2: the mapping returned is empty exactly when no line of the text is
    accepted and none carries a number too long for [int]; so the handlers
    answer that nothing could be parsed in that case only. *)
Theorem extract_votes_empty_iff (text : string) :
  extract_votes text = inr ∅ <->
  Forall (fun l => oversized l = false /\ accepted l = None) (lines_of text).
Proof.
  rewrite extract_votes_outcome. generalize (lines_of text). intros lines.
  rewrite Forall_and, <- existsb_false_Forall.
  destruct (existsb oversized lines).
  - split; [discriminate | intros [[=] _]].
  - split.
    + intros [= H]. split; [reflexivity|].
      induction lines as [|l lines IH]; [constructor|].
      cbn [fold_left] in H. destruct (accepted l) as [[n v]|] eqn:E.
      * exfalso. revert H. apply record_nonempty_stays. cbn [record].
        apply insert_non_empty.
      * constructor; [exact E | apply IH, H].
    + intros [_ H]. f_equal. induction H as [|l lines Hl _ IH]; [reflexivity|].
      cbn [fold_left]. rewrite Hl. exact IH.
Qed.

(** ** The edit distance *)

Lemma edits_refl s : Levenshtein.edits s s = 0.
Proof.
  induction s as [|a s IH]; [reflexivity|].
  rewrite LevenshteinFacts.edits_cons. unfold Levenshtein.cost.
  rewrite Ascii.eqb_refl, IH. lia.
Qed.

Lemma edits_zero s t : Levenshtein.edits s t = 0 -> s = t.
Proof.
  revert t. induction s as [|a s IH]; intros [|b t].
  - reflexivity.
  - rewrite LevenshteinFacts.edits_nil_l. discriminate.
  - rewrite LevenshteinFacts.edits_nil_r. discriminate.
  - rewrite LevenshteinFacts.edits_cons. unfold Levenshtein.cost.
    destruct (Ascii.eqb_spec a b) as [->|Hne].
    + intros H. f_equal. apply IH. lia.
    + lia.
Qed.

Lemma edits_length s t :
  String.length s <= Levenshtein.edits s t + String.length t /\
  String.length t <= Levenshtein.edits s t + String.length s.
Proof.
  revert t. induction s as [|a s IH]; intros t.
  - rewrite LevenshteinFacts.edits_nil_l. cbn. lia.
  - induction t as [|b t IHt].
    + rewrite LevenshteinFacts.edits_nil_r. cbn. lia.
    + rewrite LevenshteinFacts.edits_cons.
      destruct (IH (String b t)) as [H1 H2]. destruct (IH t) as [H3 H4].
      destruct IHt as [H5 H6]. cbn [String.length] in *.
      unfold Levenshtein.cost. destruct (Ascii.eqb a b); lia.
Qed.

Lemma lower_length s : String.length (lower s) = String.length s.
Proof. induction s as [|c s IH]; [reflexivity|]. cbn. rewrite IH. reflexivity. Qed.

Lemma lower_injective_on (l : list string) (b c : string) :
  NoDup (lower <$> l) -> b ∈ l -> c ∈ l -> lower b = lower c -> b = c.
Proof.
  induction l as [|x l IH]; intros Hnd Hb Hc Heq.
  - apply elem_of_nil in Hb. contradiction.
  - rewrite fmap_cons in Hnd. apply NoDup_cons in Hnd as [Hx Hnd].
    apply elem_of_cons in Hb as [->|Hb]; apply elem_of_cons in Hc as [->|Hc].
    + reflexivity.
    + exfalso. apply Hx. rewrite Heq.
      apply list_elem_of_fmap. exists c. split; [reflexivity | exact Hc].
    + exfalso. apply Hx. rewrite <- Heq.
      apply list_elem_of_fmap. exists b. split; [reflexivity | exact Hb].
    + apply IH; assumption.
Qed.

Lemma catalog_lower_distinct : NoDup (lower <$> DEFAULT_CANDIDATES).
Proof.
  apply (bool_decide_unpack (NoDup (lower <$> DEFAULT_CANDIDATES))).
  vm_compute. exact I.
Qed.

(** X3: a name equal to a catalog entry up to the case of its letters
    resolves to that entry, at distance 0. *)
Theorem closest_exact_name (raw_name c : string) :
  c ∈ DEFAULT_CANDIDATES -> lower raw_name = lower c ->
  closest DEFAULT_CANDIDATES raw_name = Some (c, 0).
Proof.
  intros Hc Heq.
  pose proof (closest_first_nearest raw_name DEFAULT_CANDIDATES) as Hf.
  destruct (closest DEFAULT_CANDIDATES raw_name) as [[b d]|];
    [|discriminate Hf].
  destruct Hf as (i & Hi & Hd & Hmin & _).
  specialize (Hmin c Hc). rewrite Heq in Hmin at 1.
  rewrite LevenshteinFacts.distance_edits, edits_refl in Hmin.
  assert (d = 0) as -> by lia.
  symmetry in Hd. rewrite LevenshteinFacts.distance_edits in Hd.
  apply edits_zero in Hd.
  assert (b = c) as ->; [|reflexivity].
  apply (lower_injective_on DEFAULT_CANDIDATES).
  - apply catalog_lower_distinct.
  - eapply list_elem_of_lookup_2, Hi.
  - exact Hc.
  - congruence.
Qed.

Lemma closest_exact_name_witness :
  closest DEFAULT_CANDIDATES "cHAKWERA" = Some ("Chakwera", 0).
Proof.
  apply (closest_exact_name "cHAKWERA" "Chakwera").
  - apply list_elem_of_In. cbn. tauto.
  - reflexivity.
Defined.

Lemma catalog_lengths :
  Forall (fun c => 4 <= String.length c <= 10) DEFAULT_CANDIDATES.
Proof. repeat constructor; cbn; lia. Qed.

(** X4: a line whose name has fewer than 2 or more than 12 characters is
    never recorded: the distance to any catalog entry, of 4 to 10
    characters, is more than 2. The mapping is returned as it was, unless
    the number is too long for [int], which raises. *)
Theorem name_length_out_of_reach (matched : gmap string N)
    (line g1 g2 : string) :
  match_line (strip (sub_spaces false line)) = Some (g1, g2) ->
  String.length (strip g1) < 2 \/ 12 < String.length (strip g1) ->
  match_votes matched line
  = if oversized line then inl ValueError else inr matched.
Proof.
  intros Hm Hlen. rewrite match_votes_outcome.
  destruct (oversized line); [reflexivity|]. f_equal.
  unfold accepted. rewrite Hm. cbv zeta.
  destruct (isdigit (strip (remove_all "," g2))
            && negb (too_long (strip (remove_all "," g2)))); [|reflexivity].
  pose proof (closest_first_nearest (strip g1) DEFAULT_CANDIDATES) as Hf.
  destruct (closest DEFAULT_CANDIDATES (strip g1)) as [[best d]|];
    [|reflexivity].
  destruct Hf as (i & Hi & Hd & _).
  assert (best ∈ DEFAULT_CANDIDATES) as Hin
    by (eapply list_elem_of_lookup_2, Hi).
  pose proof catalog_lengths as Hall. rewrite Forall_forall in Hall.
  specialize (Hall best Hin). cbv beta in Hall.
  rewrite LevenshteinFacts.distance_edits in Hd.
  destruct (edits_length (lower (strip g1)) (lower best)) as [H1 H2].
  rewrite !lower_length in H1, H2.
  destruct (Nat.leb_spec d 2); [exfalso; lia | reflexivity].
Qed.

Lemma name_length_out_of_reach_witness :
  match_votes {[ "Dube" := 1%N ]} "Professor Emeritus: 120"
  = inr {[ "Dube" := 1%N ]}.
Proof.
  change (match_votes {[ "Dube" := 1%N ]} "Professor Emeritus: 120"
          = if oversized "Professor Emeritus: 120" then inl ValueError
            else inr {[ "Dube" := 1%N ]}).
  apply (name_length_out_of_reach _ _ "Professor Emeritus" "120").
  - reflexivity.
  - right. apply Nat.ltb_lt. reflexivity.
Defined.

(** ** The rendering of a tally *)

Lemma uint_decimal d : all_chars is_decimal (NilEmpty.string_of_uint d) = true.
Proof. induction d; cbn [NilEmpty.string_of_uint all_chars]; auto. Qed.

Lemma digits_value_uint_acc d acc :
  digits_value (N.pos acc) (NilEmpty.string_of_uint d)
  = N.pos (Pos.of_uint_acc d acc).
Proof.
  revert acc. induction d; intros acc;
    cbn [NilEmpty.string_of_uint Pos.of_uint_acc digits_value];
    [reflexivity | ..];
    match goal with
    | |- context [is_decimal ?c] =>
        change (is_decimal c) with true; cbv iota;
        let v := eval vm_compute in (code c - 48)%N in
        change (code c - 48)%N with v
    end;
    rewrite <- IHd; f_equal; lia.
Qed.

Lemma digits_value_uint d :
  digits_value 0 (NilEmpty.string_of_uint d) = Pos.of_uint d.
Proof.
  induction d; cbn [NilEmpty.string_of_uint Pos.of_uint digits_value];
    [reflexivity | exact IHd | ..];
    match goal with
    | |- context [is_decimal ?c] =>
        change (is_decimal c) with true; cbv iota;
        let v := eval vm_compute in (10 * 0 + (code c - 48))%N in
        change (10 * 0 + (code c - 48))%N with v
    end;
    apply digits_value_uint_acc.
Qed.

Lemma digits_value_str n : digits_value 0 (str n) = n.
Proof.
  unfold str. rewrite digits_value_uint.
  apply DecimalN.Unsigned.of_to.
Qed.

Lemma str_decimal n : all_chars is_decimal (str n) = true.
Proof. apply uint_decimal. Qed.

Lemma str_nonempty n : is_empty (str n) = false.
Proof.
  destruct n as [|p]; [reflexivity|].
  pose proof (digits_value_str (N.pos p)) as H.
  destruct (str (N.pos p)); [discriminate H | reflexivity].
Qed.

Lemma group_thousands_num s :
  all_chars is_decimal s = true -> all_chars re_num (group_thousands s) = true.
Proof.
  induction s as [|c s IH]; [reflexivity|]. cbn [all_chars group_thousands].
  intros [Hc Hs]%andb_true_iff.
  destruct ((0 <? String.length s)%nat && (String.length s mod 3 =? 0)%nat);
    cbn [all_chars]; rewrite (decimal_is_num c Hc), (IH Hs); reflexivity.
Qed.

Lemma group_thousands_has_digit s :
  all_chars is_decimal s = true -> is_empty s = false ->
  has_char is_decimal (group_thousands s) = true.
Proof.
  destruct s as [|c s]; [discriminate|]. cbn [all_chars group_thousands].
  intros [Hc _]%andb_true_iff _.
  destruct ((0 <? String.length s)%nat && (String.length s mod 3 =? 0)%nat);
    cbn [has_char]; rewrite Hc; reflexivity.
Qed.

Lemma remove_commas_group s :
  all_chars is_decimal s = true -> remove_all "," (group_thousands s) = s.
Proof.
  induction s as [|c s IH]; [reflexivity|]. cbn [all_chars group_thousands].
  intros [Hc Hs]%andb_true_iff.
  destruct ((0 <? String.length s)%nat && (String.length s mod 3 =? 0)%nat);
    rewrite remove_commas_cons, (decimal_not_comma c Hc);
    [rewrite remove_commas_cons; cbn [Ascii.eqb Bool.eqb]|];
    rewrite (IH Hs); reflexivity.
Qed.

Lemma digits_value_group acc s :
  all_chars is_decimal s = true ->
  digits_value acc (group_thousands s) = digits_value acc s.
Proof.
  intros Hs.
  pose proof (int_acc_commas acc _ (group_thousands_num s Hs)) as H1.
  rewrite (remove_commas_group s Hs) in H1.
  pose proof (int_acc_commas acc s
                (all_chars_impl _ _ _ decimal_is_num Hs)) as H2.
  assert (remove_all "," s = s) as E.
  { clear H1 H2. induction s as [|c s IH]; [reflexivity|].
    cbn [all_chars] in Hs. apply andb_true_iff in Hs as [Hc Hs].
    rewrite remove_commas_cons, (decimal_not_comma c Hc), (IH Hs).
    reflexivity. }
  rewrite E in H2. congruence.
Qed.

Lemma format_count_value n : digits_value 0 (format_count n) = n.
Proof.
  unfold format_count. rewrite digits_value_group by apply str_decimal.
  apply digits_value_str.
Qed.

(** X5: a count printed with thousands separators, as the confirmation
    does, is read back to the same count by the steps the extraction takes
    on a number: the commas removed, [strip], [isdigit], [int]; so for
    every count that can be printed, those of at most 4300 digits. *)
Theorem format_count_read_back (n : N) :
  too_long (str n) = false ->
  let vote_str := strip (remove_all "," (format_count n)) in
  vote_str = str n /\ isdigit vote_str = true /\ int vote_str = inr n.
Proof.
  intros Hfit vote_str.
  pose proof (group_thousands_num _ (str_decimal n)) as Hnum.
  destruct (vote_str_int _ Hnum) as (E & Hint & Hdigit).
  fold (format_count n) in E, Hint, Hdigit. fold vote_str in E, Hint, Hdigit.
  assert (isdigit vote_str = true) as Hd.
  { apply Hdigit, group_thousands_has_digit;
      [apply str_decimal | apply str_nonempty]. }
  assert (vote_str = str n) as Estr
    by (rewrite E; apply remove_commas_group, str_decimal).
  split; [exact Estr|]. split; [exact Hd|].
  rewrite (Hint Hd), format_count_value, Estr, Hfit. reflexivity.
Qed.

Lemma format_count_read_back_witness :
  let vote_str := strip (remove_all "," (format_count 1234567)) in
  vote_str = str 1234567 /\ isdigit vote_str = true
  /\ int vote_str = inr 1234567%N.
Proof. apply (format_count_read_back 1234567). reflexivity. Defined.

Example format_count_millions : format_count 1234567 = "1,234,567".
Proof. reflexivity. Qed.

Lemma backslash_not_escaped : has_ascii "\" escape_chars = false.
Proof. reflexivity. Qed.

Lemma escape_head_kept s :
  match escape_markdown_v2 s with
  | EmptyString => s = EmptyString
  | String d _ => has_ascii d escape_chars = false
  end.
Proof.
  destruct s as [|c s]; [reflexivity|]. cbn [escape_markdown_v2].
  destruct (has_ascii c escape_chars) eqn:E;
    [apply backslash_not_escaped | exact E].
Qed.

Lemma escape_plain text :
  all_chars (fun c => negb (has_ascii c escape_chars)) text = true ->
  escape_markdown_v2 text = text.
Proof.
  induction text as [|c text IH]; [reflexivity|].
  cbn [all_chars escape_markdown_v2]. intros [Hc Ht]%andb_true_iff.
  apply negb_true_iff in Hc. rewrite Hc, (IH Ht). reflexivity.
Qed.

(** X6: the escaping for MarkdownV2 loses nothing: taking away the
    backslash before each escaped character gives the text back; and a
    text without characters to escape is left as it is. *)
Theorem escape_markdown_v2_read_back (text : string) :
  unescape (escape_markdown_v2 text) = text
  /\ (all_chars (fun c => negb (has_ascii c escape_chars)) text = true ->
      escape_markdown_v2 text = text).
Proof.
  split.
  - induction text as [|c text IH]; [reflexivity|].
    cbn [escape_markdown_v2]. destruct (has_ascii c escape_chars) eqn:E.
    + cbn [unescape]. rewrite E. cbn [Ascii.eqb Bool.eqb andb].
      rewrite IH. reflexivity.
    + pose proof (escape_head_kept text) as Hhead.
      cbn [unescape]. destruct (escape_markdown_v2 text) as [|d rest] eqn:Er.
      * subst text. reflexivity.
      * rewrite Hhead, andb_false_r. rewrite IH. reflexivity.
  - apply escape_plain.
Qed.

Lemma escape_markdown_v2_read_back_witness :
  escape_markdown_v2 "Dube: 1,200" = "Dube: 1,200".
Proof.
  apply (proj2 (escape_markdown_v2_read_back "Dube: 1,200")). reflexivity.
Defined.

Example escape_markdown_v2_name :
  escape_markdown_v2 "J.-P. Banda: 7" = "J\.\-P\. Banda: 7".
Proof. reflexivity. Qed.

(** *** The confirmation is a text the extraction reads back *)

Lemma insort_perm x l : insort x l ≡ₚ x :: l.
Proof.
  induction l as [|y l IH]; [reflexivity|]. cbn [insort].
  destruct (String.leb x y); [reflexivity|].
  rewrite IH. apply Permutation_swap.
Qed.

Lemma sorted_perm l : sorted l ≡ₚ l.
Proof.
  induction l as [|x l IH]; [reflexivity|]. cbn [sorted foldr].
  fold (sorted l). rewrite insort_perm, IH. reflexivity.
Qed.

Lemma fold_insert_lookup (f : string -> N) keys (m0 : gmap string N) k :
  fold_left (fun m key => <[key := f key]> m) keys m0 !! k
  = if bool_decide (k ∈ keys) then Some (f k) else m0 !! k.
Proof.
  revert m0. induction keys as [|x keys IH]; intros m0; [reflexivity|].
  cbn [fold_left]. rewrite IH.
  destruct (decide (k ∈ keys)) as [Hin|Hout].
  - rewrite !bool_decide_eq_true_2; [reflexivity | right; exact Hin | exact Hin].
  - rewrite (bool_decide_eq_false_2 (k ∈ keys)) by exact Hout.
    destruct (decide (x = k)) as [->|Hne].
    + rewrite bool_decide_eq_true_2 by left. apply lookup_insert_eq.
    + rewrite bool_decide_eq_false_2.
      * apply lookup_insert_ne, Hne.
      * intros [->|H]%elem_of_cons; [apply Hne; reflexivity | apply Hout, H].
Qed.

Lemma num_not_escaped c : re_num c = true -> has_ascii c escape_chars = false.
Proof. by_cases_on_char c. Qed.

(** What the round trip needs of a catalog name: nothing to escape in it,
    the shape of a name, and itself as nearest entry. *)
Lemma catalog_name_facts :
  Forall
    (fun k =>
       all_chars (fun c => negb (has_ascii c escape_chars)) k = true
       /\ (all_chars re_name k && starts_with nonspace k
           && ends_with nonspace k && no_linebreak k = true)
       /\ sub_spaces false k = k
       /\ nearest k = k)
    DEFAULT_CANDIDATES.
Proof. repeat constructor; vm_compute; reflexivity. Qed.

(** The line of the confirmation for one candidate, as a well-formed line. *)
Lemma confirmation_line k (n : N) :
  k ∈ DEFAULT_CANDIDATES ->
  let e := {| e_lead := ""; e_name := k; e_sep := ": ";
              e_num := format_count n; e_trail := "" |} in
  escape_markdown_v2 (k ++ ": " ++ format_count n) = entry_text e
  /\ admissible (Counted e) = true
  /\ nearest (entry_name e) = k /\ entry_count e = n.
Proof.
  intros Hk e. pose proof catalog_name_facts as Hall.
  rewrite Forall_forall in Hall.
  destruct (Hall k Hk) as (Hesc & Hname & Hsub & Hnear).
  pose proof (group_thousands_num _ (str_decimal n)) as Hnum.
  fold (format_count n) in Hnum.
  split; [|split; [|split]].
  - unfold entry_text, entry_core. cbn [e_lead e_name e_sep e_num e_trail e].
    rewrite sapp_nil_r. cbn [String.append].
    apply escape_plain.
    rewrite all_chars_app, Hesc. cbn [andb all_chars].
    change (negb (has_ascii ":" escape_chars)) with true.
    change (negb (has_ascii " " escape_chars)) with true. cbn [andb].
    apply (all_chars_impl re_num); [|exact Hnum].
    intros c Hc. rewrite (num_not_escaped c Hc). reflexivity.
  - cbn [admissible]. apply andb_true_iff. split.
    + unfold well_formed. cbn [e_lead e_name e_sep e_num e_trail e].
      rewrite Hname, Hnum. cbn [andb all_chars negb is_empty no_linebreak].
      unfold format_count. rewrite group_thousands_has_digit;
        [reflexivity | apply str_decimal | apply str_nonempty].
    + unfold near_catalog. apply existsb_exists. exists k.
      split; [apply list_elem_of_In, Hk|].
      unfold entry_name. cbn [e_name e]. rewrite Hsub.
      rewrite LevenshteinFacts.distance_edits, edits_refl. reflexivity.
  - unfold entry_name. cbn [e_name e]. rewrite Hsub. exact Hnear.
  - unfold entry_count. cbn [e_num e]. apply format_count_value.
Qed.

(** X7: the confirmation of a tally over the catalog is a text that
    [extract_votes] reads back to the same tally: the names sorted, the
    counts with their thousands separators and the escaping lose nothing;
    so for every tally that can be printed, its counts of at most 4300
    digits. *)
Theorem format_vote_results_read_back (votes : gmap string N) :
  (forall k, is_Some (votes !! k) -> k ∈ DEFAULT_CANDIDATES) ->
  (forall k n, votes !! k = Some n -> too_long (str n) = false) ->
  extract_votes (format_vote_results votes) = inr votes.
Proof.
  intros Hcat Hfit.
  set (keys := sorted (map_to_list votes).*1).
  set (count := fun k => default 0%N (votes !! k)).
  set (mk := fun k => Counted {| e_lead := ""; e_name := k; e_sep := ": ";
                                 e_num := format_count (count k);
                                 e_trail := "" |}).
  assert (forall k, k ∈ keys <-> is_Some (votes !! k)) as Hkeys.
  { intros k. unfold keys. rewrite sorted_perm, list_elem_of_fmap. split.
    - intros ([k' v] & -> & Hin). apply elem_of_map_to_list in Hin.
      cbn. rewrite Hin. eauto.
    - intros [v Hv]. exists (k, v). split; [reflexivity|].
      apply elem_of_map_to_list, Hv. }
  assert (Forall (fun k => k ∈ DEFAULT_CANDIDATES) keys) as Hall.
  { apply Forall_forall. intros k Hk. apply Hcat, Hkeys, Hk. }
  assert (format_vote_results votes = join_lines (line_text <$> (mk <$> keys)))
    as ->.
  { unfold format_vote_results. fold keys. f_equal.
    rewrite <- list_fmap_compose. apply Forall_fmap_ext_1.
    eapply Forall_impl; [exact Hall|]. intros k Hk. cbn.
    apply (confirmation_line k (count k) Hk). }
  rewrite extract_votes_admissible.
  - f_equal.
    assert (forall m0, fold_left record_line (mk <$> keys) m0
            = fold_left (fun m key => <[key := count key]> m) keys m0) as ->.
    { clear Hkeys. induction Hall as [|k ks Hk _ IH]; intros m0;
        [reflexivity|].
      rewrite fmap_cons. cbn [fold_left]. rewrite <- IH. f_equal.
      cbn [mk record_line].
      destruct (confirmation_line k (count k) Hk) as (_ & _ & -> & ->).
      reflexivity. }
    apply map_eq. intros k. rewrite fold_insert_lookup.
    destruct (decide (k ∈ keys)) as [Hin|Hout].
    + rewrite bool_decide_eq_true_2 by exact Hin.
      apply Hkeys in Hin as [v Hv]. unfold count. rewrite Hv. reflexivity.
    + rewrite bool_decide_eq_false_2 by exact Hout. rewrite lookup_empty.
      destruct (votes !! k) eqn:E; [|reflexivity].
      exfalso. apply Hout, Hkeys. eauto.
  - apply forallb_forall. intros l Hl. apply list_elem_of_In in Hl.
    apply list_elem_of_fmap in Hl as (k & -> & Hk).
    rewrite Forall_forall in Hall.
    apply (confirmation_line k (count k) (Hall k Hk)).
  - apply forallb_forall. intros l Hl. apply list_elem_of_In in Hl.
    apply list_elem_of_fmap in Hl as (k & -> & Hk).
    cbn [mk fitting e_num]. unfold format_count.
    rewrite remove_commas_group by apply str_decimal.
    apply Hkeys in Hk as [v Hv]. unfold count. rewrite Hv.
    change (default 0%N (Some v)) with v.
    rewrite (Hfit k v Hv). reflexivity.
Qed.

Lemma format_vote_results_read_back_witness :
  extract_votes
    (format_vote_results {[ "Mutharika" := 9000%N; "Chakwera" := 12345%N ]})
  = inr {[ "Mutharika" := 9000%N; "Chakwera" := 12345%N ]}.
Proof.
  apply format_vote_results_read_back.
  - intros k [v Hv]. apply lookup_insert_Some in Hv as [[<- _]|[_ Hv]].
    + apply list_elem_of_In. cbn. tauto.
    + apply lookup_singleton_Some in Hv as [<- _].
      apply list_elem_of_In. cbn. tauto.
  - intros k n Hv. apply lookup_insert_Some in Hv as [[_ <-]|[_ Hv]].
    + reflexivity.
    + apply lookup_singleton_Some in Hv as [_ <-]. reflexivity.
Defined.

Example format_vote_results_sorted :
  format_vote_results {[ "Mutharika" := 9000%N; "Chakwera" := 12345%N ]}
  = "Chakwera: 12,345" ++ nl ++ "Mutharika: 9,000".
Proof. by_vm. Qed.

(** ** What every handler keeps

    A relation between the world a handler starts in and the one it
    leaves, that holds for the steps a handler is made of, holds for the
    handler, whether it returns or raises. *)

Section Keeps.

Context (I : World -> World -> Prop).
Hypothesis I_refl : forall w, I w w.
Hypothesis I_trans : forall w1 w2 w3, I w1 w2 -> I w2 w3 -> I w1 w3.

Lemma keeps_ret {A : Type} (a : A) : keeps I (mret a).
Proof. intros w. apply I_refl. Qed.

Lemma keeps_raise {A : Type} (e : PyExn) : keeps I (@raise A e).
Proof. intros w. apply I_refl. Qed.

Lemma keeps_lift {A : Type} (r : Exc A) : keeps I (lift r).
Proof. destruct r; intros w; apply I_refl. Qed.

Lemma keeps_sessions_get user_id : keeps I (sessions_get user_id).
Proof. intros w. apply I_refl. Qed.

Lemma keeps_session_of user_id : keeps I (session_of user_id).
Proof.
  intros w. unfold session_of.
  destruct (user_sessions w !! user_id); apply I_refl.
Qed.

Lemma keeps_bind {A B : Type} (k : A -> Handler B) (m : Handler A) :
  keeps I m -> (forall a, keeps I (k a)) -> keeps I (mbind k m).
Proof.
  intros Hm Hk w. specialize (Hm w). unfold mbind, handler_bind.
  destruct (m w) as [[e|a] w']; cbn [snd] in *; [exact Hm|].
  eapply I_trans; [exact Hm | apply Hk].
Qed.

End Keeps.

Lemma same_elsewhere_refl user_id w : same_elsewhere user_id w w.
Proof. intros other _. reflexivity. Qed.

Lemma same_elsewhere_trans user_id w1 w2 w3 :
  same_elsewhere user_id w1 w2 -> same_elsewhere user_id w2 w3 ->
  same_elsewhere user_id w1 w3.
Proof. intros H12 H23 other Ho. rewrite (H23 other Ho). apply H12, Ho. Qed.

Lemma posts_valid_refl w : posts_valid w w.
Proof. exists []. split; [symmetry; apply app_nil_r | constructor]. Qed.

Lemma posts_valid_trans w1 w2 w3 :
  posts_valid w1 w2 -> posts_valid w2 w3 -> posts_valid w1 w3.
Proof.
  intros (n1 & E1 & F1) (n2 & E2 & F2). exists (n1 ++ n2)%list. split.
  - rewrite E2, E1. symmetry. apply app_assoc.
  - apply Forall_app. split; assumption.
Qed.

(** The steps, for the sessions of the other users. *)

Lemma emit_elsewhere user_id e : keeps (same_elsewhere user_id) (emit e).
Proof. intros w other _. reflexivity. Qed.

Lemma sessions_set_elsewhere user_id s :
  keeps (same_elsewhere user_id) (sessions_set user_id s).
Proof.
  intros w other Ho. cbn. apply lookup_insert_ne. congruence.
Qed.

Lemma sessions_pop_elsewhere user_id :
  keeps (same_elsewhere user_id) (sessions_pop user_id).
Proof.
  intros w other Ho. cbn. apply lookup_delete_ne. congruence.
Qed.

Lemma session_update_elsewhere user_id f :
  keeps (same_elsewhere user_id) (session_update user_id f).
Proof.
  apply keeps_bind.
  - apply same_elsewhere_trans.
  - apply keeps_session_of, same_elsewhere_refl.
  - intros s. apply sessions_set_elsewhere.
Qed.

(** The steps, for what is posted. *)

Lemma emit_valid e : valid_effect e -> keeps posts_valid (emit e).
Proof.
  intros He w. exists [e]. split; [reflexivity | repeat constructor; exact He].
Qed.

Lemma reply_valid m : keeps posts_valid (reply m).
Proof. apply emit_valid. exact I. Qed.

Lemma sessions_set_valid user_id s : keeps posts_valid (sessions_set user_id s).
Proof. intros w. exists []. split; [symmetry; apply app_nil_r | constructor]. Qed.

Lemma sessions_pop_valid user_id : keeps posts_valid (sessions_pop user_id).
Proof. intros w. exists []. split; [symmetry; apply app_nil_r | constructor]. Qed.

Lemma session_update_valid user_id f :
  keeps posts_valid (session_update user_id f).
Proof.
  apply keeps_bind.
  - apply posts_valid_trans.
  - apply keeps_session_of, posts_valid_refl.
  - intros s. apply sessions_set_valid.
Qed.

(** Takes a handler apart into its steps. [steps] closes the goals for
    the steps that change the world. *)
Ltac keeps_by Hrefl Htrans steps :=
  repeat first
    [ progress intros
    | progress cbv zeta
    | apply (keeps_ret _ Hrefl)
    | apply (keeps_raise _ Hrefl)
    | apply (keeps_lift _ Hrefl)
    | apply (keeps_sessions_get _ Hrefl)
    | apply (keeps_session_of _ Hrefl)
    | steps
    | apply (keeps_bind _ Htrans)
    | match goal with
      | |- keeps _ (if ?b then _ else _) => destruct b
      | |- keeps _ (match ?x with _ => _ end) => destruct x
      end ].

Ltac elsewhere_steps :=
  first [ apply emit_elsewhere | apply sessions_set_elsewhere
        | apply sessions_pop_elsewhere | apply session_update_elsewhere ].

Ltac elsewhere user_id :=
  keeps_by (same_elsewhere_refl user_id) (same_elsewhere_trans user_id)
           elsewhere_steps.

Ltac valid_steps :=
  first [ apply reply_valid | apply (emit_valid OcrRequest I)
        | apply (emit_valid DistrictsRequest I)
        | apply sessions_set_valid | apply sessions_pop_valid
        | apply session_update_valid ].

Ltac valid := keeps_by posts_valid_refl posts_valid_trans valid_steps.

Lemma edit_menu_elsewhere user_id action :
  keeps (same_elsewhere user_id) (edit_menu_handler user_id action).
Proof. unfold edit_menu_handler, reply. elsewhere user_id. Qed.

Lemma submit_data_elsewhere env user_id :
  keeps (same_elsewhere user_id) (submit_data env user_id).
Proof. unfold submit_data, reply. elsewhere user_id. Qed.

Lemma dispatch_elsewhere env st user_id u h :
  dispatch env st user_id u = Some h -> keeps (same_elsewhere user_id) h.
Proof.
  unfold dispatch, entry_point, state_handler, fallback. intros Hh.
  assert (forall x y : Handler Return,
             Some x = Some y -> keeps (same_elsewhere user_id) x ->
             keeps (same_elsewhere user_id) y) as Hsome
    by (intros x y [= <-] Hx; exact Hx).
  destruct u as [name|text| |data].
  - destruct (name =? "start")%string.
    + eapply Hsome; [exact Hh|]. unfold start, reply. elsewhere user_id.
    + destruct st, (name =? "cancel")%string; (eapply Hsome; [exact Hh|]);
        unfold cancel_handler, fallback_handler, reply; elsewhere user_id.
  - destruct st; try discriminate Hh; (eapply Hsome; [exact Hh|]);
      unfold receive_text_handler, bulk_edit_all_handler,
        receive_single_candidate_vote, add_candidate_name_handler, reply;
      elsewhere user_id.
  - destruct st; try discriminate Hh; (eapply Hsome; [exact Hh|]);
      unfold receive_photo_handler, reply; elsewhere user_id.
  - destruct st; try discriminate Hh; (eapply Hsome; [exact Hh|]);
      try apply edit_menu_elsewhere;
      unfold choose_input_mode_handler, edit_single_candidate_handler,
        remove_candidate_name_handler, select_region_handler,
        select_district_handler, confirm_override_handler, reply;
      keeps_by (same_elsewhere_refl user_id) (same_elsewhere_trans user_id)
        ltac:(first [ elsewhere_steps | apply edit_menu_elsewhere
                    | apply submit_data_elsewhere ]).
Qed.

(** X8: whatever the update, the state and the answers of the services,
    and whether the handler returns or raises, handling an update of one
    user leaves the sessions of all other users as they were. *)
Theorem other_sessions_untouched (env : Env) (st : State) (user_id : Z)
    (u : Update) (w : World) (r : Exc Return * World) :
  handle env st user_id u w = Some r ->
  forall other : Z, other ≠ user_id ->
    user_sessions r.2 !! other = user_sessions w !! other.
Proof.
  unfold handle. intros Hr.
  destruct (dispatch env st user_id u) as [h|] eqn:Hh; [|discriminate Hr].
  injection Hr as <-. apply (dispatch_elsewhere _ _ _ _ _ Hh w).
Qed.

Lemma other_sessions_untouched_witness :
  let s := {| candidates := {[ "Banda" := 3%N ]}; region := None;
              district := None; votes_confirmed := false;
              candidate_to_edit := None |} in
  let w := {| user_sessions := {[ 7%Z := s; 8%Z := s ]}; sent := [] |} in
  user_sessions (cancel_handler 7 w).2 !! 8%Z = user_sessions w !! 8%Z.
Proof.
  intros s w.
  apply (other_sessions_untouched
           {| ocr_http := Failed ""; districts_http := Failed "";
              sheet_http := Failed ""; sender_name := ""; clock := "" |}
           EDIT_MENU 7 (Command "cancel") w (cancel_handler 7 w)).
  - reflexivity.
  - lia.
Defined.

(** ** What is posted to the sheet *)

Lemma truthy_nonempty o : truthy o = true -> default "" o ≠ "".
Proof. destruct o as [[|c s]|]; cbn; congruence. Qed.

Lemma submit_data_valid env user_id :
  keeps posts_valid (submit_data env user_id).
Proof.
  intros w. destruct (user_sessions w !! user_id) as [s|] eqn:Hs.
  - destruct (complete s) eqn:Hc.
    + rewrite (submit_data_complete _ _ _ _ Hs Hc). eexists.
      split; [reflexivity|].
      unfold complete in Hc.
      apply andb_true_iff in Hc as [[Hr Hd]%andb_true_iff Hv].
      apply negb_true_iff, bool_decide_eq_false in Hv.
      repeat constructor; cbn.
      * apply truthy_nonempty, Hr.
      * apply truthy_nonempty, Hd.
      * exact Hv.
    + rewrite (submit_data_incomplete _ _ _ _ Hs Hc). eexists.
      split; [reflexivity | repeat constructor].
  - rewrite (submit_data_missing _ _ _ Hs). eexists.
    split; [reflexivity | repeat constructor].
Qed.

Lemma edit_menu_valid user_id action :
  keeps posts_valid (edit_menu_handler user_id action).
Proof. unfold edit_menu_handler. valid. Qed.

Lemma dispatch_valid env st user_id u h :
  dispatch env st user_id u = Some h -> keeps posts_valid h.
Proof.
  unfold dispatch, entry_point, state_handler, fallback. intros Hh.
  assert (forall x y : Handler Return,
             Some x = Some y -> keeps posts_valid x -> keeps posts_valid y)
    as Hsome by (intros x y [= <-] Hx; exact Hx).
  destruct u as [name|text| |data].
  - destruct (name =? "start")%string.
    + eapply Hsome; [exact Hh|]. unfold start. valid.
    + destruct st, (name =? "cancel")%string; (eapply Hsome; [exact Hh|]);
        unfold cancel_handler, fallback_handler; valid.
  - destruct st; try discriminate Hh; (eapply Hsome; [exact Hh|]);
      unfold receive_text_handler, bulk_edit_all_handler,
        receive_single_candidate_vote, add_candidate_name_handler;
      valid.
  - destruct st; try discriminate Hh; (eapply Hsome; [exact Hh|]);
      unfold receive_photo_handler; valid.
  - destruct st; try discriminate Hh; (eapply Hsome; [exact Hh|]);
      try apply edit_menu_valid;
      unfold choose_input_mode_handler, edit_single_candidate_handler,
        remove_candidate_name_handler, select_region_handler,
        select_district_handler, confirm_override_handler;
      keeps_by posts_valid_refl posts_valid_trans
        ltac:(first [ valid_steps | apply edit_menu_valid
                    | apply submit_data_valid ]).
Qed.

(** X9: whatever the update, the state, the stored sessions and the
    answers of the services, a handler only adds to what was sent, and
    every payload it posts to the sheet has a region and a district that
    are not empty and a tally that is not empty. *)
Theorem posted_payloads_complete (env : Env) (st : State) (user_id : Z)
    (u : Update) (w : World) (r : Exc Return * World) :
  handle env st user_id u w = Some r ->
  exists new,
    sent r.2 = (sent w ++ new)%list
    /\ forall p, SheetRequest p ∈ new ->
         p_region p ≠ "" /\ p_district p ≠ "" /\ p_votes p ≠ ∅.
Proof.
  unfold handle. intros Hr.
  destruct (dispatch env st user_id u) as [h|] eqn:Hh; [|discriminate Hr].
  injection Hr as <-.
  destruct (dispatch_valid _ _ _ _ _ Hh w) as (new & Hsent & Hnew).
  exists new. split; [exact Hsent|]. intros p Hp.
  rewrite Forall_forall in Hnew. apply (Hnew _ Hp).
Qed.

Lemma posted_payloads_complete_witness :
  let env := {| ocr_http := Failed ""; districts_http := Failed "";
                sheet_http := Answered {| success := true; message := None |};
                sender_name := "Agent"; clock := "2025-09-16 18:00:00" |} in
  let s := {| candidates := {[ "Banda" := 3%N ]}; region := Some "Central";
              district := Some "Dowa"; votes_confirmed := false;
              candidate_to_edit := None |} in
  let w := {| user_sessions := {[ 7%Z := s ]}; sent := [] |} in
  exists new,
    sent (confirm_override_handler env 7 "override_yes" w).2
      = (sent w ++ new)%list
    /\ forall p, SheetRequest p ∈ new ->
         p_region p ≠ "" /\ p_district p ≠ "" /\ p_votes p ≠ ∅.
Proof.
  intros env s w.
  apply (posted_payloads_complete env CONFIRM_OVERRIDE 7
           (CallbackQuery "override_yes") w
           (confirm_override_handler env 7 "override_yes" w)).
  reflexivity.
Defined.

(** ** The edits of the tally *)

Lemma startswith_app p c : startswith (p ++ c) p = true.
Proof.
  induction p as [|a p IH]; [destruct c; reflexivity|].
  cbn [String.append startswith]. rewrite Ascii.eqb_refl. exact IH.
Qed.

Lemma remove_from_skip q old c :
  remove_from (String.length q) old (q ++ c) = remove_from 0 old c.
Proof. induction q as [|a q IH]; [reflexivity | exact IH]. Qed.

(** [(p + c).replace(p, "")] goes on in [c] after the first [p]. *)
Lemma remove_all_prefix p c :
  is_empty p = false -> remove_all p (p ++ c) = remove_all p c.
Proof.
  destruct p as [|a p]; [discriminate|]. intros _. unfold remove_all.
  cbn [String.append remove_from].
  rewrite (startswith_app (String a p) c : startswith (String a (p ++ c)) _ = true).
  replace (String.length (String a p) - 1) with (String.length p)
    by (cbn [String.length]; lia).
  apply remove_from_skip.
Qed.

Lemma remove_all_absent p c : contains p c = false -> remove_all p c = c.
Proof.
  unfold remove_all. induction c as [|a c IH]; [reflexivity|].
  cbn [contains]. intros [Hs Hc]%orb_false_iff.
  cbn [remove_from]. rewrite Hs, (IH Hc). reflexivity.
Qed.

Lemma remove_from_length k p s :
  String.length (remove_from k p s) <= String.length s.
Proof.
  revert k. induction s as [|a s IH]; intros k; [reflexivity|].
  cbn [remove_from String.length]. destruct k as [|k].
  - destruct (startswith (String a s) p).
    + specialize (IH (String.length p - 1)). lia.
    + cbn [String.length]. specialize (IH 0). lia.
  - specialize (IH k). lia.
Qed.

Lemma remove_all_shorter p s :
  is_empty p = false -> contains p s = true ->
  String.length (remove_all p s) < String.length s.
Proof.
  intros Hp. unfold remove_all. induction s as [|a s IH].
  - destruct p; discriminate.
  - cbn [contains remove_from String.length].
    destruct (startswith (String a s) p).
    + intros _. pose proof (remove_from_length (String.length p - 1) p s). lia.
    + cbn [orb String.length]. intros Hc. specialize (IH Hc). lia.
Qed.

Lemma decimal_int_acc acc t :
  all_chars is_decimal t = true -> int_acc acc t = inr (digits_value acc t).
Proof.
  revert acc. induction t as [|c t IH]; intros acc; [reflexivity|].
  cbn [all_chars int_acc digits_value]. intros [Hc Ht]%andb_true_iff.
  rewrite Hc. apply IH, Ht.
Qed.

Lemma decimal_count t :
  all_chars is_decimal t = true -> is_empty t = false ->
  too_long t = false ->
  isdigit t = true /\ int t = inr (digits_value 0 t).
Proof.
  intros Hd Hne Hfit. unfold isdigit, int. rewrite Hne, Hfit. split.
  - apply (all_chars_impl _ _ _ decimal_is_digit), Hd.
  - apply decimal_int_acc, Hd.
Qed.

Lemma lstrip_length s : String.length (lstrip s) <= String.length s.
Proof.
  induction s as [|c s IH]; [reflexivity|]. cbn [lstrip].
  destruct (isspace c); cbn [String.length]; lia.
Qed.

Lemma rstrip_length s : String.length (rstrip s) <= String.length s.
Proof.
  induction s as [|c s IH]; [reflexivity|]. cbn [rstrip].
  destruct (isspace c && is_empty (rstrip s)); cbn [String.length]; lia.
Qed.

(** The text of a message, of 4096 characters at most, is never too long
    for [int]. *)
Lemma message_text_fits text :
  String.length text <= 4096 -> too_long (strip text) = false.
Proof.
  intros Hlen. unfold too_long, max_str_digits, strip. apply N.ltb_ge.
  pose proof (rstrip_length (lstrip text)). pose proof (lstrip_length text).
  lia.
Qed.

(** X10: a name sent to be added never changes a count of the tally: the
    name is taken, stripped, only when it is not empty and not a key yet,
    and is then the one key added, at zero; else the tally stays as it is
    and the name is asked for again. *)
Theorem add_candidate_keeps_counts (user_id : Z) (text : string) (w : World)
    (s : Session) :
  user_sessions w !! user_id = Some s ->
  let new_name := strip text in
  let fresh := negb (is_empty new_name)
               && bool_decide (candidates s !! new_name = None) in
  let r := add_candidate_name_handler user_id text w in
  r.1 = inr (Goto (if fresh then EDIT_MENU else ADD_CANDIDATE_NAME))
  /\ exists s',
       user_sessions r.2 !! user_id = Some s'
       /\ (forall c n, candidates s !! c = Some n -> candidates s' !! c = Some n)
       /\ (forall c, candidates s !! c = None ->
             candidates s' !! c
             = if fresh && bool_decide (c = new_name) then Some 0%N else None).
Proof.
  intros Hs new_name fresh r. subst r fresh.
  unfold add_candidate_name_handler. fold new_name.
  destruct (is_empty new_name) eqn:He; run.
  - split; [reflexivity|]. exists s. repeat split; auto.
  - rewrite Hs. destruct (candidates s !! new_name) as [n0|] eqn:Hn.
    + rewrite bool_decide_eq_true_2 by eauto.
      rewrite (bool_decide_eq_false_2 (Some n0 = None)) by discriminate.
      cbn [negb andb fst snd user_sessions]. split; [reflexivity|].
      exists s. repeat split; auto.
    + rewrite bool_decide_eq_false_2 by (intros [? ?]; discriminate).
      rewrite (bool_decide_eq_true_2 (None = None)) by reflexivity.
      rewrite Hs. cbn [negb andb fst snd user_sessions].
      split; [reflexivity|]. eexists. split; [apply lookup_insert_eq|].
      cbn [set_candidates candidates]. split.
      * intros c n Hc. rewrite lookup_insert_ne; [exact Hc|].
        intros <-. rewrite Hn in Hc. discriminate.
      * intros c Hc. destruct (decide (c = new_name)) as [->|Hne].
        -- rewrite bool_decide_eq_true_2 by reflexivity. apply lookup_insert_eq.
        -- rewrite bool_decide_eq_false_2 by exact Hne.
           rewrite lookup_insert_ne by congruence. exact Hc.
Qed.

Lemma add_candidate_keeps_counts_witness :
  let s := {| candidates := {[ "Banda" := 3%N ]}; region := None;
              district := None; votes_confirmed := false;
              candidate_to_edit := None |} in
  let w := {| user_sessions := {[ 7%Z := s ]}; sent := [] |} in
  let r := add_candidate_name_handler 7 "  Phiri " w in
  r.1 = inr (Goto EDIT_MENU)
  /\ exists s',
       user_sessions r.2 !! 7%Z = Some s'
       /\ (forall c n, candidates s !! c = Some n -> candidates s' !! c = Some n)
       /\ (forall c, candidates s !! c = None ->
             candidates s' !! c
             = if true && bool_decide (c = "Phiri") then Some 0%N else None).
Proof.
  intros s w.
  apply (add_candidate_keeps_counts 7 "  Phiri " w s). reflexivity.
Defined.

Lemma remove_token c :
  startswith ("remove_" ++ c) "remove_" = true
  /\ remove_all "remove_" ("remove_" ++ c) = remove_all "remove_" c.
Proof.
  split; [apply startswith_app | apply remove_all_prefix; reflexivity].
Qed.

(** What the handler does on the button of [c], [d] being what is left of
    [c] when every ["remove_"] is taken out of it. *)
Lemma remove_candidate_button user_id c w s :
  user_sessions w !! user_id = Some s ->
  let d := remove_all "remove_" c in
  let r := remove_candidate_name_handler user_id ("remove_" ++ c) w in
  r.1 = inr (Goto EDIT_MENU)
  /\ user_sessions r.2 !! user_id
     = Some (set_candidates (delete d (candidates s)) s).
Proof.
  intros Hs d r. subst r. unfold remove_candidate_name_handler.
  destruct (remove_token c) as [-> ->]. fold d. run. rewrite Hs.
  destruct (candidates s !! d) as [n|] eqn:Hd.
  - rewrite bool_decide_eq_true_2 by eauto. rewrite Hs.
    cbn [fst snd user_sessions]. split; [reflexivity|]. apply lookup_insert_eq.
  - rewrite bool_decide_eq_false_2 by (intros [? ?]; discriminate).
    cbn [fst snd user_sessions]. split; [reflexivity|].
    rewrite Hs, delete_id by exact Hd. destruct s; reflexivity.
Qed.

(** X11: the button of a candidate whose name does not contain
    ["remove_"] takes exactly this candidate out of the tally, the other
    counts and the other fields of the session staying as they are, and
    leads back to the edit menu. *)
Theorem remove_button_removes (user_id : Z) (c : string) (w : World)
    (s : Session) :
  user_sessions w !! user_id = Some s ->
  contains "remove_" c = false ->
  let r := remove_candidate_name_handler user_id ("remove_" ++ c) w in
  r.1 = inr (Goto EDIT_MENU)
  /\ exists s',
       user_sessions r.2 !! user_id = Some s'
       /\ candidates s' !! c = None
       /\ (forall other, other ≠ c ->
             candidates s' !! other = candidates s !! other)
       /\ region s' = region s /\ district s' = district s
       /\ candidate_to_edit s' = candidate_to_edit s.
Proof.
  intros Hs Hc r.
  destruct (remove_candidate_button user_id c w s Hs) as [Hr Hw].
  rewrite (remove_all_absent _ _ Hc) in Hw.
  split; [exact Hr|]. eexists. split; [exact Hw|].
  cbn [set_candidates candidates region district candidate_to_edit].
  split; [apply lookup_delete_eq|].
  split; [|auto]. intros other Ho. apply lookup_delete_ne. congruence.
Qed.

Lemma remove_button_removes_witness :
  let s := {| candidates := {[ "Banda" := 3%N; "Dube" := 5%N ]};
              region := None; district := None; votes_confirmed := false;
              candidate_to_edit := None |} in
  let w := {| user_sessions := {[ 7%Z := s ]}; sent := [] |} in
  let r := remove_candidate_name_handler 7 "remove_Banda" w in
  r.1 = inr (Goto EDIT_MENU)
  /\ exists s',
       user_sessions r.2 !! 7%Z = Some s'
       /\ candidates s' !! "Banda" = None
       /\ (forall other, other ≠ "Banda" ->
             candidates s' !! other = candidates s !! other)
       /\ region s' = region s /\ district s' = district s
       /\ candidate_to_edit s' = candidate_to_edit s.
Proof.
  intros s w.
  apply (remove_button_removes 7 "Banda" w s); reflexivity.
Defined.

(** X13: a candidate whose name contains ["remove_"] is not removed by
    its button: [replace] takes every ["remove_"] out of the token, what is
    left is another name, and the count of the candidate stays in the
    tally. *)
Theorem remove_button_misses (user_id : Z) (c : string) (w : World)
    (s : Session) :
  user_sessions w !! user_id = Some s ->
  contains "remove_" c = true ->
  let r := remove_candidate_name_handler user_id ("remove_" ++ c) w in
  r.1 = inr (Goto EDIT_MENU)
  /\ exists s',
       user_sessions r.2 !! user_id = Some s'
       /\ candidates s' !! c = candidates s !! c.
Proof.
  intros Hs Hc r.
  destruct (remove_candidate_button user_id c w s Hs) as [Hr Hw].
  split; [exact Hr|]. eexists. split; [exact Hw|].
  cbn [set_candidates candidates]. apply lookup_delete_ne.
  intros E. pose proof (remove_all_shorter "remove_" c eq_refl Hc) as Hlen.
  rewrite E in Hlen. lia.
Qed.

Lemma remove_button_misses_witness :
  let s := {| candidates := {[ "remove_me" := 3%N ]};
              region := None; district := None; votes_confirmed := false;
              candidate_to_edit := None |} in
  let w := {| user_sessions := {[ 7%Z := s ]}; sent := [] |} in
  let r := remove_candidate_name_handler 7 "remove_remove_me" w in
  r.1 = inr (Goto EDIT_MENU)
  /\ exists s',
       user_sessions r.2 !! 7%Z = Some s'
       /\ candidates s' !! "remove_me" = candidates s !! "remove_me".
Proof.
  intros s w.
  apply (remove_button_misses 7 "remove_me" w s); reflexivity.
Defined.

Lemma edit_button_selects user_id c w s :
  user_sessions w !! user_id = Some s ->
  contains "edit_" c = false ->
  edit_single_candidate_handler user_id ("edit_" ++ c) w
  = (inr (Goto EDIT_SINGLE_CANDIDATE),
     {| user_sessions :=
          <[user_id := set_candidate_to_edit (Some c) s]> (user_sessions w);
        sent := sent w ++ [Reply (SendNewCount c)] |}).
Proof.
  intros Hs Hc. unfold edit_single_candidate_handler.
  rewrite (startswith_app "edit_" c).
  rewrite (remove_all_prefix "edit_" c eq_refl), (remove_all_absent _ _ Hc).
  run. rewrite Hs. reflexivity.
Qed.

Lemma count_received user_id c text w s :
  user_sessions w !! user_id = Some s ->
  candidate_to_edit s = Some c ->
  is_empty c = false ->
  all_chars is_decimal (strip text) = true ->
  is_empty (strip text) = false ->
  too_long (strip text) = false ->
  receive_single_candidate_vote user_id text w
  = (inr (Goto EDIT_MENU),
     {| user_sessions :=
          <[user_id :=
              set_candidate_to_edit None
                (set_candidates
                   (<[c := digits_value 0 (strip text)]> (candidates s)) s)]>
            (user_sessions w);
        sent := sent w ++ [Reply (UpdatedCandidate c (strip text))] |}).
Proof.
  intros Hs Hsel Hne Hd Ht Hfit.
  destruct (decimal_count _ Hd Ht Hfit) as [Hdigit Hint].
  unfold receive_single_candidate_vote. run. rewrite Hs, Hsel.
  cbn [truthy default]. rewrite Hne. cbn [negb id].
  rewrite Hdigit, Hint. cbn [negb]. rewrite Hs.
  cbn [user_sessions sent]. rewrite lookup_insert_eq.
  cbn [user_sessions sent]. rewrite insert_insert_eq. reflexivity.
Qed.

(** X12: the button of a candidate, then a count: for a name that is not
    empty and does not contain ["edit_"], and a text that is a string of
    decimal digits once stripped, of 4300 digits at most as the text of
    every message is, the two updates lead back to the edit menu with the
    count stored under this name, the other counts and fields as they were
    and no candidate selected any more. *)
Theorem edit_button_then_count (env : Env) (user_id : Z) (c text : string)
    (w : World) (s : Session) :
  user_sessions w !! user_id = Some s ->
  is_empty c = false ->
  contains "edit_" c = false ->
  all_chars is_decimal (strip text) = true ->
  is_empty (strip text) = false ->
  too_long (strip text) = false ->
  exists w1 w2 s2,
    handle env EDIT_SINGLE_CANDIDATE user_id (CallbackQuery ("edit_" ++ c)) w
      = Some (inr (Goto EDIT_SINGLE_CANDIDATE), w1)
    /\ handle env EDIT_SINGLE_CANDIDATE user_id (TextMessage text) w1
       = Some (inr (Goto EDIT_MENU), w2)
    /\ user_sessions w2 !! user_id = Some s2
    /\ candidates s2 = <[c := digits_value 0 (strip text)]> (candidates s)
    /\ candidate_to_edit s2 = None
    /\ region s2 = region s /\ district s2 = district s.
Proof.
  intros Hs Hne Hc Hd Ht Hfit.
  unfold handle, dispatch. cbn [entry_point state_handler].
  rewrite (edit_button_selects _ _ _ _ Hs Hc).
  eexists. eexists. eexists. split; [reflexivity|].
  rewrite (count_received user_id c text _
             (set_candidate_to_edit (Some c) s));
    [ | apply lookup_insert_eq | reflexivity | exact Hne | exact Hd | exact Ht
      | exact Hfit ].
  split; [reflexivity|]. cbn [user_sessions].
  split; [apply lookup_insert_eq|]. repeat split.
Qed.

Lemma edit_button_then_count_witness :
  let env := {| ocr_http := Failed ""; districts_http := Failed "";
                sheet_http := Failed ""; sender_name := ""; clock := "" |} in
  let s := {| candidates := {[ "Banda" := 3%N ]}; region := None;
              district := None; votes_confirmed := false;
              candidate_to_edit := None |} in
  let w := {| user_sessions := {[ 7%Z := s ]}; sent := [] |} in
  exists w1 w2 s2,
    handle env EDIT_SINGLE_CANDIDATE 7 (CallbackQuery ("edit_" ++ "Banda")) w
      = Some (inr (Goto EDIT_SINGLE_CANDIDATE), w1)
    /\ handle env EDIT_SINGLE_CANDIDATE 7 (TextMessage " 0412 ") w1
       = Some (inr (Goto EDIT_MENU), w2)
    /\ user_sessions w2 !! 7%Z = Some s2
    /\ candidates s2 = <[ "Banda" := digits_value 0 (strip " 0412 ")]> (candidates s)
    /\ candidate_to_edit s2 = None
    /\ region s2 = region s /\ district s2 = district s.
Proof.
  intros env s w.
  apply (edit_button_then_count env 7 "Banda" " 0412 " w s); reflexivity.
Defined.

(** ** The choice of the district *)

Lemma district_token dist :
  contains "district_" dist = false ->
  startswith ("district_" ++ dist) "district_" = true
  /\ remove_all "district_" ("district_" ++ dist) = dist.
Proof.
  intros Hc. split; [apply startswith_app|].
  rewrite (remove_all_prefix "district_" dist eq_refl).
  apply remove_all_absent, Hc.
Qed.

(** The two ways the handler takes on the button of a district. *)
Lemma select_district_button env user_id dist w s :
  user_sessions w !! user_id = Some s ->
  contains "district_" dist = false ->
  let w1 := {| user_sessions := <[user_id := set_district dist s]> (user_sessions w);
               sent := sent w ++ [DistrictsRequest] |} in
  select_district_handler env user_id ("district_" ++ dist) w
  = if bool_decide (lower dist ∈ get_submitted_districts env)
    then (inr (Goto CONFIRM_OVERRIDE),
          {| user_sessions := user_sessions w1;
             sent := sent w1 ++ [Reply (OverrideQuestion dist)] |})
    else submit_data env user_id
           {| user_sessions := user_sessions w1;
              sent := sent w1 ++ [Reply (DistrictSelected dist)] |}.
Proof.
  intros Hs Hc w1. unfold select_district_handler.
  destruct (district_token dist Hc) as [-> ->]. run. rewrite Hs.
  destruct (bool_decide (lower dist ∈ get_submitted_districts env));
    reflexivity.
Qed.

Lemma submit_data_ends env user_id w : (submit_data env user_id w).1 = inr END.
Proof.
  destruct (user_sessions w !! user_id) as [s|] eqn:Hs.
  - destruct (complete s) eqn:Hc.
    + rewrite (submit_data_complete _ _ _ _ Hs Hc). reflexivity.
    + rewrite (submit_data_incomplete _ _ _ _ Hs Hc). reflexivity.
  - rewrite (submit_data_missing _ _ _ Hs). reflexivity.
Qed.

(** X14: on the button of a district, the override question is asked
    exactly when the sheet answered with a district that is this one up to
    letter case; nothing is posted before the question; in every other
    case, a failed query among them, the handler goes on to the submission
    and ends the conversation. *)
Theorem override_asked_up_to_case (env : Env) (user_id : Z) (dist : string)
    (w : World) (s : Session) :
  user_sessions w !! user_id = Some s ->
  contains "district_" dist = false ->
  let r := select_district_handler env user_id ("district_" ++ dist) w in
  let known := exists districts d,
                 districts_http env = Answered districts
                 /\ d ∈ districts /\ lower d = lower dist in
  (known ->
     r.1 = inr (Goto CONFIRM_OVERRIDE)
     /\ sent r.2
        = (sent w ++ [DistrictsRequest; Reply (OverrideQuestion dist)])%list)
  /\ (~ known -> r.1 = inr END).
Proof.
  intros Hs Hc r known. subst r.
  rewrite (select_district_button env user_id dist w s Hs Hc).
  assert (lower dist ∈ get_submitted_districts env <-> known) as Hk.
  { unfold get_submitted_districts, known.
    destruct (districts_http env) as [e|districts].
    - split; [intros H; inversion H | intros (? & ? & [=] & _)].
    - rewrite list_elem_of_fmap. split.
      + intros (d & Hd & Hin). exists districts, d. auto.
      + intros (ds & d & [= <-] & Hin & Hd). exists d. auto. }
  split.
  - intros Hknown. rewrite bool_decide_eq_true_2 by (apply Hk, Hknown).
    cbn [fst snd user_sessions sent]. rewrite <- app_assoc.
    split; reflexivity.
  - intros Hnot. rewrite bool_decide_eq_false_2 by (rewrite Hk; exact Hnot).
    apply submit_data_ends.
Qed.

Lemma override_asked_up_to_case_witness :
  let env := {| ocr_http := Failed "";
                districts_http := Answered ["DOWA"; "Salima"];
                sheet_http := Failed ""; sender_name := ""; clock := "" |} in
  let s := {| candidates := {[ "Banda" := 3%N ]}; region := Some "Central";
              district := None; votes_confirmed := false;
              candidate_to_edit := None |} in
  let w := {| user_sessions := {[ 7%Z := s ]}; sent := [] |} in
  let r := select_district_handler env 7 ("district_" ++ "Dowa") w in
  r.1 = inr (Goto CONFIRM_OVERRIDE)
  /\ sent r.2
     = (sent w ++ [DistrictsRequest; Reply (OverrideQuestion "Dowa")])%list.
Proof.
  intros env s w.
  apply (override_asked_up_to_case env 7 "Dowa" w s); [reflexivity..|].
  exists ["DOWA"; "Salima"], "DOWA".
  split; [reflexivity|]. split; [left | reflexivity].
Defined.

Lemma tokens_build_keyboard rows :
  tokens (build_keyboard rows) = snd <$> concat rows.
Proof.
  unfold tokens, build_keyboard.
  induction rows as [|row rows IH]; [reflexivity|].
  cbn [fmap list_fmap concat]. rewrite !fmap_app, <- IH.
  f_equal. rewrite <- list_fmap_compose. reflexivity.
Qed.

Lemma concat_build_keyboard rows :
  concat (build_keyboard rows)
  = (fun b => {| label := fst b; callback_data := snd b |}) <$> concat rows.
Proof.
  unfold build_keyboard. induction rows as [|row rows IH]; [reflexivity|].
  cbn [fmap list_fmap concat]. rewrite fmap_app. f_equal. exact IH.
Qed.

Lemma concat_district_rows submitted districts :
  concat (district_row submitted <$> districts)
  = (fun dist =>
       ((if bool_decide (lower dist ∈ submitted)
         then [Words dist; Words " "; Pic CheckIcon]
         else [Words dist]),
        "district_" ++ dist)) <$> districts.
Proof.
  induction districts as [|d districts IH]; [reflexivity|].
  cbn [fmap list_fmap concat district_row app]. f_equal. exact IH.
Qed.

Lemma district_token_inj a b : "district_" ++ a = "district_" ++ b -> a = b.
Proof. cbn. intros [= ->]. reflexivity. Qed.

(** The button of a district of the region carries the check mark exactly
    when the district, in lower case, is among the submitted ones. *)
Lemma marked_submitted region submitted dist :
  dist ∈ dict_get districts_map region ->
  marked (build_districts_keyboard region submitted) dist
  = bool_decide (lower dist ∈ submitted).
Proof.
  intros Hin. unfold marked, build_districts_keyboard.
  rewrite concat_build_keyboard, concat_app, concat_district_rows.
  rewrite fmap_app, existsb_app, <- list_fmap_compose.
  cbn [concat app fmap list_fmap fst snd existsb label callback_data
       cancel_button]. cbn [String.eqb String.append Ascii.eqb Bool.eqb andb orb].
  rewrite orb_false_r.
  destruct (bool_decide (lower dist ∈ submitted)) eqn:Hsub.
  - apply existsb_exists. exists
      {| label := [Words dist; Words " "; Pic CheckIcon];
         callback_data := "district_" ++ dist |}.
    split.
    + apply list_elem_of_In, list_elem_of_fmap. exists dist.
      split; [|exact Hin]. cbn. rewrite Hsub. reflexivity.
    + cbn [callback_data label]. rewrite String.eqb_refl. reflexivity.
  - apply not_true_is_false. intros (b & Hb & Hm)%existsb_exists.
    apply list_elem_of_In, list_elem_of_fmap in Hb as (d & -> & _).
    cbn [compose fst snd callback_data label] in Hm.
    apply andb_true_iff in Hm as [Heq Hcheck].
    apply String.eqb_eq, district_token_inj in Heq. subst d.
    rewrite Hsub in Hcheck. discriminate Hcheck.
Qed.

Lemma districts_plain :
  Forall (fun row => Forall (fun dist => contains "district_" dist = false)
                            row.2)
         districts_map.
Proof. repeat constructor. Qed.

Lemma dict_get_plain region dist :
  dist ∈ dict_get districts_map region -> contains "district_" dist = false.
Proof.
  pose proof districts_plain as Hall. revert Hall.
  generalize districts_map. intros d. induction d as [|[k v] d IH];
    intros Hall Hin; [inversion Hin|].
  cbn [dict_get] in Hin. inversion Hall as [|? ? Hv Hd]; subst.
  destruct (region =? k)%string.
  - cbn [snd] in Hv. rewrite Forall_forall in Hv. apply Hv, Hin.
  - apply IH; assumption.
Qed.

(** X17: the check mark on the button of a district, in the keyboard
    built from the answer of the sheet, tells what the handler does on this
    button with the same answer: the override question is asked exactly
    for the districts that carry the mark. *)
Theorem check_mark_announces_override (env : Env) (user_id : Z)
    (region dist : string) (w : World) (s : Session) :
  user_sessions w !! user_id = Some s ->
  dist ∈ dict_get districts_map region ->
  marked (build_districts_keyboard region (get_submitted_districts env)) dist
    = true
  <-> (select_district_handler env user_id ("district_" ++ dist) w).1
      = inr (Goto CONFIRM_OVERRIDE).
Proof.
  intros Hs Hin.
  rewrite (marked_submitted region _ dist Hin).
  rewrite (select_district_button env user_id dist w s Hs
             (dict_get_plain region dist Hin)).
  destruct (bool_decide (lower dist ∈ get_submitted_districts env)).
  - split; reflexivity.
  - rewrite submit_data_ends. split; discriminate.
Qed.

Lemma check_mark_announces_override_witness :
  let env := {| ocr_http := Failed "";
                districts_http := Answered ["DOWA"; "Salima"];
                sheet_http := Failed ""; sender_name := ""; clock := "" |} in
  let s := {| candidates := {[ "Banda" := 3%N ]}; region := Some "Central";
              district := None; votes_confirmed := false;
              candidate_to_edit := None |} in
  let w := {| user_sessions := {[ 7%Z := s ]}; sent := [] |} in
  marked (build_districts_keyboard "Central" (get_submitted_districts env))
         "Dowa" = true
  <-> (select_district_handler env 7 ("district_" ++ "Dowa") w).1
      = inr (Goto CONFIRM_OVERRIDE).
Proof.
  intros env s w.
  apply (check_mark_announces_override env 7 "Central" "Dowa" w s).
  - reflexivity.
  - apply list_elem_of_In. cbn. tauto.
Defined.

(** *** The keyboards sent with the replies *)

Lemma candidates_tokens_recognized prefix votes st :
  (forall c, recognized st (prefix ++ c) = true) ->
  recognized st "back_edit_menu" = true ->
  recognized st "cancel" = true ->
  Forall (fun t => recognized st t = true)
         (tokens (candidates_keyboard prefix votes)).
Proof.
  intros Hp Hb Hc. unfold candidates_keyboard.
  rewrite tokens_build_keyboard, concat_app, fmap_app.
  apply Forall_app. split; [|repeat constructor; assumption].
  induction ((map_to_list votes).*1) as [|c l IH]; [constructor|].
  cbn [fmap list_fmap concat app snd]. constructor; [apply Hp | exact IH].
Qed.

Lemma districts_tokens_recognized region submitted :
  Forall (fun t => recognized SELECT_DISTRICT t = true)
         (tokens (build_districts_keyboard region submitted)).
Proof.
  unfold build_districts_keyboard.
  rewrite tokens_build_keyboard, concat_app, fmap_app.
  apply Forall_app. split; [|repeat constructor].
  rewrite concat_district_rows, <- list_fmap_compose.
  apply Forall_fmap, Forall_forall. intros d _. cbn [compose snd recognized].
  rewrite (startswith_app "district_" d). reflexivity.
Qed.

(** The tokens of the keyboard of a message have their branches in the
    handlers of [keyboard_state]. *)
Lemma markup_recognized m st :
  keyboard_state m = Some st ->
  Forall (fun t => recognized st t = true) (tokens (reply_markup m)).
Proof.
  destruct m; cbn [keyboard_state]; intros [= <-]; cbn [reply_markup];
    try (repeat constructor; fail);
    try apply districts_tokens_recognized.
  - apply candidates_tokens_recognized; [|reflexivity..].
    intros c. cbn [recognized]. rewrite (startswith_app "edit_" c). reflexivity.
  - apply candidates_tokens_recognized; [|reflexivity..].
    intros c. cbn [recognized]. rewrite (startswith_app "remove_" c).
    reflexivity.
  - destruct r; [apply districts_tokens_recognized | repeat constructor].
  - destruct r; [apply districts_tokens_recognized | repeat constructor].
Qed.

Lemma markup_none m : keyboard_state m = None -> reply_markup m = [].
Proof. destruct m; cbn [keyboard_state]; try discriminate; reflexivity. Qed.

(** What the effects [new] offer is recognized in [st]; the edit menu
    sent by the removal handler while its state stays is set apart. *)
Lemma offers_recognized st (new : list Effect) :
  Forall (fun e => match e with
                   | Reply m =>
                       keyboard_state m = None
                       \/ keyboard_state m = Some st
                       \/ (m = SelectValidCandidateMenu
                           /\ st = REMOVE_CANDIDATE_NAME)
                   | _ => True
                   end) new ->
  forall m t, Reply m ∈ new -> t ∈ tokens (reply_markup m) ->
    recognized st t = true
    \/ (m = SelectValidCandidateMenu /\ st = REMOVE_CANDIDATE_NAME).
Proof.
  intros Hall m t Hm Ht. rewrite Forall_forall in Hall.
  destruct (Hall _ Hm) as [Hnone|[Hsome|Hex]].
  - rewrite (markup_none m Hnone) in Ht. inversion Ht.
  - left. pose proof (markup_recognized m st Hsome) as Hrec.
    rewrite Forall_forall in Hrec. apply Hrec, Ht.
  - right. exact Hex.
Qed.

Ltac run_in H :=
  cbv [mbind handler_bind mret handler_ret reply emit raise lift
       sessions_get session_of sessions_set session_update sessions_pop] in H;
  cbv beta iota zeta in H; cbn [user_sessions sent] in H.

(** Follows every branch of a handler that returned [Goto st']. *)
Ltac branches H :=
  repeat first
    [ discriminate H
    | progress (cbv beta iota zeta in H; cbn [user_sessions sent] in H)
    | rewrite lookup_insert_eq in H
    | match type of H with
      | context [if ?b then _ else _] => destruct b
      | context [match user_sessions ?w !! ?u with _ => _ end] =>
          destruct (user_sessions w !! u)
      | context [match extract_votes ?t with _ => _ end] =>
          destruct (extract_votes t)
      | context [match for_each ?f ?a ?l with _ => _ end] =>
          destruct (for_each f a l)
      | context [match int ?t with _ => _ end] => destruct (int t)
      | context [match ?o with Some _ => _ | None => _ end] => destruct o
      end ].

Ltac offers :=
  eexists; split;
    [ cbn [sent]; rewrite <- ?app_assoc; reflexivity
    | apply offers_recognized; cbn [app];
      repeat (apply Forall_cons_2;
              [ first [ exact I | left; reflexivity | right; left; reflexivity
                      | right; right; split; reflexivity ] | ]);
      apply Forall_nil_2 ].

Ltac offered H := run_in H; branches H; injection H as <- <-; offers.

Lemma edit_menu_offers user_id action w st' w' :
  edit_menu_handler user_id action w = (inr (Goto st'), w') ->
  exists new,
    sent w' = (sent w ++ new)%list
    /\ forall m t, Reply m ∈ new -> t ∈ tokens (reply_markup m) ->
         recognized st' t = true
         \/ (m = SelectValidCandidateMenu /\ st' = REMOVE_CANDIDATE_NAME).
Proof. intros H. unfold edit_menu_handler in H. offered H. Qed.

Lemma submit_data_never_goes env user_id w st' w' :
  submit_data env user_id w = (inr (Goto st'), w') -> False.
Proof. intros H. pose proof (submit_data_ends env user_id w) as E.
  rewrite H in E. discriminate E. Qed.

(** X16: every keyboard a handler sends offers only tokens that the
    handlers of the state it returns have a branch for, so that no button
    leads to the answer for an unknown option, with one exception: in the
    state where a candidate is removed, the answer to an unknown token
    carries the edit menu while the state stays (lines 431 to 433). *)
Theorem offered_tokens_recognized (env : Env) (st : State) (user_id : Z)
    (u : Update) (w w' : World) (st' : State) :
  handle env st user_id u w = Some (inr (Goto st'), w') ->
  exists new,
    sent w' = (sent w ++ new)%list
    /\ forall m t, Reply m ∈ new -> t ∈ tokens (reply_markup m) ->
         recognized st' t = true
         \/ (m = SelectValidCandidateMenu /\ st' = REMOVE_CANDIDATE_NAME).
Proof.
  unfold handle, dispatch, entry_point, state_handler, fallback. intros H.
  destruct u as [name|text| |data].
  - destruct (name =? "start")%string.
    + apply (inj Some) in H. unfold start in H. offered H.
    + destruct st, (name =? "cancel")%string; apply (inj Some) in H;
        unfold cancel_handler, fallback_handler in H; run_in H;
        discriminate H.
  - destruct st; try discriminate H; apply (inj Some) in H;
      unfold receive_text_handler, bulk_edit_all_handler,
        receive_single_candidate_vote, add_candidate_name_handler in H;
      offered H.
  - destruct st; try discriminate H; apply (inj Some) in H;
      unfold receive_photo_handler in H; offered H.
  - destruct st; try discriminate H; apply (inj Some) in H.
    + unfold choose_input_mode_handler in H. offered H.
    + apply (edit_menu_offers _ _ _ _ _ H).
    + unfold edit_single_candidate_handler in H.
      destruct (startswith data "edit_"); [offered H|].
      destruct (data =? "back_edit_menu")%string;
        [apply (edit_menu_offers _ _ _ _ _ H) | offered H].
    + unfold remove_candidate_name_handler in H.
      destruct (startswith data "remove_"); [offered H|].
      destruct (data =? "back_edit_menu")%string;
        [apply (edit_menu_offers _ _ _ _ _ H) | offered H].
    + unfold select_region_handler in H. offered H.
    + unfold select_district_handler in H.
      destruct (startswith data "district_").
      * run_in H. branches H.
        -- offered H.
        -- exfalso. eapply submit_data_never_goes, H.
      * offered H.
    + unfold confirm_override_handler in H.
      destruct (data =? "override_yes")%string; [|offered H].
      run_in H. exfalso. eapply submit_data_never_goes, H.
Qed.

Lemma offered_tokens_recognized_witness :
  let env := {| ocr_http := Failed ""; districts_http := Failed "";
                sheet_http := Failed ""; sender_name := ""; clock := "" |} in
  let s := {| candidates := {[ "Banda" := 3%N ]}; region := None;
              district := None; votes_confirmed := false;
              candidate_to_edit := None |} in
  let w := {| user_sessions := {[ 7%Z := s ]}; sent := [] |} in
  let w' := (edit_menu_handler 7 "edit_individual" w).2 in
  exists new,
    sent w' = (sent w ++ new)%list
    /\ forall m t, Reply m ∈ new -> t ∈ tokens (reply_markup m) ->
         recognized EDIT_SINGLE_CANDIDATE t = true
         \/ (m = SelectValidCandidateMenu
             /\ EDIT_SINGLE_CANDIDATE = REMOVE_CANDIDATE_NAME).
Proof.
  intros env s w w'.
  apply (offered_tokens_recognized env EDIT_MENU 7
           (CallbackQuery "edit_individual") w w' EDIT_SINGLE_CANDIDATE).
  reflexivity.
Defined.

(** X24: the exception is met: in the state where a candidate is removed,
    a token without a branch is answered with the edit menu and the state
    stays, whatever the session; of the buttons of this menu, four have no
    branch in this state and are answered the same way again, and the one
    named to remove a candidate is read as the removal of a candidate
    called "candidate". *)
Theorem edit_menu_in_removal_state (env : Env) (user_id : Z) (data : string)
    (w : World) :
  recognized REMOVE_CANDIDATE_NAME data = false ->
  handle env REMOVE_CANDIDATE_NAME user_id (CallbackQuery data) w
    = Some (inr (Goto REMOVE_CANDIDATE_NAME),
            {| user_sessions := user_sessions w;
               sent := sent w ++ [Reply SelectValidCandidateMenu] |})
  /\ reply_markup SelectValidCandidateMenu = build_edit_menu_keyboard
  /\ Forall (fun t => t ∈ tokens build_edit_menu_keyboard
                      /\ recognized REMOVE_CANDIDATE_NAME t = false)
            [ "bulk_edit"; "edit_individual"; "add_candidate"; "submit_votes" ]
  /\ "remove_candidate" ∈ tokens build_edit_menu_keyboard
  /\ startswith "remove_candidate" "remove_" = true
  /\ remove_all "remove_" "remove_candidate" = "candidate".
Proof.
  intros Hrec. cbn [recognized] in Hrec.
  apply orb_false_iff in Hrec as [[Hp Hb]%orb_false_iff Hc].
  split.
  - unfold handle, dispatch. cbn [entry_point state_handler].
    unfold remove_candidate_name_handler. rewrite Hp, Hb, Hc. reflexivity.
  - split; [reflexivity|]. split.
    + repeat (apply Forall_cons_2;
              [split; [apply list_elem_of_In; cbn; tauto | reflexivity]|]).
      apply Forall_nil_2.
    + split; [apply list_elem_of_In; cbn; tauto|]. split; reflexivity.
Qed.

Lemma edit_menu_in_removal_state_witness :
  handle {| ocr_http := Failed ""; districts_http := Failed "";
            sheet_http := Failed ""; sender_name := ""; clock := "" |}
    REMOVE_CANDIDATE_NAME 7 (CallbackQuery "submit_votes")
    {| user_sessions := ∅; sent := [] |}
  = Some (inr (Goto REMOVE_CANDIDATE_NAME),
          {| user_sessions := ∅; sent := [Reply SelectValidCandidateMenu] |}).
Proof.
  apply (edit_menu_in_removal_state _ 7 "submit_votes"
           {| user_sessions := ∅; sent := [] |}).
  reflexivity.
Defined.

Lemma posted_app l1 l2 : posted (l1 ++ l2) = (posted l1 ++ posted l2)%list.
Proof. apply omap_app. Qed.

(** A submission of a complete session posts its fields, once, and
    removes the session, whatever the sheet answers. *)
Lemma submit_data_posts env user_id w s :
  user_sessions w !! user_id = Some s -> complete s = true ->
  let r := submit_data env user_id w in
  r.1 = inr END
  /\ posted (sent r.2)
     = (posted (sent w)
        ++ [ {| p_region := default "" (region s);
                p_district := default "" (district s);
                p_timestamp := clock env; p_sender := sender_name env;
                p_votes := candidates s |} ])%list
  /\ user_sessions r.2 !! user_id = None.
Proof.
  intros Hs Hc r. subst r. rewrite (submit_data_complete _ _ _ _ Hs Hc).
  cbn [fst snd user_sessions sent]. split; [reflexivity|].
  split; [|apply lookup_delete_eq].
  rewrite posted_app. f_equal.
Qed.

Lemma select_region_button env user_id reg w s :
  user_sessions w !! user_id = Some s ->
  contains "region_" reg = false ->
  select_region_handler env user_id ("region_" ++ reg) w
  = (inr (Goto SELECT_DISTRICT),
     {| user_sessions := <[user_id := set_region reg s]> (user_sessions w);
        sent := sent w ++ [ DistrictsRequest;
                            Reply (RegionSelected reg
                                     (get_submitted_districts env)) ] |}).
Proof.
  intros Hs Hc. unfold select_region_handler.
  rewrite (startswith_app "region_" reg).
  rewrite (remove_all_prefix "region_" reg eq_refl), (remove_all_absent _ _ Hc).
  run. rewrite Hs. cbn [user_sessions sent]. rewrite <- app_assoc.
  reflexivity.
Qed.

(** X18: the button of a region, then the button of a district, for a
    session whose tally is not empty: the two updates end in one post that
    carries this region, this district and the tally of the session, and
    in the removal of the session: at once when the district, in lower
    case, is not among the submitted ones, and else only after the override
    is confirmed, the question being asked first with nothing posted. *)
Theorem chosen_place_is_posted (env1 env2 env3 : Env) (user_id : Z)
    (reg dist : string) (w : World) (s : Session) :
  user_sessions w !! user_id = Some s ->
  candidates s ≠ ∅ ->
  is_empty reg = false -> contains "region_" reg = false ->
  is_empty dist = false -> contains "district_" dist = false ->
  let payload e :=
    {| p_region := reg; p_district := dist;
       p_timestamp := clock e; p_sender := sender_name e;
       p_votes := candidates s |} in
  exists w1 r,
    handle env1 SELECT_REGION user_id (CallbackQuery ("region_" ++ reg)) w
      = Some (inr (Goto SELECT_DISTRICT), w1)
    /\ posted (sent w1) = posted (sent w)
    /\ handle env2 SELECT_DISTRICT user_id
         (CallbackQuery ("district_" ++ dist)) w1 = Some r
    /\ if bool_decide (lower dist ∈ get_submitted_districts env2)
       then
         r.1 = inr (Goto CONFIRM_OVERRIDE)
         /\ posted (sent r.2) = posted (sent w)
         /\ exists r',
              handle env3 CONFIRM_OVERRIDE user_id
                (CallbackQuery "override_yes") r.2 = Some r'
              /\ r'.1 = inr END
              /\ posted (sent r'.2)
                 = (posted (sent w) ++ [payload env3])%list
              /\ user_sessions r'.2 !! user_id = None
       else
         r.1 = inr END
         /\ posted (sent r.2) = (posted (sent w) ++ [payload env2])%list
         /\ user_sessions r.2 !! user_id = None.
Proof.
  intros Hs Hv Hreg Hcr Hdist Hcd payload.
  set (s2 := set_district dist (set_region reg s)).
  assert (complete s2 = true) as Hcomplete.
  { unfold complete.
    cbn [s2 set_district set_region region district candidates truthy].
    rewrite Hreg, Hdist. rewrite bool_decide_eq_false_2 by exact Hv.
    reflexivity. }
  assert (forall e w', user_sessions w' !! user_id = Some s2 ->
            let r := submit_data e user_id w' in
            r.1 = inr END
            /\ posted (sent r.2) = (posted (sent w') ++ [payload e])%list
            /\ user_sessions r.2 !! user_id = None) as Hsubmit.
  { intros e w' Hw'. apply (submit_data_posts e user_id w' s2 Hw' Hcomplete). }
  unfold handle, dispatch. cbn [entry_point state_handler].
  rewrite (select_region_button env1 user_id reg w s Hs Hcr).
  eexists. eexists. split; [reflexivity|]. cbn [sent].
  split; [rewrite posted_app; cbn; apply app_nil_r|].
  split; [reflexivity|].
  rewrite (select_district_button env2 user_id dist _ (set_region reg s)
             (lookup_insert_eq _ _ _) Hcd).
  cbn [user_sessions sent]. fold s2.
  destruct (bool_decide (lower dist ∈ get_submitted_districts env2)).
  - cbn [fst snd sent user_sessions].
    split; [reflexivity|]. split.
    { rewrite !posted_app. cbn. rewrite !app_nil_r. reflexivity. }
    eexists. split; [reflexivity|].
    unfold confirm_override_handler. cbn [String.eqb Ascii.eqb Bool.eqb].
    run.
    match goal with
    | |- context [submit_data env3 user_id ?w'] =>
        destruct (Hsubmit env3 w') as (E1 & E2 & E3);
        [apply lookup_insert_eq |]
    end.
    cbn [sent user_sessions] in E2.
    split; [exact E1|]. split; [|exact E3].
    rewrite E2, !posted_app. cbn. rewrite !app_nil_r. reflexivity.
  - match goal with
    | |- context [submit_data env2 user_id ?w'] =>
        destruct (Hsubmit env2 w') as (E1 & E2 & E3);
        [apply lookup_insert_eq |]
    end.
    cbn [sent user_sessions] in E2.
    split; [exact E1|]. split; [|exact E3].
    rewrite E2, !posted_app. cbn. rewrite !app_nil_r. reflexivity.
Qed.

Lemma chosen_place_is_posted_witness :
  let env := {| ocr_http := Failed ""; districts_http := Answered ["DOWA"];
                sheet_http := Failed "down"; sender_name := "Agent";
                clock := "2025-09-16 18:00:00" |} in
  let s := {| candidates := {[ "Banda" := 3%N ]}; region := None;
              district := None; votes_confirmed := false;
              candidate_to_edit := None |} in
  let w := {| user_sessions := {[ 7%Z := s ]}; sent := [] |} in
  let payload e :=
    {| p_region := "Central"; p_district := "Dowa";
       p_timestamp := clock e; p_sender := sender_name e;
       p_votes := candidates s |} in
  exists w1 r,
    handle env SELECT_REGION 7 (CallbackQuery ("region_" ++ "Central")) w
      = Some (inr (Goto SELECT_DISTRICT), w1)
    /\ posted (sent w1) = posted (sent w)
    /\ handle env SELECT_DISTRICT 7
         (CallbackQuery ("district_" ++ "Dowa")) w1 = Some r
    /\ r.1 = inr (Goto CONFIRM_OVERRIDE)
    /\ posted (sent r.2) = posted (sent w)
    /\ exists r',
         handle env CONFIRM_OVERRIDE 7
           (CallbackQuery "override_yes") r.2 = Some r'
         /\ r'.1 = inr END
         /\ posted (sent r'.2) = (posted (sent w) ++ [payload env])%list
         /\ user_sessions r'.2 !! 7%Z = None.
Proof.
  intros env s w.
  apply (chosen_place_is_posted env env env 7 "Central" "Dowa" w s);
    try reflexivity.
  apply (bool_decide_unpack (candidates s ≠ ∅)). vm_compute. exact I.
Defined.

(** ** A photo is handled as its text *)

(** X19: a photo the recognition service turns into a text that is not
    empty is handled as this text sent as a message: the handler returns
    or raises the same and leaves the same sessions; only the replies
    differ. *)
Theorem photo_handled_as_text (env : Env) (user_id : Z) (text : string)
    (w : World) :
  ocr_http env = Answered (Some text) ->
  is_empty text = false ->
  let p := receive_photo_handler env user_id true w in
  let t := receive_text_handler user_id text w in
  p.1 = t.1 /\ user_sessions p.2 = user_sessions t.2.
Proof.
  intros Hocr Hne p t. subst p t.
  unfold receive_photo_handler, receive_text_handler, ocr_image.
  rewrite Hocr. cbn [negb truthy default]. rewrite Hne. cbn [negb id].
  destruct (extract_votes text) as [e|votes]; run; [split; reflexivity|].
  destruct (bool_decide (votes = ∅)); run; [split; reflexivity|].
  destruct (user_sessions w !! user_id); split; reflexivity.
Qed.

Lemma photo_handled_as_text_witness :
  let env := {| ocr_http := Answered (Some "Banda: 12");
                districts_http := Failed ""; sheet_http := Failed "";
                sender_name := ""; clock := "" |} in
  let s := {| candidates := ∅; region := None;
              district := None; votes_confirmed := false;
              candidate_to_edit := None |} in
  let w := {| user_sessions := {[ 7%Z := s ]}; sent := [] |} in
  let p := receive_photo_handler env 7 true w in
  let t := receive_text_handler 7 "Banda: 12" w in
  p.1 = t.1 /\ user_sessions p.2 = user_sessions t.2.
Proof.
  intros env s w.
  apply (photo_handled_as_text env 7 "Banda: 12" w); reflexivity.
Defined.

(** ** The bulk edit *)

Lemma splitlines_join lines :
  Forall (fun l => no_linebreak l = true /\ is_empty l = false) lines ->
  splitlines (join_lines lines) = lines.
Proof.
  induction 1 as [|l lines [Hl Hne] Hlines IH]; [reflexivity|].
  destruct lines as [|l2 lines].
  - apply splitlines_single; assumption.
  - change (join_lines (l :: l2 :: lines))
      with (l ++ nl ++ join_lines (l2 :: lines)).
    rewrite splitlines_line by exact Hl. rewrite IH. reflexivity.
Qed.

Lemma join_lines_ends p lines :
  Forall (fun l => ends_with p l = true) lines -> lines ≠ [] ->
  ends_with p (join_lines lines) = true.
Proof.
  induction 1 as [|l lines Hl Hlines IH]; [congruence|]. intros _.
  destruct lines as [|l2 lines]; [exact Hl|].
  change (join_lines (l :: l2 :: lines))
    with (l ++ nl ++ join_lines (l2 :: lines)).
  specialize (IH ltac:(discriminate)).
  rewrite ends_with_app by reflexivity.
  cbn [nl String.append ends_with].
  destruct (join_lines (l2 :: lines)); [discriminate IH | exact IH].
Qed.

Lemma join_lines_strip lines :
  Forall (fun l => starts_with nonspace l = true
                   /\ ends_with nonspace l = true) lines ->
  strip (join_lines lines) = join_lines lines.
Proof.
  intros Hall. destruct lines as [|l lines]; [reflexivity|].
  apply strip_id.
  - inversion Hall as [|? ? [Hs _] _]; subst.
    destruct lines; [exact Hs|]. apply starts_with_app, Hs.
  - apply join_lines_ends; [|discriminate].
    eapply Forall_impl; [exact Hall|]. intros ? [_ He]. exact He.
Qed.

Lemma split_colon_name name rest :
  has_char is_colon name = false ->
  split_colon (name ++ ":" ++ rest) = Some (name, rest).
Proof.
  induction name as [|c name IH]; [reflexivity|].
  cbn [has_char]. intros [Hc Hn]%orb_false_iff. unfold is_colon in Hc.
  cbn [String.append split_colon]. rewrite Hc.
  cbn [String.append] in IH. rewrite (IH Hn). reflexivity.
Qed.

Lemma decimal_not_linebreak c :
  is_decimal c = true -> negb (is_linebreak c) = true.
Proof. intros H. apply num_not_linebreak, decimal_is_num, H. Qed.

Section BulkLines.

Variable l : BulkLine.
Hypothesis Hok : bulk_ok l = true.

Lemma bulk_text_shape :
  no_linebreak (bulk_text l) = true
  /\ starts_with nonspace (bulk_text l) = true
  /\ ends_with nonspace (bulk_text l) = true.
Proof.
  destruct l as [e|t]; cbn [bulk_ok bulk_text] in *.
  - repeat (apply andb_true_iff in Hok as [Hok ?]).
    match goal with H : negb (is_empty _) = true |- _ =>
      apply negb_true_iff in H end.
    split; [|split].
    + unfold no_linebreak in *. rewrite !all_chars_app.
      repeat (apply andb_true_iff; split); try assumption; try reflexivity.
      eapply all_chars_impl; [apply decimal_not_linebreak | eassumption].
    + apply starts_with_app, Hok.
    + rewrite <- !sapp_assoc. rewrite ends_with_app by assumption.
      apply ends_with_all; [|assumption].
      eapply all_chars_impl; [apply decimal_nonspace | eassumption].
  - repeat (apply andb_true_iff in Hok as [Hok ?]). auto.
Qed.

Lemma bulk_line_record new_votes :
  bulk_line new_votes (bulk_text l) = inr (bulk_record new_votes l).
Proof.
  destruct l as [e|t]; cbn [bulk_ok bulk_text bulk_record] in *.
  - repeat (apply andb_true_iff in Hok as [Hok ?]).
    match goal with H : negb (is_empty _) = true |- _ =>
      apply negb_true_iff in H end.
    match goal with H : negb (has_char _ _) = true |- _ =>
      apply negb_true_iff in H end.
    match goal with H : negb (too_long _) = true |- _ =>
      apply negb_true_iff in H end.
    unfold bulk_line. rewrite split_colon_name by assumption.
    assert (strip (b_gap e ++ b_val e) = b_val e) as ->.
    { unfold strip. rewrite lstrip_app_spaces by assumption.
      apply strip_nonspace.
      eapply all_chars_impl; [apply decimal_nonspace | eassumption]. }
    destruct (decimal_count (b_val e)) as [-> ->]; try assumption.
    reflexivity.
  - apply andb_true_iff in Hok as [_ Hval]. unfold bulk_line.
    destruct (split_colon t) as [[name val]|]; [|reflexivity].
    cbv zeta. rewrite Hval. reflexivity.
Qed.

End BulkLines.

Lemma for_each_bulk_line lines new_votes :
  forallb bulk_ok lines = true ->
  for_each bulk_line new_votes (bulk_text <$> lines)
  = inr (fold_left bulk_record lines new_votes).
Proof.
  revert new_votes. induction lines as [|l lines IH]; intros new_votes;
    [reflexivity|].
  cbn [forallb]. intros [Hl Hlines]%andb_true_iff.
  cbn [fmap list_fmap for_each fold_left].
  rewrite (bulk_line_record l Hl). apply IH, Hlines.
Qed.



Example bulk_edit_records_text :
  join_lines
    (bulk_text <$>
       [ Pair {| b_name := "Banda "; b_gap := " "; b_val := "40" |};
         Skipped "Kaliya: many";
         Pair {| b_name := "Phiri"; b_gap := ""; b_val := "7" |} ])
  = "Banda : 40" ++ nl ++ "Kaliya: many" ++ nl ++ "Phiri:7".
Proof. reflexivity. Qed.

(** ** A count that [int] refuses *)

Lemma int_acc_not_decimal acc t :
  all_chars is_decimal t = false -> int_acc acc t = inl ValueError.
Proof.
  revert acc. induction t as [|c t IH]; intros acc; [discriminate|].
  cbn [all_chars int_acc]. destruct (is_decimal c); [apply IH | reflexivity].
Qed.

(** X23: while the count of a selected candidate is awaited, a text that
    passes [isdigit] and that [int] refuses, for a digit that is no decimal
    digit (a superscript two) or for more than 4300 digits, makes the
    handler raise [ValueError]: nothing is stored and nothing is
    answered. *)
Theorem count_refused_by_int_raises (env : Env) (user_id : Z)
    (text : string) (w : World) (s : Session) :
  user_sessions w !! user_id = Some s ->
  truthy (candidate_to_edit s) = true ->
  isdigit (strip text) = true ->
  all_chars is_decimal (strip text) = false \/ too_long (strip text) = true ->
  handle env EDIT_SINGLE_CANDIDATE user_id (TextMessage text) w
  = Some (inl ValueError, w).
Proof.
  intros Hs Hsel Hdigit Hint.
  assert (int (strip text) = inl ValueError) as E.
  { unfold int. destruct (is_empty (strip text) || too_long (strip text)) eqn:Hc;
      [reflexivity|].
    apply orb_false_iff in Hc as [_ Hfit].
    destruct Hint as [Hnd|Hlong]; [|congruence].
    apply int_acc_not_decimal, Hnd. }
  unfold handle, dispatch. cbn [entry_point state_handler].
  unfold receive_single_candidate_vote. run. rewrite Hs, Hsel.
  cbn [negb]. rewrite Hdigit. cbn [negb]. rewrite E. reflexivity.
Qed.

Lemma count_refused_by_int_raises_witness :
  let s := {| candidates := {[ "Banda" := 3%N ]}; region := None;
              district := None; votes_confirmed := false;
              candidate_to_edit := Some "Banda" |} in
  let w := {| user_sessions := {[ 7%Z := s ]}; sent := [] |} in
  handle {| ocr_http := Failed ""; districts_http := Failed "";
            sheet_http := Failed ""; sender_name := ""; clock := "" |}
    EDIT_SINGLE_CANDIDATE 7 (TextMessage (String (ascii_of_N 178) "")) w
  = Some (inl ValueError, w).
Proof.
  intros s w.
  apply (count_refused_by_int_raises _ 7 (String (ascii_of_N 178) "") w s);
    [reflexivity | reflexivity | reflexivity | left; reflexivity].
Defined.

(** ** The counts the program holds can be printed *)

Lemma decimal_string_uint t :
  all_chars is_decimal t = true ->
  exists d, t = NilEmpty.string_of_uint d.
Proof.
  induction t as [|c t IH]; [exists Decimal.Nil; reflexivity|].
  cbn [all_chars]. intros [Hc Ht]%andb_true_iff.
  destruct (IH Ht) as [d ->].
  destruct c as [[] [] [] [] [] [] [] []]; vm_compute in Hc;
    try discriminate Hc; clear Hc;
    first [ exists (Decimal.D0 d); reflexivity
          | exists (Decimal.D1 d); reflexivity
          | exists (Decimal.D2 d); reflexivity
          | exists (Decimal.D3 d); reflexivity
          | exists (Decimal.D4 d); reflexivity
          | exists (Decimal.D5 d); reflexivity
          | exists (Decimal.D6 d); reflexivity
          | exists (Decimal.D7 d); reflexivity
          | exists (Decimal.D8 d); reflexivity
          | exists (Decimal.D9 d); reflexivity ].
Qed.

Lemma string_of_uint_length d :
  String.length (NilEmpty.string_of_uint d) = Decimal.nb_digits d.
Proof.
  induction d; cbn [NilEmpty.string_of_uint String.length Decimal.nb_digits];
    congruence.
Qed.

(** The number a string of digits writes has no more digits than the
    string. *)
Lemma str_digits_value_length t :
  all_chars is_decimal t = true -> is_empty t = false ->
  String.length (str (digits_value 0 t)) <= String.length t.
Proof.
  intros Hd Hne. destruct (decimal_string_uint t Hd) as [d ->].
  rewrite digits_value_uint. unfold str.
  rewrite DecimalPos.Unsigned.to_of, !string_of_uint_length.
  apply DecimalFacts.nb_digits_unorm. intros ->. discriminate Hne.
Qed.

Lemma too_long_le a b :
  String.length a <= String.length b -> too_long b = false ->
  too_long a = false.
Proof.
  unfold too_long. intros Hle Hb. apply N.ltb_ge in Hb. apply N.ltb_ge. lia.
Qed.

(** What [int] returns can be printed. *)
Lemma int_printable t n : int t = inr n -> too_long (str n) = false.
Proof.
  unfold int. destruct (is_empty t) eqn:Hne; [discriminate|].
  destruct (too_long t) eqn:Hfit; [discriminate|]. cbn [orb]. intros Hint.
  destruct (all_chars is_decimal t) eqn:Hd.
  - rewrite decimal_int_acc in Hint by exact Hd. injection Hint as <-.
    eapply too_long_le; [apply str_digits_value_length; assumption | exact Hfit].
  - rewrite int_acc_not_decimal in Hint by exact Hd. discriminate Hint.
Qed.

Lemma printable_insert votes c n :
  printable votes -> too_long (str n) = false -> printable (<[c := n]> votes).
Proof.
  intros Hv Hn c' n' [[_ <-]|[_ H]]%lookup_insert_Some;
    [exact Hn | exact (Hv _ _ H)].
Qed.

Lemma printable_delete votes c : printable votes -> printable (delete c votes).
Proof. intros Hv c' n' [_ H]%lookup_delete_Some. exact (Hv _ _ H). Qed.

Lemma printable_union a b : printable a -> printable b -> printable (a ∪ b).
Proof.
  intros Ha Hb c n [H|[_ H]]%lookup_union_Some_raw;
    [exact (Ha _ _ H) | exact (Hb _ _ H)].
Qed.

Lemma printable_empty : printable ∅.
Proof. intros c n H. rewrite lookup_empty in H. discriminate H. Qed.

Lemma printable_start :
  printable (list_to_map ((fun c => (c, 0%N)) <$> DEFAULT_CANDIDATES)).
Proof.
  intros c n H. rewrite start_tally_lookup in H.
  destruct (bool_decide (c ∈ DEFAULT_CANDIDATES)); [|discriminate H].
  injection H as <-. reflexivity.
Qed.

Lemma for_each_keeps {A B : Type} (P : B -> Prop) (body : B -> A -> Exc B)
    (items : list A) :
  (forall acc x acc', body acc x = inr acc' -> P acc -> P acc') ->
  forall acc r, for_each body acc items = inr r -> P acc -> P r.
Proof.
  intros Hbody. induction items as [|x items IH]; intros acc r.
  - intros [= <-] Hacc. exact Hacc.
  - cbn [for_each]. destruct (body acc x) as [e|acc'] eqn:E; [discriminate|].
    intros Hr Hacc. apply (IH acc' r Hr). exact (Hbody _ _ _ E Hacc).
Qed.

Lemma match_votes_printable matched line matched' :
  match_votes matched line = inr matched' ->
  printable matched -> printable matched'.
Proof.
  unfold match_votes.
  destruct (match_line (strip (sub_spaces false line))) as [[g1 g2]|];
    [|intros [= <-]; auto].
  cbv zeta. destruct (isdigit (strip (remove_all "," g2)));
    [|intros [= <-]; auto].
  destruct (int (strip (remove_all "," g2))) as [e|n] eqn:E; [discriminate|].
  destruct (closest DEFAULT_CANDIDATES (strip g1)) as [[best d]|];
    [|intros [= <-]; auto].
  destruct (d <=? 2)%nat; intros [= <-] Hm; [|exact Hm].
  apply printable_insert; [exact Hm | exact (int_printable _ _ E)].
Qed.

Lemma extract_votes_printable text votes :
  extract_votes text = inr votes -> printable votes.
Proof.
  intros H. eapply (for_each_keeps printable match_votes); [|exact H|].
  - apply match_votes_printable.
  - apply printable_empty.
Qed.

Lemma bulk_line_printable new_votes line new_votes' :
  bulk_line new_votes line = inr new_votes' ->
  printable new_votes -> printable new_votes'.
Proof.
  unfold bulk_line. destruct (split_colon line) as [[name val]|];
    [|intros [= <-]; auto].
  cbv zeta. destruct (isdigit (strip val)); cbn [negb];
    [|intros [= <-]; auto].
  destruct (int (strip val)) as [e|n] eqn:E; [discriminate|].
  intros [= <-] Hm.
  apply printable_insert; [exact Hm | exact (int_printable _ _ E)].
Qed.

Lemma bulk_edit_printable lines new_votes :
  for_each bulk_line ∅ lines = inr new_votes -> printable new_votes.
Proof.
  intros H. eapply (for_each_keeps printable bulk_line); [|exact H|].
  - apply bulk_line_printable.
  - apply printable_empty.
Qed.

(** The steps, for the counts of the sessions. *)

Lemma stays_printable_refl w : stays_printable w w.
Proof. intros H. exact H. Qed.

Lemma stays_printable_trans w1 w2 w3 :
  stays_printable w1 w2 -> stays_printable w2 w3 -> stays_printable w1 w3.
Proof. intros H12 H23 H. apply H23, H12, H. Qed.

Lemma emit_printable e : keeps stays_printable (emit e).
Proof. intros w H. exact H. Qed.

Lemma sessions_pop_printable user_id :
  keeps stays_printable (sessions_pop user_id).
Proof.
  intros w H u s Hs. cbn in Hs.
  apply lookup_delete_Some in Hs as [_ Hs]. exact (H u s Hs).
Qed.

Lemma sessions_set_printable user_id s :
  printable (candidates s) -> keeps stays_printable (sessions_set user_id s).
Proof.
  intros Hp w H u s' Hs. cbn in Hs.
  apply lookup_insert_Some in Hs as [[_ <-]|[_ Hs]];
    [exact Hp | exact (H u s' Hs)].
Qed.

Lemma session_update_printable user_id f :
  (forall s, printable (candidates s) -> printable (candidates (f s))) ->
  keeps stays_printable (session_update user_id f).
Proof.
  intros Hf w. unfold session_update, mbind, handler_bind, session_of.
  destruct (user_sessions w !! user_id) as [s|] eqn:Hs; [|intros H; exact H].
  intros H. apply (sessions_set_printable user_id (f s) (Hf s (H _ _ Hs)) w H).
Qed.

Lemma lift_bind_printable {A B : Type} (r : Exc A) (k : A -> Handler B) :
  (forall a, r = inr a -> keeps stays_printable (k a)) ->
  keeps stays_printable (mbind k (lift r)).
Proof.
  intros Hk. destruct r as [e|a]; intros w.
  - intros H. exact H.
  - apply (Hk a eq_refl w).
Qed.

Ltac printable_tally :=
  intros ? ?;
  cbn [set_candidates set_region set_district set_candidate_to_edit candidates];
  repeat first
    [ assumption
    | apply printable_insert
    | apply printable_delete
    | apply printable_union
    | reflexivity
    | eapply int_printable; eassumption
    | eapply extract_votes_printable; eassumption
    | eapply bulk_edit_printable; eassumption ].

Ltac printable_steps :=
  first [ apply emit_printable | apply sessions_pop_printable
        | apply lift_bind_printable
        | apply session_update_printable; printable_tally
        | apply sessions_set_printable; apply printable_start ].

Ltac stays := keeps_by stays_printable_refl stays_printable_trans printable_steps.

Lemma edit_menu_printable user_id action :
  keeps stays_printable (edit_menu_handler user_id action).
Proof. unfold edit_menu_handler, reply. stays. Qed.

Lemma submit_data_printable env user_id :
  keeps stays_printable (submit_data env user_id).
Proof. unfold submit_data, reply. stays. Qed.

Lemma dispatch_printable env st user_id u h :
  dispatch env st user_id u = Some h -> keeps stays_printable h.
Proof.
  unfold dispatch, entry_point, state_handler, fallback. intros Hh.
  assert (forall x y : Handler Return,
             Some x = Some y -> keeps stays_printable x ->
             keeps stays_printable y) as Hsome
    by (intros x y [= <-] Hx; exact Hx).
  destruct u as [name|text| |data].
  - destruct (name =? "start")%string.
    + eapply Hsome; [exact Hh|]. unfold start, reply. stays.
    + destruct st, (name =? "cancel")%string; (eapply Hsome; [exact Hh|]);
        unfold cancel_handler, fallback_handler, reply; stays.
  - destruct st; try discriminate Hh; (eapply Hsome; [exact Hh|]);
      unfold receive_text_handler, bulk_edit_all_handler,
        receive_single_candidate_vote, add_candidate_name_handler, reply;
      stays.
  - destruct st; try discriminate Hh; (eapply Hsome; [exact Hh|]);
      unfold receive_photo_handler, reply; stays.
  - destruct st; try discriminate Hh; (eapply Hsome; [exact Hh|]);
      try apply edit_menu_printable;
      unfold choose_input_mode_handler, edit_single_candidate_handler,
        remove_candidate_name_handler, select_region_handler,
        select_district_handler, confirm_override_handler, reply;
      keeps_by stays_printable_refl stays_printable_trans
        ltac:(first [ printable_steps | apply edit_menu_printable
                    | apply submit_data_printable ]).
Qed.

(** X25: the counts the sessions hold can always be printed and read
    back: when no count of any session has more than 4300 digits, none has
    after an update is handled, whatever the update, the state and the
    answers of the services, and whether the handler returns or raises. A
    handler stores only 0 or what [int] returned. *)
Theorem counts_stay_printable (env : Env) (st : State) (user_id : Z)
    (u : Update) (w : World) (r : Exc Return * World) :
  handle env st user_id u w = Some r ->
  printable_sessions w -> printable_sessions r.2.
Proof.
  unfold handle. intros Hr.
  destruct (dispatch env st user_id u) as [h|] eqn:Hh; [|discriminate Hr].
  injection Hr as <-. apply (dispatch_printable _ _ _ _ _ Hh w).
Qed.

Lemma counts_stay_printable_witness :
  let s := {| candidates := {[ "Banda" := 3%N ]}; region := None;
              district := None; votes_confirmed := false;
              candidate_to_edit := Some "Banda" |} in
  let w := {| user_sessions := {[ 7%Z := s ]}; sent := [] |} in
  printable_sessions (receive_single_candidate_vote 7 "0412" w).2.
Proof.
  intros s w.
  apply (counts_stay_printable
           {| ocr_http := Failed ""; districts_http := Failed "";
              sheet_http := Failed ""; sender_name := ""; clock := "" |}
           EDIT_SINGLE_CANDIDATE 7 (TextMessage "0412") w
           (receive_single_candidate_vote 7 "0412" w)).
  - reflexivity.
  - intros u s' Hs. cbn in Hs. apply lookup_singleton_Some in Hs as [_ <-].
    intros c n Hc. cbn in Hc. apply lookup_singleton_Some in Hc as [_ <-].
    reflexivity.
Defined.
